(** * Funnel SQL compiler of pay-feature-analysis, embedded in Rocq

  The development follows [funnel_analyzer.py] (class
  [StandardFunnelAnalyzer]) and the final projection of
  [unified_loans_activities_funnel_analyzer.py]:

  - Python strings are [string]; f-strings are concatenations with [+:+];
  - the step dictionaries of a configuration live in a store indexed by
    references, so that the in-place updates of
    [check_event_availability] and the aliasing between
    [config['steps']] and the returned list are visible;
  - raising code runs in a state-and-exception monad;
  - the SQL the generator emits is given a syntax tree whose printer
    reproduces the emitted text and whose evaluator gives its relational
    meaning over tables of rows. *)

From Stdlib Require Import ZArith String Ascii List Lia DecimalString Bool Sorted.
From stdpp Require Import base option list gmap strings.

Local Open Scope string_scope.
Local Open Scope list_scope.
Local Open Scope Z_scope.

(** ** Text *)

Module Text.

(** [str(n)] for a Python int. *)
Definition str_of_int (z : Z) : string := NilZero.string_of_int (Z.to_int z).

(** [sep.join(parts)]. *)
Definition join (sep : string) (parts : list string) : string :=
  String.concat sep parts.

Definition nl : string := String (ascii_of_nat 10) "".

(** A block of text written line by line. *)
Definition lines (ls : list string) : string := join nl ls.

(** [s.replace(a, b)] for single characters [a] and [b]. *)
Fixpoint replace_char (a b : ascii) (s : string) : string :=
  match s with
  | EmptyString => EmptyString
  | String c s' =>
      String (if Ascii.eqb c a then b else c) (replace_char a b s')
  end.

(** [needle in text]: the text contains the needle as a contiguous part. *)
Definition contains (text needle : string) : Prop :=
  ∃ pre post, text = pre +:+ needle +:+ post.

(** The character does not occur in the string. *)
Fixpoint free_of (c : ascii) (s : string) : bool :=
  match s with
  | EmptyString => true
  | String d s' => negb (Ascii.eqb d c) && free_of c s'
  end.

End Text.

Import Text.

(** ** Python exceptions and the result of a call *)

Inductive exn : Type :=
| ValueError (msg : string)
| KeyError (key : string)
| TypeError (msg : string)
| EngineError (statement : string).

Inductive result (A : Type) : Type :=
| Ok (a : A)
| Raise (e : exn).

Arguments Ok {A} a.
Arguments Raise {A} e.

Definition rbind {A B} (r : result A) (k : A → result B) : result B :=
  match r with
  | Ok a => k a
  | Raise e => Raise e
  end.

Definition is_ok {A} (r : result A) : bool :=
  match r with Ok _ => true | Raise _ => false end.

(** ** Data model *)

(** A reference to a step dictionary. *)
Definition loc := nat.

(** One step dictionary.  [original_events] and [event_count] are the keys
  that [check_event_availability] attaches; a caller-supplied step does
  not carry them. *)
Record Step : Type := mkStep {
  rank : Z;
  screen_name : string;
  loaded_events : list string;
  original_events : option (list string);
  event_count : option Z
}.

Definition new_step (r : Z) (name : string) (events : list string) : Step :=
  mkStep r name events None None.

(** The value stored under [config['steps']]: a list of step references,
  or some value that is not a list. *)
Inductive steps_value : Type :=
| StepList (ls : list loc)
| NotAList.

(** The configuration dictionary: a key that is absent is [None]. *)
Record Config : Type := mkConfig {
  funnel_name : option string;
  project_id : option string;
  source_dataset : option string;
  destination_dataset : option string;
  data_source : option string;
  user_id_column : option string;
  session_id_column : option string;
  event_column : option string;
  timestamp_column : option string;
  partition_column : option string;
  time_period_days : option Z;
  steps : option steps_value;
  filters : option (list string);
  user_base_table : option string;
  user_segmentation_fields : option (list string);
  app_version_extraction : option string;
  os_extraction : option string;
  entry_point_extraction : option string;
  create_percentiles_table : option bool;
  percentiles_table_name : option string
}.

(** [config[key]]: raises [KeyError] when the key is absent. *)
Definition getitem {A} (field : option A) (key : string) : result A :=
  match field with
  | Some v => Ok v
  | None => Raise (KeyError key)
  end.

(** [config.get(key)] used as a condition, on a string value. *)
Definition truthy_str (field : option string) : option string :=
  match field with
  | Some s => if bool_decide (s = "") then None else Some s
  | None => None
  end.

(** [config.get(key)] used as a condition, on a list value. *)
Definition truthy_list {A} (field : option (list A)) : option (list A) :=
  match field with
  | Some [] => None
  | Some l => Some l
  | None => None
  end.

Definition present {A} (field : option A) : bool :=
  match field with Some _ => true | None => false end.

(** ** [validate_config] *)

(** [required_fields], each with the answer to [field in config]. *)
Definition required_fields (config : Config) : list (string * bool) :=
  [ ("funnel_name", present (funnel_name config));
    ("project_id", present (project_id config));
    ("source_dataset", present (source_dataset config));
    ("destination_dataset", present (destination_dataset config));
    ("data_source", present (data_source config));
    ("user_id_column", present (user_id_column config));
    ("session_id_column", present (session_id_column config));
    ("event_column", present (event_column config));
    ("timestamp_column", present (timestamp_column config));
    ("partition_column", present (partition_column config));
    ("time_period_days", present (time_period_days config));
    ("steps", present (steps config)) ].

(** The loop over [required_fields]. *)
Fixpoint check_required (fields : list (string * bool)) : result unit :=
  match fields with
  | [] => Ok tt
  | (field, true) :: rest => check_required rest
  | (field, false) :: _ =>
      Raise (ValueError ("Missing required field: " +:+ field))
  end.

Definition validate_config (config : Config) : result bool :=
  rbind (check_required (required_fields config)) (λ _,
  match steps config with
  | Some (StepList (_ :: _)) => Ok true
  | _ => Raise (ValueError "Steps must be a non-empty array")
  end).


(** ** The SQL fragment the generator emits *)

Module Sql.

(** Values of a column.  Timestamps are seconds since the epoch, dates are
    days since the epoch. *)
Inductive value : Type :=
| VNull
| VInt (z : Z)
| VStr (s : string)
| VTs (t : Z)
| VDate (d : Z)
| VBool (b : bool).

Global Instance value_eq_dec : EqDecision value.
Proof. solve_decision. Defined.

(** A row gives a value to each of its columns; a table is a bag of rows,
    kept as a list.  For the source table the "columns" are the column
    expressions of the configuration, taken as opaque names, and the JSON
    paths of [properties] that hold a string. *)
Definition row : Type := list (string * value).

Fixpoint get (c : string) (r : row) : value :=
  match r with
  | [] => VNull
  | (k, v) :: r' => if String.eqb k c then v else get c r'
  end.

(** What the engine knows when it runs a statement: [current_date()] and
    [current_timestamp()]. *)
Record clock : Type := mkClock { today : Z; now : Z }.

Inductive scalar : Type :=
| Col (c : string)                        (* c *)
| Qual (c : string)                       (* e.c *)
| UserField (c : string)                  (* u.c *)
| JsonText (path : string)                (* SAFE_CAST(JSON_EXTRACT_SCALAR(properties, 'path') AS STRING) *)
| DateOf (s : scalar)                     (* date(s) *)
| Null                                    (* null *)
| IntLit (n : Z)                          (* n *)
| StrLit (s : string)                     (* 's' *)
| TimestampSub (s : scalar) (minutes : Z) (* timestamp_sub(s, interval n minute) *)
| TimestampAdd (s : scalar) (minutes : Z) (* timestamp_add(s, interval n minute) *)
| CastString (s : scalar)                 (* cast(s as string) *)
| CurrentTimestamp                        (* current_timestamp() *)
| CountOver (p : scalar).                 (* COUNT( * ) OVER (PARTITION BY p) *)

Inductive cond : Type :=
| Eq (a b : scalar)                       (* a = b *)
| Ge (a b : scalar)                       (* a >= b *)
| InStrings (a : scalar) (l : list string) (* a in ('x', 'y') *)
| SinceDays (a : scalar) (days : Z)       (* a >= date_sub(current_date(), interval n day) *)
| IsNotNull (a : scalar).                 (* a is not null *)

Inductive expr : Type :=
| Scalar (s : scalar)
| Case (whens : list (cond * scalar)) (els : scalar).

(** One entry of a select list: the expression, its alias, and whatever
    the template writes between the comma and the end of the line. *)
Record item : Type := mkItem {
  it_expr : expr;
  it_alias : option string;
  it_trailer : string
}.

Definition plain (c : string) : item := mkItem (Scalar (Col c)) None "".
Definition aliased (e : expr) (a : string) : item := mkItem e (Some a) "".

(** The name of the output column an entry defines. *)
Definition item_name (it : item) : string :=
  match it_alias it, it_expr it with
  | Some a, _ => a
  | None, Scalar (Col c) => c
  | None, Scalar (Qual c) => c
  | None, Scalar (UserField c) => c
  | None, _ => ""
  end.

(** *** Printer *)

Fixpoint render_scalar (s : scalar) : string :=
  match s with
  | Col c => c
  | Qual c => "e." +:+ c
  | UserField c => "u." +:+ c
  | JsonText path => "SAFE_CAST(JSON_EXTRACT_SCALAR(properties, '" +:+ path +:+ "') AS STRING)"
  | DateOf s' => "date(" +:+ render_scalar s' +:+ ")"
  | Null => "null"
  | IntLit n => str_of_int n
  | StrLit x => "'" +:+ x +:+ "'"
  | TimestampSub s' n =>
      "timestamp_sub(" +:+ render_scalar s' +:+ ", interval " +:+ str_of_int n +:+ " minute)"
  | TimestampAdd s' n =>
      "timestamp_add(" +:+ render_scalar s' +:+ ", interval " +:+ str_of_int n +:+ " minute)"
  | CastString s' => "cast(" +:+ render_scalar s' +:+ " as string)"
  | CurrentTimestamp => "current_timestamp()"
  | CountOver p => "COUNT(*) OVER (PARTITION BY " +:+ render_scalar p +:+ ")"
  end.

Definition render_cond (c : cond) : string :=
  match c with
  | Eq a b => render_scalar a +:+ " = " +:+ render_scalar b
  | Ge a b => render_scalar a +:+ " >= " +:+ render_scalar b
  | InStrings a l => render_scalar a +:+ " in ('" +:+ join "', '" l +:+ "')"
  | SinceDays a n =>
      render_scalar a +:+ " >= date_sub(current_date(), interval " +:+ str_of_int n +:+ " day)"
  | IsNotNull a => render_scalar a +:+ " is not null"
  end.

(** The generator writes keywords in lower case in the funnel statement
    and in upper case in the percentile statement. *)
Inductive style : Type := Lower | Upper.

Definition kw (st : style) (lower upper : string) : string :=
  match st with Lower => lower | Upper => upper end.

Definition render_when (sty : style) (w : cond * scalar) : string :=
  kw sty "when " "WHEN " +:+ render_cond w.1 +:+ kw sty " then " " THEN "
  +:+ render_scalar w.2.

(** The arms of a [case], each on its own line indented by [arm]. *)
Fixpoint render_arms (sty : style) (arm : string) (whens : list (cond * scalar))
    (rest : string) : string :=
  match whens with
  | [] => rest
  | w :: ws => arm +:+ render_when sty w +:+ nl +:+ render_arms sty arm ws rest
  end.

(** A [case] whose arms are indented by [arm] and whose [end] by [ind]. *)
Definition render_expr (sty : style) (arm ind : string) (e : expr) : string :=
  match e with
  | Scalar s => render_scalar s
  | Case whens els =>
      kw sty "case " "CASE " +:+ nl +:+
      render_arms sty arm whens
        (arm +:+ kw sty "else " "ELSE " +:+ render_scalar els +:+ nl +:+ ind
         +:+ kw sty "end" "END")
  end.

Definition render_item (sty : style) (arm ind : string) (it : item) : string :=
  ind +:+ render_expr sty arm ind (it_expr it) +:+
  match it_alias it with
  | Some a => kw sty " as " " AS " +:+ a
  | None => ""
  end.

Fixpoint render_items (sty : style) (arm ind : string) (items : list item) : string :=
  match items with
  | [] => ""
  | [it] => render_item sty arm ind it
  | it :: rest =>
      render_item sty arm ind it +:+ "," +:+ it_trailer it +:+ nl
      +:+ render_items sty arm ind rest
  end.

(** [where c1 / and c2 / ...], one condition per line. *)
Definition render_where (ind : string) (conds : list cond) : string :=
  ind +:+ "where " +:+ join (nl +:+ ind +:+ "and ") (map render_cond conds).

(** [select ... from t where ...], the keyword lines indented by [ind0]. *)
Definition render_select (sty : style) (arm ind0 ind : string) (items : list item)
    (from : string) (conds : list cond) : string :=
  ind0 +:+ "select " +:+ nl +:+ render_items sty arm ind items +:+ nl
  +:+ ind0 +:+ "from " +:+ from +:+ nl +:+ render_where ind0 conds.

(** *** Evaluator *)

Definition sql_eq (v w : value) : bool :=
  match v, w with
  | VInt x, VInt y => x =? y
  | VStr x, VStr y => String.eqb x y
  | VTs x, VTs y => x =? y
  | VDate x, VDate y => x =? y
  | _, _ => false
  end.

Definition sql_ge (v w : value) : bool :=
  match v, w with
  | VInt x, VInt y => y <=? x
  | VTs x, VTs y => y <=? x
  | VDate x, VDate y => y <=? x
  | _, _ => false
  end.

Section eval.
Context (clk : clock) (tbl : list row).

Fixpoint eval_scalar (s : scalar) (r : row) : value :=
  match s with
  | Col c => get c r
  | Qual c => get c r
  | UserField c => get ("u." +:+ c) r
  | JsonText path => match get path r with VStr x => VStr x | _ => VNull end
  | DateOf s' =>
      match eval_scalar s' r with
      | VTs t => VDate (t / 86400)
      | VDate d => VDate d
      | _ => VNull
      end
  | Null => VNull
  | IntLit n => VInt n
  | StrLit x => VStr x
  | TimestampSub s' n =>
      match eval_scalar s' r with VTs t => VTs (t - 60 * n) | _ => VNull end
  | TimestampAdd s' n =>
      match eval_scalar s' r with VTs t => VTs (t + 60 * n) | _ => VNull end
  | CastString s' =>
      match eval_scalar s' r with
      | VInt n => VStr (str_of_int n)
      | VStr x => VStr x
      | _ => VNull
      end
  | CurrentTimestamp => VTs (now clk)
  | CountOver p =>
      VInt (Z.of_nat (length
        (filter (λ r', eval_scalar p r' = eval_scalar p r) tbl)))
  end.

(** A condition holds when it evaluates to TRUE; NULL and FALSE both
    make a [where] drop the row and a [when] fall through. *)
Definition eval_cond (c : cond) (r : row) : bool :=
  match c with
  | Eq a b => sql_eq (eval_scalar a r) (eval_scalar b r)
  | Ge a b => sql_ge (eval_scalar a r) (eval_scalar b r)
  | InStrings a l =>
      match eval_scalar a r with
      | VStr x => bool_decide (x ∈ l)
      | _ => false
      end
  | SinceDays a n =>
      match eval_scalar a r with
      | VDate d => today clk - n <=? d
      | _ => false
      end
  | IsNotNull a => negb (bool_decide (eval_scalar a r = VNull))
  end.

Fixpoint eval_arms (whens : list (cond * scalar)) (els : scalar) (r : row) : value :=
  match whens with
  | [] => eval_scalar els r
  | (c, s) :: ws => if eval_cond c r then eval_scalar s r else eval_arms ws els r
  end.

Definition eval_expr (e : expr) (r : row) : value :=
  match e with
  | Scalar s => eval_scalar s r
  | Case whens els => eval_arms whens els r
  end.

Definition project (items : list item) (r : row) : row :=
  map (λ it, (item_name it, eval_expr (it_expr it) r)) items.

Definition holds_all (conds : list cond) (r : row) : bool :=
  forallb (λ c, eval_cond c r) conds.

End eval.

(** [select items from tbl where c1 and c2 ...]: window functions of the
    select list see the rows the [where] kept. *)
Definition select (clk : clock) (items : list item) (conds : list cond)
    (tbl : list row) : list row :=
  let kept := filter (λ r, holds_all clk [] conds r = true) tbl in
  map (project clk kept items) kept.

(** [select key, COUNT( * ) as count from rows group by key], for rows
    already reduced to their key. *)
Definition group_count (keys : list string) : list (string * Z) :=
  map (λ k, (k, Z.of_nat (length (filter (λ k', k' = k) keys))))
      (remove_dups keys).

End Sql.

(** ** The store of step dictionaries and the monad of the methods *)

Abbreviation store := (gmap loc Step).

Definition M (A : Type) : Type := store → result A * store.

Definition ret {A} (a : A) : M A := λ σ, (Ok a, σ).

Definition raise {A} (e : exn) : M A := λ σ, (Raise e, σ).

Definition bind {A B} (m : M A) (k : A → M B) : M B :=
  λ σ, match m σ with
       | (Ok a, σ') => k a σ'
       | (Raise e, σ') => (Raise e, σ')
       end.

Definition lift {A} (r : result A) : M A := λ σ, (r, σ).

Notation "'let*' x ':=' m 'in' k" := (bind m (λ x, k))
  (at level 10, x binder, k at level 200).
Notation "'let?' x ':=' r 'in' k" := (rbind r (λ x, k))
  (at level 10, x binder, k at level 200).

(** [step[...]] on an element of [config['steps']]; an element that is not
    a dictionary cannot be subscripted. *)
Definition read (l : loc) : M Step :=
  λ σ, match σ !! l with
       | Some st => (Ok st, σ)
       | None => (Raise (TypeError "object is not subscriptable"), σ)
       end.

(** [step[key] = v], as an update of the dictionary behind the reference. *)
Definition modify (l : loc) (f : Step → Step) : M unit :=
  let* st := read l in λ σ, (Ok tt, <[l := f st]> σ).

Definition set_rank (r : Z) (st : Step) : Step :=
  mkStep r (screen_name st) (loaded_events st) (original_events st) (event_count st).
Definition set_loaded_events (evs : list string) (st : Step) : Step :=
  mkStep (rank st) (screen_name st) evs (original_events st) (event_count st).
Definition set_original_events (evs : list string) (st : Step) : Step :=
  mkStep (rank st) (screen_name st) (loaded_events st) (Some evs) (event_count st).
Definition set_event_count (n : Z) (st : Step) : Step :=
  mkStep (rank st) (screen_name st) (loaded_events st) (original_events st) (Some n).

(** [for x in xs: body(x)], collecting what the bodies return. *)
Fixpoint for_each {A B} (body : A → M B) (xs : list A) : M (list B) :=
  match xs with
  | [] => ret []
  | x :: rest =>
      let* y := body x in
      let* ys := for_each body rest in
      ret (y :: ys)
  end.

(** ** The warehouse behind [self.client] *)

(** The tables it holds, its clock, and the statements it is able to run
    (a statement it rejects makes the client raise). *)
Record Warehouse : Type := mkWarehouse {
  wh_clock : Sql.clock;
  wh_table : string → list Sql.row;
  wh_accepts : string → bool
}.

(** [self.client.query(statement).result()], for its success or failure. *)
Definition submit (wh : Warehouse) (statement : string) : result unit :=
  if wh_accepts wh statement then Ok tt else Raise (EngineError statement).

Module Standard.
Import Sql.

(** *** [check_event_availability] *)

(** [config['steps']], iterated. *)
Definition iter_steps (config : Config) : result (list loc) :=
  let? v := getitem (steps config) "steps" in
  match v with
  | StepList ls => Ok ls
  | NotAList => Raise (TypeError "steps is not a list of steps")
  end.

(** The text of the count query. *)
Definition availability_query (source partition : string) (days : Z)
    (all_events : list string) : string :=
  lines [
    "";
    "        SELECT ";
    "            event,";
    "            COUNT(*) as count";
    "        FROM `" +:+ source +:+ "`";
    "        WHERE event in ('" +:+ join "', '" all_events +:+ "')";
    "        AND " +:+ partition +:+ " >= date_sub(current_date(), interval "
      +:+ str_of_int days +:+ " day)";
    "        GROUP BY event";
    "        ORDER BY count DESC";
    "        " ].

(** The rows the count query returns: the rows of the data source whose
    [event] is one of the declared events and whose partition column is
    recent enough, grouped by [event].  (The [ORDER BY count DESC] of the
    query does not matter to the dictionary built from the rows.) *)
Definition availability_where (partition : string) (days : Z)
    (all_events : list string) : list cond :=
  [ InStrings (Col "event") all_events; SinceDays (Col partition) days ].

Definition event_of (r : row) : string :=
  match get "event" r with VStr e => e | _ => "" end.

Definition run_availability_query (wh : Warehouse) (source partition : string)
    (days : Z) (all_events : list string) : list (string * Z) :=
  group_count
    (map event_of
       (filter (λ r, holds_all (wh_clock wh) []
                       (availability_where partition days all_events) r = true)
               (wh_table wh source))).

(** [{row.event: row.count for row in results}] *)
Definition dict_of_rows (results : list (string * Z)) : gmap string Z :=
  foldl (λ d row, <[row.1 := row.2]> d) ∅ results.

Definition available_in (available_events : gmap string Z) (evs : list string) : list string :=
  filter (λ event, is_Some (available_events !! event)) evs.

Definition count_of (available_events : gmap string Z) (event : string) : Z :=
  default 0 (available_events !! event).

Definition sum_counts (available_events : gmap string Z) (evs : list string) : Z :=
  foldr Z.add 0 (map (count_of available_events) evs).

(** The filtering loop.  A surviving step is updated in place and its
    reference is appended to [filtered_steps]. *)
Fixpoint filter_loop (available_events : gmap string Z) (ls : list loc) : M (list loc) :=
  match ls with
  | [] => ret []
  | l :: rest =>
      let* st := read l in
      let step_events := loaded_events st in
      let available_step_events := available_in available_events step_events in
      match available_step_events with
      | _ :: _ =>
          let* _ := modify l (set_loaded_events available_step_events) in
          let* _ := modify l (set_original_events step_events) in
          let* _ := modify l (set_event_count
                                (sum_counts available_events available_step_events)) in
          let* filtered := filter_loop available_events rest in
          ret (l :: filtered)
      | [] => filter_loop available_events rest
      end
  end.

(** [for i, step in enumerate(filtered_steps): step['rank'] = i + 1] *)
Fixpoint rerank_loop (i : nat) (filtered_steps : list loc) : M unit :=
  match filtered_steps with
  | [] => ret tt
  | l :: rest =>
      let* _ := modify l (set_rank (Z.of_nat i + 1)) in
      rerank_loop (S i) rest
  end.

Definition check_event_availability (wh : Warehouse) (config : Config) : M (list loc) :=
  let* ls := lift (iter_steps config) in
  let* per_step := for_each (λ l, let* st := read l in ret (loaded_events st)) ls in
  let all_events := concat per_step in
  let* source := lift (getitem (data_source config) "data_source") in
  let* partition := lift (getitem (partition_column config) "partition_column") in
  let* days := lift (getitem (time_period_days config) "time_period_days") in
  let query := availability_query source partition days all_events in
  let* _ := lift (submit wh query) in
  let results := run_availability_query wh source partition days all_events in
  let available_events := dict_of_rows results in
  let* filtered_steps := filter_loop available_events ls in
  let* _ := rerank_loop 0 filtered_steps in
  ret filtered_steps.

(** *** [generate_standard_funnel_sql]: the text *)

(** The two [when] lines a step contributes to the labeling [case]s. *)
Definition step_case_line (st : Step) : string :=
  "when event in ('" +:+ join "', '" (loaded_events st) +:+ "') then "
  +:+ str_of_int (rank st).

Definition screen_name_case_line (st : Step) : string :=
  "when event in ('" +:+ join "', '" (loaded_events st) +:+ "') then '"
  +:+ screen_name st +:+ "'".

Definition extraction_field (path : option string) (name : string) : string :=
  match truthy_str path with
  | Some p =>
      "SAFE_CAST(JSON_EXTRACT_SCALAR(properties, '$." +:+ replace_char ":" "." p
      +:+ "') AS STRING) as " +:+ name
  | None => "null as " +:+ name
  end.

Definition extraction_fields (config : Config) : list string :=
  [ extraction_field (app_version_extraction config) "app_version";
    extraction_field (os_extraction config) "operating_system";
    extraction_field (entry_point_extraction config) "entry_point" ].

Definition user_seg_fields (config : Config) : list string :=
  match truthy_str (user_base_table config),
        truthy_list (user_segmentation_fields config) with
  | Some _, Some fields => map (λ field, "u." +:+ field) fields
  | _, _ =>
      [ "null as current_tier"; "null as affluence_v11_flag";
        "null as gender"; "null as income_range" ]
  end.

Definition user_join (config : Config) : result string :=
  match truthy_str (user_base_table config) with
  | Some table =>
      let? uid := getitem (user_id_column config) "user_id_column" in
      Ok ("left join `" +:+ table +:+ "` u on e." +:+ uid +:+ " = u." +:+ uid)
  | None => Ok ""
  end.

(** [filter_clause], built from the events of the surviving steps. *)
Definition filter_clause (filtered_steps : list Step) : string :=
  "event in ('" +:+ join "', '" (concat (map loaded_events filtered_steps)) +:+ "')".

(** [filtered_steps[i-1]['screen_name'] if i > 0 else 'null'] *)
Definition previous_label (filtered_steps : list Step) (i : nat) : string :=
  match i with
  | O => "null"
  | S j => default "" (screen_name <$> filtered_steps !! j)
  end.

(** One entry of [funnel_completion_cases]. *)
Definition funnel_completion_case (filtered_steps : list Step) (i : nat) (st : Step) : string :=
  let step_num := str_of_int (rank st) in
  let last := str_of_int (Z.of_nat (length filtered_steps)) in
  lines [
    "";
    "        -- Step " +:+ step_num +:+ ": " +:+ screen_name st;
    "        select ";
    "            actor_id,";
    "            session_id,";
    "            '" +:+ screen_name st +:+ "' as screen_name,";
    "            case ";
    "                when step_stage = " +:+ step_num +:+ " then screen_entry_time";
    "                else timestamp_sub(screen_entry_time, interval "
      +:+ str_of_int (rank st - 1) +:+ " minute)";
    "            end as screen_entry_time,";
    "            " +:+ step_num +:+ " as step_stage,";
    "            current_tier, ";
    "            affluence_v11_flag,";
    "            gender,";
    "            income_range,";
    "            app_version,";
    "            operating_system,";
    "            entry_point,";
    "            case ";
    "                when step_stage = " +:+ step_num +:+ " then previous_screen_name";
    "                when " +:+ step_num +:+ " = 1 then null";
    "                else '" +:+ previous_label filtered_steps i +:+ "'";
    "            end as previous_screen_name,";
    "            case ";
    "                when step_stage = " +:+ step_num +:+ " then screen_success_time";
    "                when " +:+ step_num +:+ " = " +:+ last +:+ " then null";
    "                else timestamp_add(screen_entry_time, interval 1 minute)";
    "            end as screen_success_time,";
    "            case ";
    "                when step_stage = " +:+ step_num +:+ " then is_conversion_session";
    "                when " +:+ step_num +:+ " = " +:+ last +:+ " then 0";
    "                else 1";
    "            end as is_conversion_session,";
    "            case ";
    "                when step_stage = " +:+ step_num +:+ " then time_to_convert";
    "                when " +:+ step_num +:+ " = " +:+ last +:+ " then null";
    "                else 60";
    "            end as time_to_convert";
    "        from funnel_clean";
    "        where step_stage >= " +:+ step_num ].

Definition funnel_completion_sql (filtered_steps : list Step) : string :=
  join (nl +:+ "union all" +:+ nl)
       (imap (funnel_completion_case filtered_steps) filtered_steps).

(** The f-string assigned to [sql], its placeholders already evaluated. *)
Definition standard_funnel_text (config : Config)
    (project destination uid sid ev ts source partition : string) (days : Z)
    (join_clause : string) (filtered_steps : list Step) : string :=
  let step_case := join (nl +:+ "        ") (map step_case_line filtered_steps) in
  let screen_name_case :=
    join (nl +:+ "        ") (map screen_name_case_line filtered_steps) in
  lines [
    "";
    "-- Create STANDARD_FUNNEL table with exact schema";
    "-- Using funnel completion logic to fill in missing steps";
    "create or replace table `" +:+ project +:+ "." +:+ destination
      +:+ ".STANDARD_FUNNEL` as (";
    "with funnel_base as (";
    "    select ";
    "        e." +:+ uid +:+ " as actor_id,";
    "        " +:+ sid +:+ " as session_id,";
    "        e." +:+ ev +:+ " as event,";
    "        e." +:+ ts +:+ " as screen_entry_time,";
    "        e.properties,";
    "        -- User segmentation fields";
    "        " +:+ join ", " (user_seg_fields config) +:+ ",";
    "        -- Extraction fields";
    "        " +:+ join ", " (extraction_fields config) +:+ ",";
    "        -- Step mapping (only for events that exist)";
    "        case ";
    "        " +:+ step_case;
    "        else null";
    "        end as step_stage,";
    "        case ";
    "        " +:+ screen_name_case;
    "        else e." +:+ ev;
    "        end as screen_name";
    "    from `" +:+ source +:+ "` e";
    "    " +:+ join_clause;
    "    where " +:+ filter_clause filtered_steps;
    "    and " +:+ partition +:+ " >= date_sub(current_date(), interval "
      +:+ str_of_int days +:+ " day)";
    "    and date(e." +:+ ts +:+ ") >= date_sub(current_date(), interval "
      +:+ str_of_int days +:+ " day)";
    "    and " +:+ sid +:+ " is not null";
    ")";
    ",funnel_clean as (";
    "    select ";
    "        actor_id,";
    "        session_id,";
    "        screen_name,";
    "        screen_entry_time,";
    "        step_stage,";
    "        current_tier,";
    "        affluence_v11_flag,";
    "        gender,";
    "        income_range,";
    "        app_version,";
    "        operating_system,";
    "        entry_point,";
    "        -- Previous screen name";
    "        lag(screen_name) over (partition by actor_id, session_id order by screen_entry_time) as previous_screen_name,";
    "        -- Next screen entry time";
    "        lead(screen_entry_time) over (partition by actor_id, session_id order by screen_entry_time) as screen_success_time,";
    "        -- Is conversion session (has next step)";
    "        case when lead(screen_entry_time) over (partition by actor_id, session_id order by screen_entry_time) is not null then 1 else 0 end as is_conversion_session,";
    "        -- Time to convert";
    "        case when lead(screen_entry_time) over (partition by actor_id, session_id order by screen_entry_time) is not null ";
    "             then timestamp_diff(lead(screen_entry_time) over (partition by actor_id, session_id order by screen_entry_time), screen_entry_time, second) ";
    "             else null end as time_to_convert";
    "    from funnel_base";
    "    where step_stage is not null";
    "    qualify row_number() over (partition by actor_id, session_id, screen_name, step_stage order by step_stage desc, screen_entry_time desc) = 1";
    ")";
    ",funnel_completed as (";
    "    -- Apply funnel completion logic: if user reaches step N, include them in steps 1 to N-1";
    funnel_completion_sql filtered_steps;
    ")";
    "select ";
    "    actor_id,";
    "    current_tier,";
    "    affluence_v11_flag,";
    "    gender,";
    "    income_range,";
    "    session_id,";
    "    app_version,";
    "    operating_system,";
    "    entry_point,";
    "    screen_name,";
    "    screen_entry_time,";
    "    cast(step_stage as string) as step,";
    "    step_stage,";
    "    previous_screen_name,";
    "    screen_success_time,";
    "    is_conversion_session,";
    "    time_to_convert,";
    "    current_timestamp() as table_created_at";
    "from funnel_completed";
    "order by actor_id, session_id, step_stage, screen_entry_time";
    ")";
    "" ].

(** The statement, for the steps that survived the availability check. *)
Definition standard_funnel_sql (config : Config) (filtered_steps : list Step)
    : result string :=
  let? join_clause := user_join config in
  let? project := getitem (project_id config) "project_id" in
  let? destination := getitem (destination_dataset config) "destination_dataset" in
  let? uid := getitem (user_id_column config) "user_id_column" in
  let? sid := getitem (session_id_column config) "session_id_column" in
  let? ev := getitem (event_column config) "event_column" in
  let? ts := getitem (timestamp_column config) "timestamp_column" in
  let? source := getitem (data_source config) "data_source" in
  let? partition := getitem (partition_column config) "partition_column" in
  let? days := getitem (time_period_days config) "time_period_days" in
  Ok (standard_funnel_text config project destination uid sid ev ts source partition
        days join_clause filtered_steps).

Definition generate_standard_funnel_sql (wh : Warehouse) (config : Config) : M string :=
  let* filtered_steps := check_event_availability wh config in
  match filtered_steps with
  | [] => raise (ValueError "No steps with available events found. Check your event names.")
  | _ :: _ =>
      let* fs := for_each read filtered_steps in
      lift (standard_funnel_sql config fs)
  end.

(** *** [generate_standard_funnel_sql]: the statement as a syntax tree *)

(** The labeling [case]s of [funnel_base]. *)
Definition step_stage_expr (filtered_steps : list Step) : expr :=
  Case (map (λ st, (InStrings (Col "event") (loaded_events st), IntLit (rank st)))
            filtered_steps)
       Null.

Definition screen_name_expr (ev : string) (filtered_steps : list Step) : expr :=
  Case (map (λ st, (InStrings (Col "event") (loaded_events st), StrLit (screen_name st)))
            filtered_steps)
       (Qual ev).

(** The [where] of [funnel_base]. *)
Definition funnel_base_where (partition ts sid : string) (days : Z)
    (filtered_steps : list Step) : list cond :=
  [ InStrings (Col "event") (concat (map loaded_events filtered_steps));
    SinceDays (Col partition) days;
    SinceDays (DateOf (Qual ts)) days;
    IsNotNull (Col sid) ].

(** The select list and the [where] of the branch of [funnel_completed]
    written for the step at position [i]. *)
Definition completion_items (filtered_steps : list Step) (i : nat) (st : Step)
    : list item :=
  let step_num := rank st in
  let last := Z.of_nat (length filtered_steps) in
  let reached := Eq (Col "step_stage") (IntLit step_num) in
  [ plain "actor_id";
    plain "session_id";
    aliased (Scalar (StrLit (screen_name st))) "screen_name";
    aliased (Case [ (reached, Col "screen_entry_time") ]
                  (TimestampSub (Col "screen_entry_time") (step_num - 1)))
            "screen_entry_time";
    aliased (Scalar (IntLit step_num)) "step_stage";
    mkItem (Scalar (Col "current_tier")) None " ";
    plain "affluence_v11_flag";
    plain "gender";
    plain "income_range";
    plain "app_version";
    plain "operating_system";
    plain "entry_point";
    aliased (Case [ (reached, Col "previous_screen_name");
                    (Eq (IntLit step_num) (IntLit 1), Null) ]
                  (StrLit (previous_label filtered_steps i)))
            "previous_screen_name";
    aliased (Case [ (reached, Col "screen_success_time");
                    (Eq (IntLit step_num) (IntLit last), Null) ]
                  (TimestampAdd (Col "screen_entry_time") 1))
            "screen_success_time";
    aliased (Case [ (reached, Col "is_conversion_session");
                    (Eq (IntLit step_num) (IntLit last), IntLit 0) ]
                  (IntLit 1))
            "is_conversion_session";
    aliased (Case [ (reached, Col "time_to_convert");
                    (Eq (IntLit step_num) (IntLit last), Null) ]
                  (IntLit 60))
            "time_to_convert" ].

Definition completion_where (st : Step) : list cond :=
  [ Ge (Col "step_stage") (IntLit (rank st)) ].

(** The final select list. *)
Definition final_items : list item :=
  [ plain "actor_id";
    plain "current_tier";
    plain "affluence_v11_flag";
    plain "gender";
    plain "income_range";
    plain "session_id";
    plain "app_version";
    plain "operating_system";
    plain "entry_point";
    plain "screen_name";
    plain "screen_entry_time";
    aliased (Scalar (CastString (Col "step_stage"))) "step";
    plain "step_stage";
    plain "previous_screen_name";
    plain "screen_success_time";
    plain "is_conversion_session";
    plain "time_to_convert";
    aliased (Scalar CurrentTimestamp) "table_created_at" ].

(** The select list of [funnel_base]. *)
Definition seg_items (config : Config) : list item :=
  match truthy_str (user_base_table config),
        truthy_list (user_segmentation_fields config) with
  | Some _, Some fields => map (λ field, mkItem (Scalar (UserField field)) None "") fields
  | _, _ =>
      [ aliased (Scalar Null) "current_tier"; aliased (Scalar Null) "affluence_v11_flag";
        aliased (Scalar Null) "gender"; aliased (Scalar Null) "income_range" ]
  end.

Definition extraction_item (path : option string) (name : string) : item :=
  match truthy_str path with
  | Some p => aliased (Scalar (JsonText ("$." +:+ replace_char ":" "." p))) name
  | None => aliased (Scalar Null) name
  end.

Definition extraction_items (config : Config) : list item :=
  [ extraction_item (app_version_extraction config) "app_version";
    extraction_item (os_extraction config) "operating_system";
    extraction_item (entry_point_extraction config) "entry_point" ].

Definition funnel_base_items (config : Config) (uid sid ev ts : string)
    (filtered_steps : list Step) : list item :=
  [ aliased (Scalar (Qual uid)) "actor_id";
    aliased (Scalar (Col sid)) "session_id";
    aliased (Scalar (Qual ev)) "event";
    aliased (Scalar (Qual ts)) "screen_entry_time";
    mkItem (Scalar (Qual "properties")) None "" ]
  ++ seg_items config ++ extraction_items config
  ++ [ aliased (step_stage_expr filtered_steps) "step_stage";
       aliased (screen_name_expr ev filtered_steps) "screen_name" ].

(** *** The tables the statement defines *)

(** [from `data_source` e left join `user_base_table` u on e.uid = u.uid]:
    a source row is paired with each user row of the same id, whose columns
    are read under their qualified names, and is kept alone when there is
    none. *)
Definition left_join (uid : string) (events users : list row) : list row :=
  concat (map (λ e,
    match filter (λ u, sql_eq (get uid e) (get uid u) = true) users with
    | [] => [e]
    | matches => map (λ u, e ++ map (λ kv, ("u." +:+ kv.1, kv.2)) u) matches
    end) events).

Definition funnel_base_from (wh : Warehouse) (config : Config) (uid source : string)
    : list row :=
  match truthy_str (user_base_table config) with
  | Some table => left_join uid (wh_table wh source) (wh_table wh table)
  | None => wh_table wh source
  end.

Definition funnel_base (wh : Warehouse) (config : Config)
    (uid sid ev ts source partition : string) (days : Z) (filtered_steps : list Step)
    : list row :=
  select (wh_clock wh) (funnel_base_items config uid sid ev ts filtered_steps)
         (funnel_base_where partition ts sid days filtered_steps)
         (funnel_base_from wh config uid source).

(** The window [over (partition by actor_id, session_id order by
    screen_entry_time)] of [funnel_clean]: ascending, a null entry time
    first.  Rows that tie are taken in the order of the table (the engine
    may take them in any order). *)
Definition same_session (r x : row) : bool :=
  bool_decide ((get "actor_id" r, get "session_id" r)
               = (get "actor_id" x, get "session_id" x)).

Definition earlier (x r : row) : bool :=
  match get "screen_entry_time" x, get "screen_entry_time" r with
  | VTs a, VTs b => a <? b
  | VTs _, _ => false
  | _, VTs _ => true
  | _, _ => false
  end.

Fixpoint insert_by_time (x : nat * row) (sorted : list (nat * row)) : list (nat * row) :=
  match sorted with
  | [] => [x]
  | y :: rest =>
      if earlier y.2 x.2 then y :: insert_by_time x rest else x :: y :: rest
  end.

Definition window_order (rows : list (nat * row)) : list (nat * row) :=
  foldr insert_by_time [] rows.

(** The rows before and after the row numbered [i] in its window:
    what [lag] and [lead] read. *)
Fixpoint around (i : nat) (previous : option row) (window : list (nat * row))
    : option row * option row :=
  match window with
  | [] => (None, None)
  | (j, x) :: rest =>
      if Nat.eqb j i then (previous, snd <$> head rest) else around i (Some x) rest
  end.

(** The columns [funnel_clean] copies from [funnel_base]. *)
Definition base_columns : list string :=
  [ "actor_id"; "session_id"; "screen_name"; "screen_entry_time"; "step_stage";
    "current_tier"; "affluence_v11_flag"; "gender"; "income_range"; "app_version";
    "operating_system"; "entry_point" ].

(** The select list of [funnel_clean] at the row numbered [i];
    [timestamp_diff(..., second)] of two timestamps in seconds is their
    difference. *)
Definition clean_row_of (kept : list (nat * row)) (ir : nat * row) : row :=
  let '(i, r) := ir in
  let '(previous, next) :=
    around i None (window_order (filter (λ jx, same_session r jx.2 = true) kept)) in
  let lag := from_option (get "screen_name") VNull previous in
  let lead := from_option (get "screen_entry_time") VNull next in
  map (λ c, (c, get c r)) base_columns
  ++ [ ("previous_screen_name", lag);
       ("screen_success_time", lead);
       ("is_conversion_session", if bool_decide (lead = VNull) then VInt 0 else VInt 1);
       ("time_to_convert",
        match lead, get "screen_entry_time" r with
        | VTs b, VTs a => VInt (b - a)
        | _, _ => VNull
        end) ].

(** [qualify row_number() over (partition by actor_id, session_id,
    screen_name, step_stage order by step_stage desc, screen_entry_time
    desc) = 1]: of the rows of one partition, the one entered last (a null
    entry time comes last); among rows that tie, the one met first in the
    table (the engine may keep any of them). *)
Definition dedup_key (r : row) : value * value * value * value :=
  (get "actor_id" r, get "session_id" r, get "screen_name" r, get "step_stage" r).

Definition precedes (r x : row) : bool :=
  match get "screen_entry_time" r, get "screen_entry_time" x with
  | VTs a, VTs b => b <? a
  | VTs _, _ => true
  | _, _ => false
  end.

Definition same_partition (r x : row) : bool :=
  bool_decide (dedup_key r = dedup_key x).

Definition is_first (before : list row) (r : row) (after : list row) : bool :=
  forallb (λ x, negb (same_partition x r) || precedes r x) before
  && forallb (λ x, negb (same_partition x r) || negb (precedes x r)) after.

Fixpoint qualify_first (before rows : list row) : list row :=
  match rows with
  | [] => []
  | r :: after =>
      if is_first before r after
      then r :: qualify_first (before ++ [r]) after
      else qualify_first (before ++ [r]) after
  end.

(** [funnel_clean], over the rows of [funnel_base]: the [where] first, then
    the window columns, then the [qualify]. *)
Definition funnel_clean (funnel_base : list row) : list row :=
  let kept := imap pair (filter (λ r, get "step_stage" r ≠ VNull) funnel_base) in
  qualify_first [] (map (clean_row_of kept) kept).


(** [funnel_completed], over the rows of [funnel_clean]: the [union all]
    of one select per step. *)
Definition funnel_completed (clk : clock) (filtered_steps : list Step)
    (funnel_clean : list row) : list row :=
  concat (imap (λ i st, select clk (completion_items filtered_steps i st)
                               (completion_where st) funnel_clean)
               filtered_steps).

(** The table [STANDARD_FUNNEL].  The [order by] of the final select is
    left out: the rows of the created table form a bag. *)
Definition standard_funnel_table (clk : clock) (filtered_steps : list Step)
    (funnel_clean : list row) : list row :=
  select clk final_items [] (funnel_completed clk filtered_steps funnel_clean).

(** *** [generate_percentiles_sql] *)

(** The screen names written into the statement, with their order. *)
Definition percentile_steps : list (string * Z) :=
  [ ("Tiering - Overview screen", 1);
    ("Tiering - Add money to Fi", 2);
    ("Add funds - Enter amount", 3);
    ("Add funds - Payment options", 4);
    ("Add funds - Payment success", 5);
    ("Tiering - Upgrade screen", 6) ].

Definition named (name : string) : cond := Eq (Col "screen_name") (StrLit name).

Definition ordered_screen_name_expr : expr :=
  Case (map (λ '(name, n), (named name, StrLit (str_of_int n +:+ " - " +:+ name)))
            percentile_steps)
       (Col "screen_name").

Definition step_order_expr : expr :=
  Case (map (λ '(name, n), (named name, IntLit n)) percentile_steps) (IntLit 999).

Definition percentile_items : list item :=
  [ plain "screen_name";
    aliased ordered_screen_name_expr "ordered_screen_name";
    aliased step_order_expr "step_order";
    plain "percentile_25";
    plain "percentile_50";
    plain "percentile_75" ].

Definition generate_percentiles_sql (config : Config) : result string :=
  let? project := getitem (project_id config) "project_id" in
  let? destination := getitem (destination_dataset config) "destination_dataset" in
  let? table := getitem (percentiles_table_name config) "percentiles_table_name" in
  Ok (lines [
    "";
    "CREATE OR REPLACE TABLE `" +:+ project +:+ "." +:+ destination +:+ "." +:+ table
      +:+ "` AS";
    "WITH";
    "  ordered_events AS (";
    "    SELECT";
    "      actor_id,";
    "      step_stage,";
    "      screen_name,";
    "      screen_entry_time,";
    "      LEAD(screen_entry_time) OVER (";
    "        PARTITION BY actor_id";
    "        ORDER BY screen_entry_time -- Order by time for consecutive events";
    "      ) AS next_screen_entry_time,";
    "      LEAD(step_stage) OVER (";
    "        PARTITION BY actor_id";
    "        ORDER BY screen_entry_time";
    "      ) AS next_step_stage";
    "    FROM";
    "      `" +:+ project +:+ "." +:+ destination +:+ ".STANDARD_FUNNEL`";
    "  ),";
    "  calculated_times AS (";
    "    SELECT";
    "      actor_id,";
    "      step_stage,";
    "      screen_name,";
    "      next_step_stage, -- Keep next_step_stage to understand the transition";
    "      TIMESTAMP_DIFF(next_screen_entry_time, screen_entry_time, SECOND) AS time_to_next_step_seconds";
    "    FROM";
    "      ordered_events";
    "    WHERE";
    "      next_screen_entry_time IS NOT NULL AND TIMESTAMP_DIFF(next_screen_entry_time, screen_entry_time, SECOND) >= 0 -- Ensure non-negative time";
    "  ),";
    "  aggregated_times AS (";
    "    SELECT";
    "      screen_name,";
    "      APPROX_QUANTILES(time_to_next_step_seconds, 100)[OFFSET(25)] AS percentile_25,";
    "      APPROX_QUANTILES(time_to_next_step_seconds, 100)[OFFSET(50)] AS percentile_50,";
    "      APPROX_QUANTILES(time_to_next_step_seconds, 100)[OFFSET(75)] AS percentile_75";
    "    FROM";
    "      calculated_times";
    "    GROUP BY";
    "      screen_name";
    "  )";
    "SELECT";
    "  screen_name,";
    "  CASE ";
    "    WHEN screen_name = 'Tiering - Overview screen' THEN '1 - Tiering - Overview screen'";
    "    WHEN screen_name = 'Tiering - Add money to Fi' THEN '2 - Tiering - Add money to Fi'";
    "    WHEN screen_name = 'Add funds - Enter amount' THEN '3 - Add funds - Enter amount'";
    "    WHEN screen_name = 'Add funds - Payment options' THEN '4 - Add funds - Payment options'";
    "    WHEN screen_name = 'Add funds - Payment success' THEN '5 - Add funds - Payment success'";
    "    WHEN screen_name = 'Tiering - Upgrade screen' THEN '6 - Tiering - Upgrade screen'";
    "    ELSE screen_name";
    "  END AS ordered_screen_name,";
    "  CASE ";
    "    WHEN screen_name = 'Tiering - Overview screen' THEN 1";
    "    WHEN screen_name = 'Tiering - Add money to Fi' THEN 2";
    "    WHEN screen_name = 'Add funds - Enter amount' THEN 3";
    "    WHEN screen_name = 'Add funds - Payment options' THEN 4";
    "    WHEN screen_name = 'Add funds - Payment success' THEN 5";
    "    WHEN screen_name = 'Tiering - Upgrade screen' THEN 6";
    "    ELSE 999";
    "  END AS step_order,";
    "  percentile_25,";
    "  percentile_50,";
    "  percentile_75";
    "FROM";
    "  aggregated_times";
    "ORDER BY";
    "  step_order";
    "" ]).

(** *** [execute_analysis] *)

(** The body of the [try]: validation, the funnel statement, and the
    percentile statement when the configuration asks for it. *)
Definition analysis (wh : Warehouse) (config : Config) : M bool :=
  let* _ := lift (validate_config config) in
  let* sql := generate_standard_funnel_sql wh config in
  let* _ := lift (getitem (funnel_name config) "funnel_name") in
  let* _ := lift (submit wh sql) in
  let* project := lift (getitem (project_id config) "project_id") in
  let* destination := lift (getitem (destination_dataset config) "destination_dataset") in
  match create_percentiles_table config with
  | Some true =>
      let* _ := lift (getitem (percentiles_table_name config) "percentiles_table_name") in
      let* percentiles_sql := lift (generate_percentiles_sql config) in
      let* _ := lift (submit wh percentiles_sql) in
      ret true
  | _ => ret true
  end.

(** [except Exception: return False] *)
Definition execute_analysis (wh : Warehouse) (config : Config) : M bool :=
  λ σ, match analysis wh config σ with
       | (Ok b, σ') => (Ok b, σ')
       | (Raise _, σ') => (Ok false, σ')
       end.

(** *** The configuration embedded in the script *)

(** The step dictionaries of [FUNNEL_CONFIG]. *)
Definition FUNNEL_CONFIG_steps : store :=
  list_to_map
    [ (0%nat, new_step 1 "Tiering - Overview screen" ["LoadedTierOverviewScreen"]);
      (1%nat, new_step 2 "Tiering - Add money to Fi" ["ClickedJoinTierButton"]);
      (2%nat, new_step 3 "Add funds - Enter amount" ["ClickedAddFundsButton"]);
      (3%nat, new_step 4 "Add funds - Payment options" ["ClickedAddFundCtaPO"]);
      (4%nat, new_step 5 "Add funds - Payment success" ["BalanceUpdateEvent"]);
      (5%nat, new_step 6 "Tiering - Upgrade screen" ["UserUpgradedTiering"]) ].

Definition FUNNEL_CONFIG : Config := {|
  funnel_name := Some "Tiering and Add Funds Funnel";
  project_id := Some "common-tech-434709";
  source_dataset := Some "events";
  destination_dataset := Some "sandbox";
  data_source := Some "common-tech-434709.events.events";
  user_id_column := Some "user_id";
  session_id_column := Some "JSON_EXTRACT_SCALAR(properties, '$.session_id')";
  event_column := Some "event";
  timestamp_column := Some "timestamp";
  partition_column := Some "date";
  time_period_days := Some 30;
  steps := Some (StepList [0; 1; 2; 3; 4; 5]%nat);
  filters := Some
    [ "event in ('LoadedTierOverviewScreen', 'ClickedJoinTierButton', 'ClickedAddFundsButton', 'ClickedAddFundCtaPO', 'BalanceUpdateEvent', 'UserUpgradedTiering')" ];
  user_base_table := None;
  user_segmentation_fields := None;
  app_version_extraction := None;
  os_extraction := None;
  entry_point_extraction := None;
  create_percentiles_table := Some true;
  percentiles_table_name := Some "percentiles_by_stage"
|}.

End Standard.

(** ** The final projection of [UnifiedLoansFunnelAnalyzer] *)

Module Unified.
Import Sql.

Definition nulled (c : string) : item := aliased (Scalar Null) c.

(** The select list that closes the statement of
    [generate_standard_funnel_sql] in the unified-loans analyzer. *)
Definition final_items : list item :=
  [ plain "actor_id";
    nulled "current_tier";
    nulled "affluence_v11_flag";
    nulled "gender";
    nulled "income_range";
    plain "session_id";
    nulled "app_version";
    nulled "operating_system";
    nulled "entry_point";
    plain "screen_name";
    plain "screen_entry_time";
    aliased (Scalar (CastString (Col "step_stage"))) "step";
    plain "step_stage";
    plain "previous_screen_name";
    plain "screen_success_time";
    plain "is_conversion_session";
    plain "time_to_convert";
    mkItem (Scalar CurrentTimestamp) (Some "table_created_at")
           (nl +:+ "    -- Add aggregated fields for Tableau");
    aliased (Scalar (CountOver (Col "step_stage"))) "total_users";
    aliased (Scalar (CountOver (IntLit 1))) "total_users_first_step" ].

(** The text as the analyzer writes it, from [select] to the closing
    parenthesis. *)
Definition final_select_text : string :=
  lines [
    "select ";
    "    actor_id,";
    "    null as current_tier,";
    "    null as affluence_v11_flag,";
    "    null as gender,";
    "    null as income_range,";
    "    session_id,";
    "    null as app_version,";
    "    null as operating_system,";
    "    null as entry_point,";
    "    screen_name,";
    "    screen_entry_time,";
    "    cast(step_stage as string) as step,";
    "    step_stage,";
    "    previous_screen_name,";
    "    screen_success_time,";
    "    is_conversion_session,";
    "    time_to_convert,";
    "    current_timestamp() as table_created_at,";
    "    -- Add aggregated fields for Tableau";
    "    COUNT(*) OVER (PARTITION BY step_stage) as total_users,";
    "    COUNT(*) OVER (PARTITION BY 1) as total_users_first_step";
    "from funnel_completed";
    "order by actor_id, session_id, step_stage, screen_entry_time";
    ")";
    "" ].

End Unified.


(** ** [UnifiedLoansFunnelAnalyzer] *)

(** The methods of [unified_loans_activities_funnel_analyzer.py].
    [validate_config] is the one of [StandardFunnelAnalyzer], line for line,
    and so are the two loops of [check_event_availability]; the queries and
    the statements differ. *)
Module Loans.
Import Sql Standard.

(** The client: the statements the engine is able to run, and the rows
    [(event, count)] it returns for a count query, in the order it returns
    them. *)
Record Engine : Type := mkEngine {
  eng_accepts : string → bool;
  eng_counts : string → list (string * Z)
}.

(** [self.client.query(statement)], for its success or failure. *)
Definition run (eng : Engine) (statement : string) : result unit :=
  if eng_accepts eng statement then Ok tt else Raise (EngineError statement).

(** [" AND ".join(config['filters'])] *)
Definition filter_conditions (config : Config) : result string :=
  let? filters := getitem (filters config) "filters" in
  Ok (join " AND " filters).

(** *** [check_event_availability] *)

(** The text of the count query. *)
Definition availability_query (source ts : string) (days : Z) (conditions : string)
    (all_events : list string) : string :=
  lines [
    "";
    "        SELECT ";
    "            ACTIVITY_NAME as event,";
    "            COUNT(*) as count";
    "        FROM `" +:+ source +:+ "`";
    "        WHERE ACTIVITY_NAME in ('" +:+ join "', '" all_events +:+ "')";
    "        AND " +:+ conditions;
    "        AND date(" +:+ ts +:+ ") >= date_sub(current_date(), interval " +:+ str_of_int days
      +:+ " day)";
    "        GROUP BY ACTIVITY_NAME";
    "        ORDER BY count DESC";
    "        " ].

Definition check_event_availability (eng : Engine) (config : Config) : M (list loc) :=
  let* ls := lift (iter_steps config) in
  let* per_step := for_each (λ l, let* st := read l in ret (loaded_events st)) ls in
  let all_events := concat per_step in
  let* conditions := lift (filter_conditions config) in
  let* source := lift (getitem (data_source config) "data_source") in
  let* ts := lift (getitem (timestamp_column config) "timestamp_column") in
  let* days := lift (getitem (time_period_days config) "time_period_days") in
  let query := availability_query source ts days conditions all_events in
  let* _ := lift (run eng query) in
  let available_events := dict_of_rows (eng_counts eng query) in
  let* filtered_steps := filter_loop available_events ls in
  let* _ := rerank_loop 0 filtered_steps in
  ret filtered_steps.

(** *** [generate_standard_funnel_sql]: the text *)

(** The two [when] lines a step contributes to the labeling [case]s. *)
Definition step_case_line (ev : string) (st : Step) : string :=
  "when " +:+ ev +:+ " in ('" +:+ join "', '" (loaded_events st) +:+ "') then "
  +:+ str_of_int (rank st).

Definition screen_name_case_line (ev : string) (st : Step) : string :=
  "when " +:+ ev +:+ " in ('" +:+ join "', '" (loaded_events st) +:+ "') then '"
  +:+ screen_name st +:+ "'".

(** One entry of [funnel_completion_cases]. *)
Definition funnel_completion_case (filtered_steps : list Step) (i : nat) (st : Step)
    : string :=
  let step_num := str_of_int (rank st) in
  let last := str_of_int (Z.of_nat (length filtered_steps)) in
  lines [
    "";
    "        -- Step " +:+ step_num +:+ ": " +:+ screen_name st;
    "        select ";
    "            actor_id,";
    "            actor_id as session_id,";
    "            '" +:+ screen_name st +:+ "' as screen_name,";
    "            case ";
    "                when step_stage = " +:+ step_num +:+ " then screen_entry_time";
    "                else timestamp_sub(screen_entry_time, interval "
      +:+ str_of_int (rank st - 1) +:+ " minute)";
    "            end as screen_entry_time,";
    "            " +:+ step_num +:+ " as step_stage,";
    "            null as current_tier,";
    "            null as affluence_v11_flag,";
    "            null as gender,";
    "            null as income_range,";
    "            null as app_version,";
    "            null as operating_system,";
    "            null as entry_point,";
    "            case ";
    "                when step_stage = " +:+ step_num +:+ " then previous_screen_name";
    "                when " +:+ step_num +:+ " = 1 then null";
    "                else '" +:+ previous_label filtered_steps i +:+ "'";
    "            end as previous_screen_name,";
    "            case ";
    "                when step_stage = " +:+ step_num +:+ " then screen_success_time";
    "                when " +:+ step_num +:+ " = " +:+ last +:+ " then null";
    "                else timestamp_add(screen_entry_time, interval 1 minute)";
    "            end as screen_success_time,";
    "            case ";
    "                when step_stage = " +:+ step_num +:+ " then is_conversion_session";
    "                when " +:+ step_num +:+ " = " +:+ last +:+ " then 0";
    "                else 1";
    "            end as is_conversion_session,";
    "            case ";
    "                when step_stage = " +:+ step_num +:+ " then time_to_convert";
    "                when " +:+ step_num +:+ " = " +:+ last +:+ " then null";
    "                else 60";
    "            end as time_to_convert";
    "        from funnel_clean";
    "        where step_stage >= " +:+ step_num ].

Definition funnel_completion_sql (filtered_steps : list Step) : string :=
  join (nl +:+ "union all" +:+ nl)
       (imap (funnel_completion_case filtered_steps) filtered_steps).

(** The f-string assigned to [sql], its placeholders already evaluated. *)
Definition funnel_text (project destination uid ev ts source conditions : string)
    (days : Z) (filtered_steps : list Step) : string :=
  let step_case := join (nl +:+ "        ") (map (step_case_line ev) filtered_steps) in
  let screen_name_case :=
    join (nl +:+ "        ") (map (screen_name_case_line ev) filtered_steps) in
  lines [
    "";
    "-- Create STANDARD_FUNNEL table with exact schema";
    "-- Using funnel completion logic to fill in missing steps";
    "create or replace table `" +:+ project +:+ "." +:+ destination
      +:+ ".EARLY_SALARY_STANDARD_FUNNEL` as (";
    "with funnel_base as (";
    "    select ";
    "        e." +:+ uid +:+ " as actor_id,";
    "        e." +:+ uid +:+ " as session_id,";
    "        e." +:+ ev +:+ " as event,";
    "        e." +:+ ts +:+ " as screen_entry_time,";
    "        -- Step mapping (only for events that exist)";
    "        case ";
    "        " +:+ step_case;
    "        else null";
    "        end as step_stage,";
    "        case ";
    "        " +:+ screen_name_case;
    "        else e." +:+ ev;
    "        end as screen_name";
    "    from `" +:+ source +:+ "` e";
    "    where " +:+ conditions;
    "    and date(" +:+ ts +:+ ") >= date_sub(current_date(), interval " +:+ str_of_int days
      +:+ " day)";
    "    and e." +:+ uid +:+ " is not null";
    ")";
    ",funnel_clean as (";
    "    select ";
    "        actor_id,";
    "        session_id,";
    "        screen_name,";
    "        screen_entry_time,";
    "        step_stage,";
    "        -- Previous screen name";
    "        lag(screen_name) over (partition by actor_id, session_id order by screen_entry_time) as previous_screen_name,";
    "        -- Next screen entry time";
    "        lead(screen_entry_time) over (partition by actor_id, session_id order by screen_entry_time) as screen_success_time,";
    "        -- Is conversion session (has next step)";
    "        case when lead(screen_entry_time) over (partition by actor_id, session_id order by screen_entry_time) is not null then 1 else 0 end as is_conversion_session,";
    "        -- Time to convert";
    "        case when lead(screen_entry_time) over (partition by actor_id, session_id order by screen_entry_time) is not null ";
    "             then timestamp_diff(lead(screen_entry_time) over (partition by actor_id, session_id order by screen_entry_time), screen_entry_time, second) ";
    "             else null end as time_to_convert";
    "    from funnel_base";
    "    where step_stage is not null";
    "    qualify row_number() over (partition by actor_id, session_id, screen_name, step_stage order by step_stage desc, screen_entry_time desc) = 1";
    ")";
    ",funnel_completed as (";
    "    -- Apply funnel completion logic: if user reaches step N, include them in steps 1 to N-1";
    funnel_completion_sql filtered_steps;
    ")";
    "select ";
    "    actor_id,";
    "    null as current_tier,";
    "    null as affluence_v11_flag,";
    "    null as gender,";
    "    null as income_range,";
    "    session_id,";
    "    null as app_version,";
    "    null as operating_system,";
    "    null as entry_point,";
    "    screen_name,";
    "    screen_entry_time,";
    "    cast(step_stage as string) as step,";
    "    step_stage,";
    "    previous_screen_name,";
    "    screen_success_time,";
    "    is_conversion_session,";
    "    time_to_convert,";
    "    current_timestamp() as table_created_at,";
    "    -- Add aggregated fields for Tableau";
    "    COUNT(*) OVER (PARTITION BY step_stage) as total_users,";
    "    COUNT(*) OVER (PARTITION BY 1) as total_users_first_step";
    "from funnel_completed";
    "order by actor_id, session_id, step_stage, screen_entry_time";
    ")";
    "" ].

(** The statement, for the steps that survived the availability check.  The
    keys are read in the order the method reads them. *)
Definition funnel_sql (config : Config) (filtered_steps : list Step) : result string :=
  let? _ := match filtered_steps with
            | [] => Ok tt
            | _ :: _ => let? _ := getitem (event_column config) "event_column" in Ok tt
            end in
  let? conditions := filter_conditions config in
  let? project := getitem (project_id config) "project_id" in
  let? destination := getitem (destination_dataset config) "destination_dataset" in
  let? uid := getitem (user_id_column config) "user_id_column" in
  let? ev := getitem (event_column config) "event_column" in
  let? ts := getitem (timestamp_column config) "timestamp_column" in
  let? source := getitem (data_source config) "data_source" in
  let? days := getitem (time_period_days config) "time_period_days" in
  Ok (funnel_text project destination uid ev ts source conditions days filtered_steps).

Definition generate_standard_funnel_sql (eng : Engine) (config : Config) : M string :=
  let* filtered_steps := check_event_availability eng config in
  match filtered_steps with
  | [] => raise (ValueError "No steps with available events found. Check your event names.")
  | _ :: _ =>
      let* fs := for_each read filtered_steps in
      lift (funnel_sql config fs)
  end.

(** *** [generate_standard_funnel_sql]: the statement as a syntax tree *)

(** The select list of the branch of [funnel_completed] written for the
    step at position [i]; its [where] is [Standard.completion_where]. *)
Definition completion_items (filtered_steps : list Step) (i : nat) (st : Step)
    : list item :=
  let step_num := rank st in
  let last := Z.of_nat (length filtered_steps) in
  let reached := Eq (Col "step_stage") (IntLit step_num) in
  [ plain "actor_id";
    aliased (Scalar (Col "actor_id")) "session_id";
    aliased (Scalar (StrLit (screen_name st))) "screen_name";
    aliased (Case [ (reached, Col "screen_entry_time") ]
                  (TimestampSub (Col "screen_entry_time") (step_num - 1)))
            "screen_entry_time";
    aliased (Scalar (IntLit step_num)) "step_stage";
    Unified.nulled "current_tier";
    Unified.nulled "affluence_v11_flag";
    Unified.nulled "gender";
    Unified.nulled "income_range";
    Unified.nulled "app_version";
    Unified.nulled "operating_system";
    Unified.nulled "entry_point";
    aliased (Case [ (reached, Col "previous_screen_name");
                    (Eq (IntLit step_num) (IntLit 1), Null) ]
                  (StrLit (previous_label filtered_steps i)))
            "previous_screen_name";
    aliased (Case [ (reached, Col "screen_success_time");
                    (Eq (IntLit step_num) (IntLit last), Null) ]
                  (TimestampAdd (Col "screen_entry_time") 1))
            "screen_success_time";
    aliased (Case [ (reached, Col "is_conversion_session");
                    (Eq (IntLit step_num) (IntLit last), IntLit 0) ]
                  (IntLit 1))
            "is_conversion_session";
    aliased (Case [ (reached, Col "time_to_convert");
                    (Eq (IntLit step_num) (IntLit last), Null) ]
                  (IntLit 60))
            "time_to_convert" ].

(** [funnel_completed], over the rows of [funnel_clean]. *)
Definition funnel_completed (clk : clock) (filtered_steps : list Step)
    (funnel_clean : list row) : list row :=
  concat (imap (λ i st, select clk (completion_items filtered_steps i st)
                               (completion_where st) funnel_clean)
               filtered_steps).

(** The table [EARLY_SALARY_STANDARD_FUNNEL], as a bag of rows. *)
Definition funnel_table (clk : clock) (filtered_steps : list Step)
    (funnel_clean : list row) : list row :=
  select clk Unified.final_items [] (funnel_completed clk filtered_steps funnel_clean).

(** *** [generate_percentiles_sql] *)

(** The screen names written into the statement, with their order. *)
Definition percentile_steps : list (string * Z) :=
  [ ("Offer Generated", 1);
    ("Application Loan Request Created", 2);
    ("Address Step", 3);
    ("Applicant Creation", 4);
    ("KYC Document Download", 5);
    ("CKYC", 6);
    ("Liveness Check", 7);
    ("Risk Check", 8);
    ("AML", 9);
    ("Vendor BRE", 10);
    ("Drawdown", 11);
    ("Penny Drop", 12);
    ("Mandate", 13);
    ("Contactability", 14);
    ("KFS", 15);
    ("VKYC", 16);
    ("Loan Amount Disbursal", 17);
    ("Loan Account Created", 18) ].

Definition ordered_screen_name_expr : expr :=
  Case (map (λ '(name, n), (named name, StrLit (str_of_int n +:+ " - " +:+ name)))
            percentile_steps)
       (Col "screen_name").

Definition step_order_expr : expr :=
  Case (map (λ '(name, n), (named name, IntLit n)) percentile_steps) (IntLit 999).

Definition percentile_items : list item :=
  [ plain "screen_name";
    aliased ordered_screen_name_expr "ordered_screen_name";
    aliased step_order_expr "step_order";
    plain "percentile_25";
    plain "percentile_50";
    plain "percentile_75" ].

Definition generate_percentiles_sql (config : Config) : result string :=
  let? project := getitem (project_id config) "project_id" in
  let? destination := getitem (destination_dataset config) "destination_dataset" in
  let? table := getitem (percentiles_table_name config) "percentiles_table_name" in
  Ok (lines [
    "";
    "CREATE OR REPLACE TABLE `" +:+ project +:+ "." +:+ destination +:+ "." +:+ table
      +:+ "` AS";
    "WITH";
    "  ordered_events AS (";
    "    SELECT";
    "      actor_id,";
    "      step_stage,";
    "      screen_name,";
    "      screen_entry_time,";
    "      LEAD(screen_entry_time) OVER (";
    "        PARTITION BY actor_id";
    "        ORDER BY screen_entry_time -- Order by time for consecutive events";
    "      ) AS next_screen_entry_time,";
    "      LEAD(step_stage) OVER (";
    "        PARTITION BY actor_id";
    "        ORDER BY screen_entry_time";
    "      ) AS next_step_stage";
    "    FROM";
    "      `" +:+ project +:+ "." +:+ destination +:+ ".EARLY_SALARY_STANDARD_FUNNEL`";
    "  ),";
    "  calculated_times AS (";
    "    SELECT";
    "      actor_id,";
    "      step_stage,";
    "      screen_name,";
    "      next_step_stage, -- Keep next_step_stage to understand the transition";
    "      TIMESTAMP_DIFF(next_screen_entry_time, screen_entry_time, SECOND) AS time_to_next_step_seconds";
    "    FROM";
    "      ordered_events";
    "    WHERE";
    "      next_screen_entry_time IS NOT NULL AND TIMESTAMP_DIFF(next_screen_entry_time, screen_entry_time, SECOND) >= 0 -- Ensure non-negative time";
    "  ),";
    "  aggregated_times AS (";
    "    SELECT";
    "      screen_name,";
    "      APPROX_QUANTILES(time_to_next_step_seconds, 100)[OFFSET(25)] AS percentile_25,";
    "      APPROX_QUANTILES(time_to_next_step_seconds, 100)[OFFSET(50)] AS percentile_50,";
    "      APPROX_QUANTILES(time_to_next_step_seconds, 100)[OFFSET(75)] AS percentile_75";
    "    FROM";
    "      calculated_times";
    "    GROUP BY";
    "      screen_name";
    "  )";
    "SELECT";
    "  screen_name,";
    "  CASE ";
    "    WHEN screen_name = 'Offer Generated' THEN '1 - Offer Generated'";
    "    WHEN screen_name = 'Application Loan Request Created' THEN '2 - Application Loan Request Created'";
    "    WHEN screen_name = 'Address Step' THEN '3 - Address Step'";
    "    WHEN screen_name = 'Applicant Creation' THEN '4 - Applicant Creation'";
    "    WHEN screen_name = 'KYC Document Download' THEN '5 - KYC Document Download'";
    "    WHEN screen_name = 'CKYC' THEN '6 - CKYC'";
    "    WHEN screen_name = 'Liveness Check' THEN '7 - Liveness Check'";
    "    WHEN screen_name = 'Risk Check' THEN '8 - Risk Check'";
    "    WHEN screen_name = 'AML' THEN '9 - AML'";
    "    WHEN screen_name = 'Vendor BRE' THEN '10 - Vendor BRE'";
    "    WHEN screen_name = 'Drawdown' THEN '11 - Drawdown'";
    "    WHEN screen_name = 'Penny Drop' THEN '12 - Penny Drop'";
    "    WHEN screen_name = 'Mandate' THEN '13 - Mandate'";
    "    WHEN screen_name = 'Contactability' THEN '14 - Contactability'";
    "    WHEN screen_name = 'KFS' THEN '15 - KFS'";
    "    WHEN screen_name = 'VKYC' THEN '16 - VKYC'";
    "    WHEN screen_name = 'Loan Amount Disbursal' THEN '17 - Loan Amount Disbursal'";
    "    WHEN screen_name = 'Loan Account Created' THEN '18 - Loan Account Created'";
    "    ELSE screen_name";
    "  END AS ordered_screen_name,";
    "  CASE ";
    "    WHEN screen_name = 'Offer Generated' THEN 1";
    "    WHEN screen_name = 'Application Loan Request Created' THEN 2";
    "    WHEN screen_name = 'Address Step' THEN 3";
    "    WHEN screen_name = 'Applicant Creation' THEN 4";
    "    WHEN screen_name = 'KYC Document Download' THEN 5";
    "    WHEN screen_name = 'CKYC' THEN 6";
    "    WHEN screen_name = 'Liveness Check' THEN 7";
    "    WHEN screen_name = 'Risk Check' THEN 8";
    "    WHEN screen_name = 'AML' THEN 9";
    "    WHEN screen_name = 'Vendor BRE' THEN 10";
    "    WHEN screen_name = 'Drawdown' THEN 11";
    "    WHEN screen_name = 'Penny Drop' THEN 12";
    "    WHEN screen_name = 'Mandate' THEN 13";
    "    WHEN screen_name = 'Contactability' THEN 14";
    "    WHEN screen_name = 'KFS' THEN 15";
    "    WHEN screen_name = 'VKYC' THEN 16";
    "    WHEN screen_name = 'Loan Amount Disbursal' THEN 17";
    "    WHEN screen_name = 'Loan Account Created' THEN 18";
    "    ELSE 999";
    "  END AS step_order,";
    "  percentile_25,";
    "  percentile_50,";
    "  percentile_75";
    "FROM";
    "  aggregated_times";
    "ORDER BY";
    "  step_order";
    "" ]).

(** *** [execute_analysis] *)

(** The body of the [try]. *)
Definition analysis (eng : Engine) (config : Config) : M bool :=
  let* _ := lift (validate_config config) in
  let* sql := generate_standard_funnel_sql eng config in
  let* _ := lift (getitem (funnel_name config) "funnel_name") in
  let* _ := lift (run eng sql) in
  let* project := lift (getitem (project_id config) "project_id") in
  let* destination := lift (getitem (destination_dataset config) "destination_dataset") in
  match create_percentiles_table config with
  | Some true =>
      let* _ := lift (getitem (percentiles_table_name config) "percentiles_table_name") in
      let* percentiles_sql := lift (generate_percentiles_sql config) in
      let* _ := lift (run eng percentiles_sql) in
      ret true
  | _ => ret true
  end.

(** [except Exception: return False] *)
Definition execute_analysis (eng : Engine) (config : Config) : M bool :=
  λ σ, match analysis eng config σ with
       | (Ok b, σ') => (Ok b, σ')
       | (Raise _, σ') => (Ok false, σ')
       end.

End Loans.

(** ** The scripts around the analyzers *)

(** [__init__] and [main] of [funnel_analyzer.py]; those of
    [unified_loans_activities_funnel_analyzer.py] read the same. *)
Module Script.
Import Standard.

(** [os.environ] *)
Definition environ : Type := gmap string string.

Definition credentials_variable : string := "GOOGLE_APPLICATION_CREDENTIALS".

(** What [__init__] does to the environment before it builds the client:
    a non-empty [credentials_path] is exported, and without one the
    variable is deleted when it is there. *)
Definition init_environ (credentials_path : option string) (env : environ) : environ :=
  match truthy_str credentials_path with
  | Some path => <[credentials_variable := path]> env
  | None => delete credentials_variable env
  end.

(** The lines [main] prints after a successful run, for the keys they
    read. *)
Definition report (config : Config) : result unit :=
  let? _ := getitem (project_id config) "project_id" in
  let? _ := getitem (destination_dataset config) "destination_dataset" in
  match create_percentiles_table config with
  | Some true =>
      let? _ := getitem (project_id config) "project_id" in
      let? _ := getitem (destination_dataset config) "destination_dataset" in
      let? _ := getitem (percentiles_table_name config) "percentiles_table_name" in
      Ok tt
  | _ => Ok tt
  end.

(** [main], for the exit status of the script.  [client] is the outcome of
    building the analyzer, [config] the configuration embedded in the
    script.  [sys.exit] is not caught by [except Exception]. *)
Definition main (client : result Warehouse) (config : Config) : M Z :=
  match client with
  | Raise _ => ret 1
  | Ok wh =>
      let* success := execute_analysis wh config in
      if success
      then match report config with
           | Ok _ => ret 0
           | Raise _ => ret 1
           end
      else ret 1
  end.

End Script.

Import Sql.
Import Standard.

(** * Vocabulary of the statements, and worked configurations *)

(** What the filtering loop leaves in a surviving step. *)
Definition narrowed (available_events : gmap string Z) (st : Step) : Step :=
  let evs := available_in available_events (loaded_events st) in
  mkStep (rank st) (screen_name st) evs (Some (loaded_events st))
         (Some (sum_counts available_events evs)).

Definition survives (available_events : gmap string Z) (σ : store) (l : loc) : bool :=
  match σ !! l with
  | Some st =>
      match available_in available_events (loaded_events st) with
      | [] => false
      | _ :: _ => true
      end
  | None => false
  end.

Definition allocated (σ : store) (ls : list loc) : Prop :=
  Forall (λ l, is_Some (σ !! l)) ls.

(** The declared events of the step behind a reference. *)
Definition events_at (σ : store) (l : loc) : list string :=
  match σ !! l with Some st => loaded_events st | None => [] end.

Definition all_events (σ : store) (ls : list loc) : list string :=
  concat (map (events_at σ) ls).

(** The number of rows of the data source, inside the lookback window,
    whose [event] is [e]. *)
Definition observed_count (wh : Warehouse) (source partition : string) (days : Z)
    (e : string) : Z :=
  Z.of_nat (length
    (filter (λ r, get "event" r = VStr e
                  ∧ eval_cond (wh_clock wh) [] (SinceDays (Col partition) days) r = true)
            (wh_table wh source))).

(** The dictionary [available_events] that [check_event_availability]
    builds for a configuration. *)
Definition availability (wh : Warehouse) (source partition : string) (days : Z)
    (σ : store) (ls : list loc) : gmap string Z :=
  dict_of_rows (run_availability_query wh source partition days (all_events σ ls)).

(** A step survives exactly when one of its declared events was observed
    in the lookback window. *)
Definition has_observed_event (wh : Warehouse) (source partition : string) (days : Z)
    (σ : store) (l : loc) : Prop :=
  ∃ st e, σ !! l = Some st ∧ e ∈ loaded_events st
          ∧ 0 < observed_count wh source partition days e.

Definition has_observed_event_b (wh : Warehouse) (source partition : string) (days : Z)
    (σ : store) (l : loc) : bool :=
  match σ !! l with
  | Some st =>
      existsb (λ e, 0 <? observed_count wh source partition days e) (loaded_events st)
  | None => false
  end.

Definition ordered_by_original_rank (σ : store) (fs : list loc) : Prop :=
  ∀ i j li lj sti stj, (i < j)%nat →
    fs !! i = Some li → fs !! j = Some lj →
    σ !! li = Some sti → σ !! lj = Some stj → rank sti ≤ rank stj.

Definition example_config (ls : list loc) (days : Z) : Config :=
  mkConfig (Some "Checkout") (Some "proj") (Some "events") (Some "sandbox")
    (Some "proj.events.events") (Some "user_id") (Some "session_id") (Some "event")
    (Some "timestamp") (Some "date") (Some days) (Some (StepList ls))
    (Some []) None None None None None (Some true) (Some "percentiles_by_stage").

Definition source_row (user session event : string) (ts : Z) : row :=
  [ ("user_id", VStr user); ("session_id", VStr session); ("event", VStr event);
    ("timestamp", VTs ts); ("date", VDate (ts / 86400)) ].

(** Day 100 of the epoch, with three events observed on days 90 to 95. *)
Definition example_warehouse : Warehouse :=
  mkWarehouse (mkClock 100 8640000)
    (λ _, [ source_row "u1" "s1" "e1" 7776000;
            source_row "u1" "s1" "e3" 7776600;
            source_row "u2" "s2" "e1" 8208000 ])
    (λ _, true).

(** Two steps listed against their ranks. *)
Definition swapped_store : store :=
  <[0%nat := new_step 2 "B" ["e3"]]> (<[1%nat := new_step 1 "A" ["e1"]]> ∅).

(** Three steps; the events of the second were never observed. *)
Definition gappy_store : store :=
  <[0%nat := new_step 1 "A" ["e1"; "e0"]]>
    (<[1%nat := new_step 2 "B" ["e2"]]>
       (<[2%nat := new_step 3 "C" ["e3"]]> ∅)).

(** Ranks as [check_event_availability] leaves them: 1, 2, ... by position. *)
Definition dense_ranks (fs : list Step) : Prop :=
  map rank fs = map (λ i, Z.of_nat i + 1) (seq 0 (length fs)).

Definition ranks_by_position (fs : list Step) : Prop :=
  ∀ i st, fs !! i = Some st → rank st = Z.of_nat i + 1.

(** The rows of a table that belong to an actor and session at a step. *)
Definition rows_of (tbl : list row) (a s : value) (k : Z) : list row :=
  filter (λ o, get "actor_id" o = a ∧ get "session_id" o = s
               ∧ get "step_stage" o = VInt k) tbl.

(** The canonical rows of an actor and session at step [k] or beyond. *)
Definition reached (funnel_clean : list row) (a s : value) (k : Z) : list row :=
  filter (λ r, get "actor_id" r = a ∧ get "session_id" r = s
               ∧ sql_ge (get "step_stage" r) (VInt k) = true) funnel_clean.

(** The columns of [funnel_clean]. *)
Definition clean_columns : list string :=
  [ "actor_id"; "session_id"; "screen_name"; "screen_entry_time"; "step_stage";
    "current_tier"; "affluence_v11_flag"; "gender"; "income_range"; "app_version";
    "operating_system"; "entry_point"; "previous_screen_name"; "screen_success_time";
    "is_conversion_session"; "time_to_convert" ].

(** What the [qualify] of [funnel_clean] leaves: one row per partition. *)
Definition deduplicated (funnel_clean : list row) : Prop :=
  NoDup (map dedup_key funnel_clean).

(** [funnel_base] labels a row with the rank and the screen name of one
    step, and [funnel_clean] keeps the rows that got a rank. *)
Definition labelled (fs : list Step) (funnel_clean : list row) : Prop :=
  Forall (λ r, Exists (λ st, get "step_stage" r = VInt (rank st)
                             ∧ get "screen_name" r = VStr (screen_name st)) fs)
         funnel_clean.

(** No canonical row of the actor and session lies beyond step [S]. *)
Definition none_beyond (funnel_clean : list row) (a s : value) (S : Z) : Prop :=
  Forall (λ r, get "actor_id" r = a → get "session_id" r = s →
               sql_ge (VInt S) (get "step_stage" r) = true) funnel_clean.

(** ** A three-step funnel and a session that skips the second step *)

Definition three_steps : list Step :=
  [ new_step 1 "A" ["e1"]; new_step 2 "B" ["e2"]; new_step 3 "C" ["e3"] ].

Definition clean_row (actor session name : string) (t k : Z)
    (previous next converted seconds : value) : row :=
  [ ("actor_id", VStr actor); ("session_id", VStr session);
    ("screen_name", VStr name); ("screen_entry_time", VTs t);
    ("step_stage", VInt k); ("current_tier", VNull);
    ("affluence_v11_flag", VNull); ("gender", VNull); ("income_range", VNull);
    ("app_version", VNull); ("operating_system", VNull); ("entry_point", VNull);
    ("previous_screen_name", previous); ("screen_success_time", next);
    ("is_conversion_session", converted); ("time_to_convert", seconds) ].

(** Actor [u1] fires [e1] and, ten minutes later, [e3] in one session. *)
Definition first_row : row :=
  clean_row "u1" "s1" "A" 7776000 1 VNull (VTs 7776600) (VInt 1) (VInt 600).

Definition third_row : row :=
  clean_row "u1" "s1" "C" 7776600 3 (VStr "A") VNull (VInt 0) VNull.

Definition skipping_session : list row := [ first_row; third_row ].

Definition noon : clock := mkClock 100 8640000.

(** The three steps as the caller's dictionaries, and a warehouse that
    holds the session of [u1] and, from another actor, the event of the
    second step. *)
Definition three_store : store :=
  <[0%nat := new_step 1 "A" ["e1"]]>
    (<[1%nat := new_step 2 "B" ["e2"]]> (<[2%nat := new_step 3 "C" ["e3"]]> ∅)).

Definition skipping_warehouse : Warehouse :=
  mkWarehouse noon
    (λ _, [ source_row "u1" "s1" "e1" 7776000;
            source_row "u1" "s1" "e3" 7776600;
            source_row "u2" "s2" "e2" 8208000 ])
    (λ _, true).

(** The order the claim asks of the synthetic timestamps. *)
Definition entered_before (o1 o2 : row) : Prop :=
  ∃ t1 t2, get "screen_entry_time" o1 = VTs t1
           ∧ get "screen_entry_time" o2 = VTs t2 ∧ t1 < t2.

(** The configuration with another value under [filters]. *)
Definition with_filters (fl : option (list string)) (config : Config) : Config :=
  mkConfig (funnel_name config) (project_id config) (source_dataset config)
    (destination_dataset config) (data_source config) (user_id_column config)
    (session_id_column config) (event_column config) (timestamp_column config)
    (partition_column config) (time_period_days config) (steps config)
    fl (user_base_table config) (user_segmentation_fields config)
    (app_version_extraction config) (os_extraction config)
    (entry_point_extraction config) (create_percentiles_table config)
    (percentiles_table_name config).

(** [date(v)] *)
Definition date_of (v : value) : option Z :=
  match v with
  | VTs t => Some (t / 86400)
  | VDate d => Some d
  | _ => None
  end.

(** What the code's [where] asks of a source row. *)
Definition funnel_base_keeps (partition ts sid : string) (days : Z) (fs : list Step)
    (clk : clock) (r : row) : Prop :=
  (∃ e, get "event" r = VStr e ∧ e ∈ concat (map loaded_events fs))
  ∧ (∃ d, get partition r = VDate d ∧ today clk - days ≤ d)
  ∧ (∃ d, date_of (get ts r) = Some d ∧ today clk - days ≤ d)
  ∧ get sid r ≠ VNull.

(** What the specification asks: the configured filters, the event set, the
    partition inside the last [days] days, a session id. *)
Definition spec_funnel_base_keeps (fl : list string) (partition sid : string) (days : Z)
    (fs : list Step) (clk : clock) (r : row) : Prop :=
  Forall (λ f, get f r = VBool true) fl
  ∧ (∃ e, get "event" r = VStr e ∧ e ∈ concat (map loaded_events fs))
  ∧ (∃ d, get partition r = VDate d ∧ today clk - days ≤ d ≤ today clk)
  ∧ get sid r ≠ VNull.

(** A configuration with the filter [is_test = false], and a source row on
    which that filter is false. *)
Definition filtering_config : Config :=
  with_filters (Some ["is_test = false"]) (example_config [0%nat; 1%nat; 2%nat] 30).

Definition test_traffic_row : row :=
  ("is_test = false", VBool false) :: source_row "u9" "s9" "e1" 8208000.

(** Two steps that both declare [e1]. *)
Definition overlapping_store : store :=
  <[0%nat := new_step 1 "A" ["e1"]]> (<[1%nat := new_step 2 "B" ["e1"; "e2"]]> ∅).



(** The columns of [CompiledFunnelRow]. *)
Definition compiled_funnel_row : list string :=
  [ "actor_id"; "current_tier"; "affluence_v11_flag"; "gender"; "income_range";
    "session_id"; "app_version"; "operating_system"; "entry_point"; "screen_name";
    "screen_entry_time"; "step"; "step_stage"; "previous_screen_name";
    "screen_success_time"; "is_conversion_session"; "time_to_convert";
    "table_created_at" ].

Definition quote : ascii := ascii_of_nat 39.

Definition backslash : ascii := ascii_of_nat 92.

(** The body of a string literal of the target dialect, read after its
    opening quote: it ends at the first quote that no backslash escapes. *)
Fixpoint scan_literal (escaped : bool) (s : string) : option (string * string) :=
  match s with
  | EmptyString => None
  | String c s' =>
      if escaped then
        prod_map (String c) id <$> scan_literal false s'
      else if Ascii.eqb c quote then Some (EmptyString, s')
      else prod_map (String c) id <$> scan_literal (Ascii.eqb c backslash) s'
  end.

(** The literal that starts at the head of [s]: its body and what follows. *)
Definition read_string_literal (s : string) : option (string * string) :=
  match s with
  | String c s' => if Ascii.eqb c quote then scan_literal false s' else None
  | EmptyString => None
  end.

(** A funnel of one step, [Checkout], fed by the event [e1]. *)
Definition checkout_steps : list Step := [ new_step 1 "Checkout" ["e1"] ].

(** A warehouse in which every event of [FUNNEL_CONFIG] was observed except
    [ClickedJoinTierButton], the event of its second step. *)
Definition no_join_tier_warehouse : Warehouse :=
  mkWarehouse noon
    (λ _, [ source_row "u1" "s1" "LoadedTierOverviewScreen" 7776000;
            source_row "u1" "s1" "ClickedAddFundsButton" 7776060;
            source_row "u1" "s1" "ClickedAddFundCtaPO" 7776120;
            source_row "u1" "s1" "BalanceUpdateEvent" 7776180;
            source_row "u1" "s1" "UserUpgradedTiering" 7776240 ])
    (λ _, true).

(** A store with the apostrophe step, and a warehouse that observed its
    events. *)
Definition apostrophe_store : store :=
  <[0%nat := new_step 1 "Women's wear" ["view_womens"; "open_womens"]]> ∅.

Definition apostrophe_warehouse : Warehouse :=
  mkWarehouse noon
    (λ _, [ source_row "u1" "s1" "view_womens" 7776000;
            source_row "u1" "s1" "open_womens" 7776060 ])
    (λ _, true).

(** A configuration without [data_source], without [event_column], and
    whose [steps] is not a list. *)
Definition incomplete_config : Config :=
  mkConfig (Some "Checkout") (Some "proj") (Some "events") (Some "sandbox")
    None (Some "user_id") (Some "session_id") None
    (Some "timestamp") (Some "date") (Some 30) (Some NotAList)
    (Some []) None None None None None (Some true) (Some "percentiles_by_stage").

(** The part of the [try] body after the funnel statement was generated. *)
Definition after_funnel (wh : Warehouse) (config : Config) (sql : string) : result bool :=
  let? _ := getitem (funnel_name config) "funnel_name" in
  let? _ := submit wh sql in
  let? _ := getitem (project_id config) "project_id" in
  let? _ := getitem (destination_dataset config) "destination_dataset" in
  match create_percentiles_table config with
  | Some true =>
      let? _ := getitem (percentiles_table_name config) "percentiles_table_name" in
      let? percentiles_sql := generate_percentiles_sql config in
      let? _ := submit wh percentiles_sql in
      Ok true
  | _ => Ok true
  end.

(** The worked configuration with [create_percentiles_table] set and no
    [percentiles_table_name]. *)
Definition unnamed_percentiles_config : Config :=
  mkConfig (Some "Checkout") (Some "proj") (Some "events") (Some "sandbox")
    (Some "proj.events.events") (Some "user_id") (Some "session_id") (Some "event")
    (Some "timestamp") (Some "date") (Some 30) (Some (StepList [0%nat; 1%nat; 2%nat]))
    (Some []) None None None None None (Some true) None.

(** A warehouse that rejects every statement. *)
Definition refusing_warehouse : Warehouse :=
  mkWarehouse noon (wh_table skipping_warehouse) (λ _, false).

(** A warehouse that holds no event at all. *)
Definition empty_warehouse : Warehouse := mkWarehouse noon (λ _, []) (λ _, true).

(** The declared events that were observed, and their total count. *)
Definition observed_events (wh : Warehouse) (source partition : string) (days : Z)
    (evs : list string) : list string :=
  filter (λ e, 0 < observed_count wh source partition days e) evs.

Definition total_observed (wh : Warehouse) (source partition : string) (days : Z)
    (evs : list string) : Z :=
  foldr Z.add 0 (map (observed_count wh source partition days) evs).

(** The columns a branch of [funnel_completed] copies as they are. *)
Definition carried_columns : list string :=
  [ "actor_id"; "session_id"; "current_tier"; "affluence_v11_flag"; "gender";
    "income_range"; "app_version"; "operating_system"; "entry_point" ].

(** The rows of a table at a step, and the canonical rows at a step or
    beyond. *)
Definition at_step (tbl : list row) (k : Z) : list row :=
  filter (λ o, get "step_stage" o = VInt k) tbl.

Definition beyond (funnel_clean : list row) (k : Z) : list row :=
  filter (λ r, sql_ge (get "step_stage" r) (VInt k) = true) funnel_clean.

(** The step a canonical row stands at. *)
Definition stage_of (r : row) : Z :=
  match get "step_stage" r with VInt k => k | _ => 0 end.

(** Two rows of a window in the order the window lists them. *)
Definition in_window_order (x y : nat * row) : Prop := earlier y.2 x.2 = false.

(** The step number the statement writes next to a screen name. *)
Fixpoint order_of (name : string) (steps : list (string * Z)) : option Z :=
  match steps with
  | [] => None
  | (known, n) :: rest => if String.eqb name known then Some n else order_of name rest
  end.

(** An engine that runs every statement and returns no row. *)
Definition silent_engine : Loans.Engine := Loans.mkEngine (λ _, true) (λ _, []).

(** The events among the rows the engine returned. *)
Definition returned_events (rows : list (string * Z)) (evs : list string) : list string :=
  filter (λ e, e ∈ rows.*1) evs.

Definition has_returned_event (rows : list (string * Z)) (σ : store) (l : loc) : bool :=
  match σ !! l with
  | Some st => bool_decide (returned_events rows (loaded_events st) ≠ [])
  | None => false
  end.

(** An engine that found the events of the first and the third step, the
    first in two rows. *)
Definition partial_engine : Loans.Engine :=
  Loans.mkEngine (λ _, true) (λ _, [ ("e3", 7); ("e1", 2); ("e1", 5) ]).

(** Two canonical rows of one actor, at steps 1 and 3, with the actor as
    session. *)
Definition loans_rows : list row :=
  [ clean_row "u1" "u1" "A" 7776000 1 VNull (VTs 7776600) (VInt 1) (VInt 600);
    clean_row "u1" "u1" "C" 7776600 3 (VStr "A") VNull (VInt 0) VNull ].

(** Two steps that the statement cannot tell apart. *)
Definition same_in_statement (st st' : Step) : Prop :=
  rank st = rank st' ∧ screen_name st = screen_name st'
  ∧ loaded_events st = loaded_events st'.

(** * Lemmas and theorems *)

Lemma filter_ext_elem {A} (P Q : A → Prop) `{!∀ x, Decision (P x)}
    `{!∀ x, Decision (Q x)} (l : list A) :
  (∀ x, x ∈ l → P x ↔ Q x) → filter P l = filter Q l.
Proof.
  induction l as [|x l IH]; intros Hext; [done|].
  rewrite !filter_cons.
  rewrite IH by (intros y Hy; apply Hext; by right).
  destruct (decide (P x)) as [HP|HP], (decide (Q x)) as [HQ|HQ]; try done.
  - apply Hext in HP; [done|by left].
  - apply Hext in HQ; [done|by left].
Qed.

Lemma bind_ok {A B} (m : M A) (k : A → M B) σ a σ' :
  m σ = (Ok a, σ') → bind m k σ = k a σ'.
Proof. intros H. unfold bind. by rewrite H. Qed.

Lemma read_ok σ l st : σ !! l = Some st → read l σ = (Ok st, σ).
Proof. intros H. unfold read. by rewrite H. Qed.

Lemma modify_ok σ l st f :
  σ !! l = Some st → modify l f σ = (Ok tt, <[l := f st]> σ).
Proof. intros H. unfold modify. by rewrite (bind_ok _ _ _ _ _ (read_ok _ _ _ H)). Qed.

Lemma allocated_insert σ ls l st :
  allocated σ ls → allocated (<[l := st]> σ) ls.
Proof.
  unfold allocated. intros H0. eapply Forall_impl; [exact H0|]. intros l' [st' H]. simpl.
  destruct (decide (l = l')) as [->|Hne].
  - rewrite lookup_insert_eq. eauto.
  - rewrite lookup_insert_ne; eauto.
Qed.

Lemma filter_loop_spec available_events ls :
  ∀ σ, NoDup ls → allocated σ ls →
  ∃ σ', filter_loop available_events ls σ
        = (Ok (filter (λ l, survives available_events σ l = true) ls), σ')
      ∧ ∀ l, σ' !! l =
             if decide (l ∈ ls ∧ survives available_events σ l = true)
             then narrowed available_events <$> σ !! l
             else σ !! l.
Proof.
  induction ls as [|l ls IH]; intros σ Hnd Hal.
  - exists σ. split; [done|]. intros l. case_decide as H; [|done].
    destruct H as [H _]. by apply elem_of_nil in H.
  - apply NoDup_cons in Hnd as [Hnotin Hnd].
    apply Forall_cons in Hal as [[st Hst] Hal].
    assert (Hsame : ∀ σ1 st1, ∀ l', l' ∈ ls →
              survives available_events (<[l := st1]> σ1) l' = survives available_events σ1 l').
    { intros σ1 st1 l' Hin. unfold survives. rewrite lookup_insert_ne; [done|].
      intros ->. done. }
    simpl filter_loop. rewrite (bind_ok _ _ _ _ _ (read_ok _ _ _ Hst)).
    destruct (available_in available_events (loaded_events st)) as [|e evs] eqn:Hav.
    + destruct (IH σ Hnd Hal) as (σ' & Hrun & Hσ').
      exists σ'. split.
      * rewrite Hrun. f_equal. f_equal. rewrite filter_cons.
        rewrite decide_False; [done|]. unfold survives. rewrite Hst, Hav. done.
      * intros l'. rewrite Hσ'.
        destruct (decide (l' = l)) as [->|Hne].
        -- rewrite decide_False by (intros [? _]; done).
           rewrite decide_False; [done|]. intros [_ H]. unfold survives in H.
           rewrite Hst, Hav in H. done.
        -- apply decide_ext. rewrite elem_of_cons. naive_solver.
    + rewrite (bind_ok _ _ _ _ _ (modify_ok _ _ _ _ Hst)).
      rewrite (bind_ok _ _ _ _ _ (modify_ok _ _ _ _ (lookup_insert_eq _ _ _))).
      rewrite (bind_ok _ _ _ _ _ (modify_ok _ _ _ _ (lookup_insert_eq _ _ _))).
      rewrite !insert_insert_eq.
      set (st' := set_event_count _ _).
      assert (Hst' : st' = narrowed available_events st).
      { unfold st', narrowed. rewrite Hav. done. }
      destruct (IH (<[l := st']> σ) Hnd (allocated_insert _ _ _ _ Hal)) as (σ' & Hrun & Hσ').
      exists σ'. split.
      * rewrite (bind_ok _ _ _ _ _ Hrun). unfold ret. f_equal. f_equal.
        rewrite filter_cons. rewrite decide_True.
        2:{ unfold survives. rewrite Hst, Hav. done. }
        f_equal. apply filter_ext_elem. intros l' Hin.
        by rewrite Hsame.
      * intros l'. rewrite Hσ'.
        destruct (decide (l' = l)) as [->|Hne].
        -- rewrite decide_False by (intros [? _]; done).
           rewrite decide_True.
           2:{ split; [left|]. unfold survives. rewrite Hst, Hav. done. }
           rewrite lookup_insert_eq, Hst, Hst'. done.
        -- rewrite lookup_insert_ne by done.
           apply decide_ext. rewrite elem_of_cons.
           split.
           ++ intros [Hin Hs]. rewrite Hsame in Hs by done. auto.
           ++ intros [[?|Hin] Hs]; [done|]. rewrite Hsame by done. auto.
Qed.

Lemma rerank_loop_spec fs :
  ∀ i σ, NoDup fs → allocated σ fs →
  ∃ σ', rerank_loop i fs σ = (Ok tt, σ')
      ∧ (∀ j l, fs !! j = Some l →
           σ' !! l = set_rank (Z.of_nat (i + j) + 1) <$> σ !! l)
      ∧ (∀ l, l ∉ fs → σ' !! l = σ !! l).
Proof.
  induction fs as [|l fs IH]; intros i σ Hnd Hal.
  - exists σ. split; [done|]. split; [|done]. intros j l Hj. done.
  - apply NoDup_cons in Hnd as [Hnotin Hnd].
    apply Forall_cons in Hal as [[st Hst] Hal].
    simpl rerank_loop. rewrite (bind_ok _ _ _ _ _ (modify_ok _ _ _ _ Hst)).
    destruct (IH (S i) _ Hnd (allocated_insert _ _ l (set_rank (Z.of_nat i + 1) st) Hal))
      as (σ' & Hrun & Hin & Hout).
    exists σ'. split; [done|]. split.
    + intros [|j] l' Hj; simpl in Hj.
      * injection Hj as <-. rewrite Hout by done.
        rewrite lookup_insert_eq, Hst. simpl. do 3 f_equal. lia.
      * rewrite (Hin _ _ Hj). rewrite lookup_insert_ne.
        -- do 2 f_equal. lia.
        -- intros ->. apply Hnotin. by eapply list_elem_of_lookup_2.
    + intros l' Hl'. apply not_elem_of_cons in Hl' as [Hne Hl'].
      rewrite Hout by done. by rewrite lookup_insert_ne.
Qed.

Lemma collect_events_spec ls :
  ∀ σ, allocated σ ls →
  for_each (λ l, let* st := read l in ret (loaded_events st)) ls σ
  = (Ok (map (events_at σ) ls), σ).
Proof.
  induction ls as [|l ls IH]; intros σ Hal; [done|].
  apply Forall_cons in Hal as [[st Hst] Hal].
  simpl for_each.
  erewrite bind_ok; last first.
  { erewrite bind_ok by (by apply read_ok). done. }
  rewrite (bind_ok _ _ _ _ _ (IH σ Hal)).
  unfold ret, events_at. simpl. by rewrite Hst.
Qed.

Lemma dict_of_keys_lookup (g : string → Z) (ks : list string) (e : string) :
  ∀ d : gmap string Z,
  foldl (λ d row, <[row.1 := row.2]> d) d (map (λ k, (k, g k)) ks) !! e
  = if decide (e ∈ ks) then Some (g e) else d !! e.
Proof.
  induction ks as [|k ks IH]; intros d.
  - simpl. destruct (decide (e ∈ [])) as [H|H]; [by apply elem_of_nil in H|done].
  - simpl foldl. simpl map. cbn [foldl]. rewrite IH. simpl. destruct (decide (e ∈ ks)) as [Hin|Hnin].
    + rewrite decide_True; [done|by right].
    + destruct (decide (e = k)) as [->|Hne].
      * rewrite decide_True by left. by rewrite lookup_insert_eq.
      * rewrite decide_False by (rewrite elem_of_cons; naive_solver).
        by rewrite lookup_insert_ne.
Qed.

Lemma length_filter_map {A B} (f : A → B) (P : B → Prop) `{!∀ x, Decision (P x)}
    (l : list A) :
  length (filter P (map f l)) = length (filter (λ x, P (f x)) l).
Proof.
  induction l as [|x l IH]; [done|]. simpl. rewrite !filter_cons.
  destruct (decide (P (f x))); simpl; by rewrite IH.
Qed.

Lemma length_filter_filter {A} (P Q : A → Prop) `{!∀ x, Decision (P x)}
    `{!∀ x, Decision (Q x)} (l : list A) :
  length (filter P (filter Q l)) = length (filter (λ x, P x ∧ Q x) l).
Proof.
  induction l as [|x l IH]; [done|]. rewrite !filter_cons.
  destruct (decide (Q x)); [rewrite filter_cons|];
    destruct (decide (P x)); simpl; rewrite ?IH;
    destruct (decide (P x ∧ Q x)) as [[??]|?]; naive_solver.
Qed.

Lemma length_filter_ext {A} (P Q : A → Prop) `{!∀ x, Decision (P x)}
    `{!∀ x, Decision (Q x)} (l : list A) :
  (∀ x, P x ↔ Q x) → length (filter P l) = length (filter Q l).
Proof. intros Hext. by rewrite (list_filter_iff P Q l Hext). Qed.

Lemma length_filter_pos {A} (P : A → Prop) `{!∀ x, Decision (P x)} (l : list A) :
  (0 < length (filter P l))%nat ↔ ∃ x, x ∈ l ∧ P x.
Proof.
  split.
  - intros Hpos. destruct (filter P l) as [|x l'] eqn:E; [simpl in Hpos; lia|].
    exists x. assert (x ∈ filter P l) as Hx by (rewrite E; left).
    apply list_elem_of_filter in Hx. tauto.
  - intros (x & Hin & HP).
    assert (x ∈ filter P l) as Hx by (by apply list_elem_of_filter).
    destruct (filter P l); [by apply elem_of_nil in Hx|simpl; lia].
Qed.

Lemma available_lookup wh source partition days evs e :
  e ∈ evs →
  dict_of_rows (run_availability_query wh source partition days evs) !! e
  = if decide (observed_count wh source partition days e = 0) then None
    else Some (observed_count wh source partition days e).
Proof.
  intros Hin. unfold dict_of_rows, run_availability_query, group_count.
  rewrite dict_of_keys_lookup. rewrite lookup_empty.
  set (kept := filter _ (wh_table wh source)).
  assert (Hcount : Z.of_nat (length (filter (λ k', k' = e) (map event_of kept)))
                   = observed_count wh source partition days e).
  { unfold observed_count, kept. f_equal.
    rewrite length_filter_map, length_filter_filter.
    apply length_filter_ext. intros r. unfold holds_all, availability_where.
    simpl forallb. unfold event_of.
    cbn [eval_cond eval_scalar]. rewrite andb_true_r.
    destruct (get "event" r) as [| |x| | |] eqn:Hev; simpl;
      try (split; intros [? ?]; done).
    rewrite andb_true_iff, bool_decide_eq_true.
    split.
    - intros [-> [_ Hd]]. done.
    - intros [[= ->] Hd]. done. }
  rewrite Hcount.
  destruct (decide (e ∈ remove_dups (map event_of kept))) as [Hk|Hk].
  - rewrite decide_False; [done|]. rewrite <- Hcount.
    rewrite elem_of_remove_dups in Hk.
    assert (0 < length (filter (λ k', k' = e) (map event_of kept)))%nat; [|lia].
    apply length_filter_pos. exists e. split; [exact Hk|reflexivity].
  - rewrite decide_True; [done|]. rewrite <- Hcount.
    destruct (filter (λ k', k' = e) (map event_of kept)) as [|x l'] eqn:E; [done|].
    exfalso. apply Hk. rewrite elem_of_remove_dups.
    assert (x ∈ filter (λ k', k' = e) (map event_of kept)) as Hx by (rewrite E; left).
    apply list_elem_of_filter in Hx as [-> Hx]. done.
Qed.

Lemma check_event_availability_spec wh config σ ls source partition days :
  steps config = Some (StepList ls) →
  data_source config = Some source →
  partition_column config = Some partition →
  time_period_days config = Some days →
  NoDup ls → allocated σ ls →
  wh_accepts wh (availability_query source partition days (all_events σ ls)) = true →
  let available_events := availability wh source partition days σ ls in
  let fs := filter (λ l, survives available_events σ l = true) ls in
  ∃ σ', check_event_availability wh config σ = (Ok fs, σ')
      ∧ (∀ i l st, fs !! i = Some l → σ !! l = Some st →
           σ' !! l = Some (set_rank (Z.of_nat i + 1) (narrowed available_events st)))
      ∧ (∀ l, l ∉ fs → σ' !! l = σ !! l).
Proof.
  intros Hsteps Hsrc Hpart Hdays Hnd Hal Hacc available_events fs.
  destruct (filter_loop_spec available_events ls σ Hnd Hal) as (σ1 & Hrun1 & Hσ1).
  fold fs in Hrun1.
  assert (Hfs_in : ∀ l, l ∈ fs ↔ l ∈ ls ∧ survives available_events σ l = true).
  { intros l. unfold fs. rewrite list_elem_of_filter. tauto. }
  assert (Hnd' : NoDup fs) by (by apply NoDup_filter).
  assert (Hal' : allocated σ1 fs).
  { apply Forall_forall. intros l Hl. rewrite Hσ1.
    apply Hfs_in in Hl as Hl'. rewrite decide_True by done.
    destruct Hl' as [Hl' _]. unfold allocated in Hal.
    rewrite Forall_forall in Hal. destruct (Hal l Hl') as [st ->]. by eexists. }
  destruct (rerank_loop_spec fs 0%nat σ1 Hnd' Hal') as (σ' & Hrun2 & Hin & Hout).
  exists σ'. split; [|split].
  - unfold check_event_availability, iter_steps, lift.
    rewrite Hsteps, Hsrc, Hpart, Hdays. simpl.
    unfold bind at 1. simpl.
    rewrite (bind_ok _ _ _ _ _ (collect_events_spec ls σ Hal)).
    unfold bind at 1. simpl. unfold bind at 1. simpl. unfold bind at 1. simpl.
    fold (all_events σ ls). unfold submit. rewrite Hacc.
    unfold bind at 1. simpl.
    fold (availability wh source partition days σ ls).
    fold available_events.
    rewrite (bind_ok _ _ _ _ _ Hrun1). rewrite (bind_ok _ _ _ _ _ Hrun2). done.
  - intros i l st Hi Hst. rewrite (Hin _ _ Hi). rewrite Hσ1.
    rewrite decide_True by (apply Hfs_in; by eapply list_elem_of_lookup_2).
    rewrite Hst. simpl. done.
  - intros l Hl. rewrite Hout by done. rewrite Hσ1.
    rewrite decide_False; [done|]. by rewrite <- Hfs_in.
Qed.

Lemma elem_of_all_events σ ls l st e :
  l ∈ ls → σ !! l = Some st → e ∈ loaded_events st → e ∈ all_events σ ls.
Proof.
  intros Hl Hst He. unfold all_events.
  apply list_elem_of_In, in_concat. exists (loaded_events st).
  split; [|by apply list_elem_of_In].
  apply in_map_iff. exists l. split; [|by apply list_elem_of_In].
  unfold events_at. by rewrite Hst.
Qed.

Lemma observed_count_nonneg wh source partition days e :
  0 ≤ observed_count wh source partition days e.
Proof. unfold observed_count. lia. Qed.

Lemma survives_iff wh source partition days σ ls l :
  l ∈ ls →
  survives (availability wh source partition days σ ls) σ l = true
  ↔ has_observed_event wh source partition days σ l.
Proof.
  intros Hl. unfold survives, has_observed_event.
  destruct (σ !! l) as [st|] eqn:Hst; [|naive_solver].
  assert (Hav : ∀ e, e ∈ available_in (availability wh source partition days σ ls)
                            (loaded_events st)
                 ↔ e ∈ loaded_events st ∧ 0 < observed_count wh source partition days e).
  { intros e. unfold available_in. rewrite list_elem_of_filter.
    split.
    - intros [Hsome He]. split; [done|]. unfold availability in Hsome.
      rewrite (available_lookup _ _ _ _ _ _ (elem_of_all_events _ _ _ _ _ Hl Hst He)) in Hsome.
      pose proof (observed_count_nonneg wh source partition days e).
      case_decide; [by destruct Hsome|lia].
    - intros [He Hpos]. split; [|done]. unfold availability.
      rewrite (available_lookup _ _ _ _ _ _ (elem_of_all_events _ _ _ _ _ Hl Hst He)).
      rewrite decide_False by lia. by eexists. }
  destruct (available_in _ (loaded_events st)) as [|e evs] eqn:E.
  - split; [done|]. intros (st' & e & [= <-] & He & Hpos).
    assert (e ∈ []) as Hnil by (apply Hav; done). by apply elem_of_nil in Hnil.
  - split; [|done]. intros _. exists st, e. split; [done|]. apply Hav. left.
Qed.

Lemma survives_observed wh source partition days σ ls l :
  l ∈ ls →
  survives (availability wh source partition days σ ls) σ l
  = has_observed_event_b wh source partition days σ l.
Proof.
  intros Hl. apply eq_true_iff_eq. rewrite (survives_iff _ _ _ _ _ _ _ Hl).
  unfold has_observed_event, has_observed_event_b.
  destruct (σ !! l) as [st|]; [|naive_solver].
  rewrite existsb_exists. split.
  - intros (st' & e & [= <-] & He & Hpos). exists e.
    split; [by apply list_elem_of_In|]. by apply Z.ltb_lt.
  - intros (e & He & Hpos). exists st, e. split; [done|].
    split; [by apply list_elem_of_In|]. by apply Z.ltb_lt.
Qed.

(** C4 (amended): availability filtering returns exactly the steps that have
    at least one declared event with a positive observed count, in the
    order of [config['steps']] (array position; the original rank values are
    not consulted), and renumbers their ranks to 1..K by position. *)
Theorem C4_filter_keeps_observed_steps_in_array_order
    wh config σ ls source partition days :
  steps config = Some (StepList ls) →
  data_source config = Some source →
  partition_column config = Some partition →
  time_period_days config = Some days →
  NoDup ls → allocated σ ls →
  wh_accepts wh (availability_query source partition days (all_events σ ls)) = true →
  ∃ fs σ', check_event_availability wh config σ = (Ok fs, σ')
    ∧ fs = filter (λ l, has_observed_event_b wh source partition days σ l = true) ls
    ∧ ∀ i l, fs !! i = Some l → rank <$> σ' !! l = Some (Z.of_nat i + 1).
Proof.
  intros Hsteps Hsrc Hpart Hdays Hnd Hal Hacc.
  destruct (check_event_availability_spec wh _ _ _ _ _ _ Hsteps Hsrc Hpart Hdays Hnd Hal
              Hacc)
    as (σ' & Hrun & Hin & _).
  eexists _, σ'. split; [exact Hrun|]. split.
  - apply filter_ext_elem. intros l Hl. by rewrite (survives_observed _ _ _ _ _ _ _ Hl).
  - intros i l Hi.
    assert (l ∈ ls) as Hl.
    { apply list_elem_of_lookup_2 in Hi. apply list_elem_of_filter in Hi. tauto. }
    unfold allocated in Hal. rewrite Forall_forall in Hal.
    destruct (Hal l Hl) as [st Hst]. by rewrite (Hin _ _ _ Hi Hst).
Qed.

Lemma C4_filter_witness :
  ∃ fs σ', check_event_availability example_warehouse
             (example_config [0%nat; 1%nat; 2%nat] 30) gappy_store = (Ok fs, σ')
    ∧ fs = filter (λ l, has_observed_event_b example_warehouse "proj.events.events"
                          "date" 30 gappy_store l = true) [0%nat; 1%nat; 2%nat]
    ∧ ∀ i l, fs !! i = Some l → rank <$> σ' !! l = Some (Z.of_nat i + 1).
Proof.
  apply (C4_filter_keeps_observed_steps_in_array_order example_warehouse
           (example_config [0%nat; 1%nat; 2%nat] 30) gappy_store
           [0%nat; 1%nat; 2%nat] "proj.events.events" "date" 30);
    try reflexivity.
  - refine (bool_decide_unpack _ _). vm_compute. exact I.
  - refine (bool_decide_unpack _ _). vm_compute. exact I.
Defined.

Lemma C4_order_counterexample :
  ∃ fs σ', check_event_availability example_warehouse
             (example_config [0%nat; 1%nat] 30) swapped_store = (Ok fs, σ')
    ∧ ¬ ordered_by_original_rank swapped_store fs.
Proof.
  eexists _, _. split; [vm_compute; reflexivity|].
  intros H. specialize (H 0%nat 1%nat 0%nat 1%nat (new_step 2 "B" ["e3"])
                          (new_step 1 "A" ["e1"])).
  simpl in H. assert (2 ≤ 1); [|lia].
  apply H; [lia|reflexivity..].
Qed.

Lemma append_assoc (a b c : string) : (a +:+ b) +:+ c = a +:+ (b +:+ c).
Proof.
  induction a as [|x a IH]; [done|].
  change (String x ((a +:+ b) +:+ c) = String x (a +:+ b +:+ c)). by f_equal.
Qed.

Lemma append_nil_r (a : string) : a +:+ "" = a.
Proof.
  induction a as [|x a IH]; [done|].
  change (String x (a +:+ "") = String x a). by f_equal.
Qed.

Ltac text_eq :=
  repeat (unfold lines, join, render_select, render_where, render_items,
            render_item, render_expr, render_arms, render_when, render_cond,
            render_scalar, kw, plain, aliased; cbn [String.concat map it_expr it_alias it_trailer fst snd]);
  repeat rewrite append_assoc; try reflexivity.

Lemma final_select_rendered :
  render_items Lower "    " "    " final_items
  = lines [
      "    actor_id,";
      "    current_tier,";
      "    affluence_v11_flag,";
      "    gender,";
      "    income_range,";
      "    session_id,";
      "    app_version,";
      "    operating_system,";
      "    entry_point,";
      "    screen_name,";
      "    screen_entry_time,";
      "    cast(step_stage as string) as step,";
      "    step_stage,";
      "    previous_screen_name,";
      "    screen_success_time,";
      "    is_conversion_session,";
      "    time_to_convert,";
      "    current_timestamp() as table_created_at" ].
Proof. reflexivity. Qed.

Lemma completion_case_rendered fs i st :
  funnel_completion_case fs i st
  = nl +:+ "        -- Step " +:+ str_of_int (rank st) +:+ ": " +:+ screen_name st +:+ nl
    +:+ render_select Lower "                " "        " "            "
          (completion_items fs i st) "funnel_clean" (completion_where st).
Proof.
  unfold funnel_completion_case, completion_items, completion_where.
  text_eq.
Qed.

Lemma funnel_base_where_rendered partition ts sid days fs :
  render_where "    " (funnel_base_where partition ts sid days fs)
  = lines [
      "    where " +:+ filter_clause fs;
      "    and " +:+ partition +:+ " >= date_sub(current_date(), interval "
        +:+ str_of_int days +:+ " day)";
      "    and date(e." +:+ ts +:+ ") >= date_sub(current_date(), interval "
        +:+ str_of_int days +:+ " day)";
      "    and " +:+ sid +:+ " is not null" ].
Proof. unfold funnel_base_where, filter_clause. text_eq. Qed.

(** ** Containment *)

Lemma contains_refl s : contains s s.
Proof. exists "", "". by rewrite append_nil_r. Qed.

Lemma contains_trans a b c : contains a b → contains b c → contains a c.
Proof.
  intros (p1 & q1 & ->) (p2 & q2 & ->).
  exists (p1 +:+ p2), (q2 +:+ q1). by rewrite !append_assoc.
Qed.

Lemma contains_app_r a b s : contains b s → contains (a +:+ b) s.
Proof. intros (p & q & ->). exists (a +:+ p), q. by rewrite !append_assoc. Qed.

Lemma contains_app_l a b s : contains a s → contains (a +:+ b) s.
Proof. intros (p & q & ->). exists p, (q +:+ b). by rewrite !append_assoc. Qed.

Lemma contains_middle a s b : contains (a +:+ s +:+ b) s.
Proof. by exists a, b. Qed.

Lemma join_cons sep x y ls :
  join sep (x :: y :: ls) = x +:+ sep +:+ join sep (y :: ls).
Proof. reflexivity. Qed.

Lemma join_prefix sep seg post :
  seg ≠ [] → ∃ rest, join sep (seg ++ post) = join sep seg +:+ rest.
Proof.
  induction seg as [|x seg IH]; intros Hne; [done|].
  destruct seg as [|y seg].
  - destruct post as [|z post].
    + exists "". by rewrite append_nil_r.
    + exists (sep +:+ join sep (z :: post)). reflexivity.
  - destruct IH as [rest Hrest]; [done|].
    exists rest. change ((x :: y :: seg) ++ post) with (x :: (y :: seg) ++ post).
    change ((y :: seg) ++ post) with (y :: seg ++ post) in *.
    rewrite !join_cons, Hrest. by rewrite !append_assoc.
Qed.

Lemma join_suffix sep pre l :
  l ≠ [] → ∃ front, join sep (pre ++ l) = front +:+ join sep l.
Proof.
  intros Hne. induction pre as [|x pre IH].
  - by exists "".
  - destruct IH as [front Hfront].
    destruct (pre ++ l) as [|y rest] eqn:E.
    { destruct pre, l; done. }
    exists (x +:+ sep +:+ front).
    change ((x :: pre) ++ l) with (x :: pre ++ l). rewrite E, join_cons, Hfront.
    by rewrite !append_assoc.
Qed.

Lemma contains_join_segment sep n seg ls :
  seg ≠ [] → take (length seg) (drop n ls) = seg →
  contains (join sep ls) (join sep seg).
Proof.
  intros Hne Hseg.
  rewrite <- (take_drop n ls). rewrite <- (take_drop (length seg) (drop n ls)), Hseg.
  destruct (join_prefix sep seg (drop (length seg) (drop n ls)) Hne) as [rest Hrest].
  destruct (join_suffix sep (take n ls) (seg ++ drop (length seg) (drop n ls)))
    as [front Hfront].
  { destruct seg; done. }
  rewrite Hfront, Hrest. by exists front, rest.
Qed.

Lemma contains_join_elem sep x ls : x ∈ ls → contains (join sep ls) x.
Proof.
  intros Hin. apply list_elem_of_lookup in Hin as [n Hn].
  apply (contains_join_segment sep n [x] ls); [done|].
  pose proof (lookup_lt_Some _ _ _ Hn) as Hlt.
  apply take_drop_middle in Hn. rewrite <- Hn at 1.
  rewrite drop_app_length'; [done|]. rewrite length_take. lia.
Qed.

(** ** The parts of the statement *)

Lemma seg_items_rendered config :
  map (render_item Lower "" "") (seg_items config) = user_seg_fields config.
Proof.
  unfold seg_items, user_seg_fields.
  destruct (truthy_str (user_base_table config)); [|reflexivity].
  destruct (truthy_list (user_segmentation_fields config)) as [fields|]; [|reflexivity].
  rewrite map_map. apply map_ext. intros field.
  unfold render_item, render_expr, render_scalar; cbn [it_expr it_alias].
  by rewrite append_nil_r.
Qed.

Lemma extraction_item_rendered path name :
  render_item Lower "" "" (extraction_item path name) = extraction_field path name.
Proof.
  unfold extraction_item, extraction_field.
  destruct (truthy_str path); [|reflexivity]. text_eq.
Qed.

Lemma extraction_items_rendered config :
  map (render_item Lower "" "") (extraction_items config) = extraction_fields config.
Proof.
  unfold extraction_items, extraction_fields. cbn [map].
  by rewrite !extraction_item_rendered.
Qed.

Section statement.

Context (config : Config)
        (project destination uid sid ev ts source partition : string) (days : Z)
        (join_clause : string) (fs : list Step).

Let sql := standard_funnel_text config project destination uid sid ev ts source
             partition days join_clause fs.

Lemma statement_has_where :
  contains sql (render_where "    " (funnel_base_where partition ts sid days fs)).
Proof.
  rewrite funnel_base_where_rendered.
  apply (contains_join_segment nl 26%nat); [done|reflexivity].
Qed.

Lemma statement_has_completion : contains sql (funnel_completion_sql fs).
Proof.
  apply (contains_join_segment nl 61%nat [funnel_completion_sql fs]); [done|reflexivity].
Qed.

Lemma statement_has_final_select :
  contains sql (render_items Lower "    " "    " final_items).
Proof.
  rewrite final_select_rendered.
  apply (contains_join_segment nl 64%nat); [done|reflexivity].
Qed.

Lemma statement_has_screen_name_case :
  contains sql (join (nl +:+ "        ") (map screen_name_case_line fs)).
Proof.
  eapply contains_trans.
  - apply (contains_join_segment nl 21%nat
             ["        " +:+ join (nl +:+ "        ") (map screen_name_case_line fs)]);
      [done|reflexivity].
  - apply contains_app_r, contains_refl.
Qed.

Lemma statement_has_step_case :
  contains sql (join (nl +:+ "        ") (map step_case_line fs)).
Proof.
  eapply contains_trans.
  - apply (contains_join_segment nl 17%nat
             ["        " +:+ join (nl +:+ "        ") (map step_case_line fs)]);
      [done|reflexivity].
  - apply contains_app_r, contains_refl.
Qed.

Lemma statement_has_base_columns :
  contains sql (render_items Lower "" "        "
                  (take 5 (funnel_base_items config uid sid ev ts fs))).
Proof.
  eapply contains_trans.
  - apply (contains_join_segment nl 6%nat
             [ "        e." +:+ uid +:+ " as actor_id,";
               "        " +:+ sid +:+ " as session_id,";
               "        e." +:+ ev +:+ " as event,";
               "        e." +:+ ts +:+ " as screen_entry_time,";
               "        e.properties," ]); [done|reflexivity].
  - replace (join nl _) with
      (render_items Lower "" "        "
         (take 5 (funnel_base_items config uid sid ev ts fs)) +:+ ",").
    + apply contains_app_l, contains_refl.
    + cbn [take funnel_base_items app]. text_eq.
Qed.

Lemma statement_has_segmentation :
  contains sql (join ", " (map (render_item Lower "" "") (seg_items config))).
Proof.
  rewrite seg_items_rendered. eapply contains_trans.
  - apply (contains_join_segment nl 12%nat
             ["        " +:+ join ", " (user_seg_fields config) +:+ ","]);
      [done|reflexivity].
  - apply contains_middle.
Qed.

Lemma statement_has_extraction :
  contains sql (join ", " (map (render_item Lower "" "") (extraction_items config))).
Proof.
  rewrite extraction_items_rendered. eapply contains_trans.
  - apply (contains_join_segment nl 14%nat
             ["        " +:+ join ", " (extraction_fields config) +:+ ","]);
      [done|reflexivity].
  - apply contains_middle.
Qed.

End statement.

(** ** The [qualify] of [funnel_clean] *)

Lemma qualify_first_elem rows :
  ∀ before x, x ∈ qualify_first before rows →
  ∃ l1 l2, rows = l1 ++ x :: l2 ∧ is_first (before ++ l1) x l2 = true.
Proof.
  induction rows as [|r after IH]; intros before x Hx; simpl in Hx.
  - by apply elem_of_nil in Hx.
  - assert (Hrest : x ∈ qualify_first (before ++ [r]) after →
             ∃ l1 l2, r :: after = l1 ++ x :: l2 ∧ is_first (before ++ l1) x l2 = true).
    { intros H. destruct (IH _ _ H) as (l1 & l2 & -> & Hfirst).
      exists (r :: l1), l2. split; [done|]. by rewrite <- app_assoc in Hfirst. }
    destruct (is_first before r after) eqn:Hfirst; [|by apply Hrest].
    apply elem_of_cons in Hx as [->|Hx]; [|by apply Hrest].
    exists [], after. by rewrite app_nil_r.
Qed.

(** The rows that [qualify] keeps are pairwise in different partitions. *)
Lemma qualify_first_deduplicated rows : ∀ before, deduplicated (qualify_first before rows).
Proof.
  unfold deduplicated.
  induction rows as [|r after IH]; intros before; simpl; [constructor|].
  destruct (is_first before r after) eqn:Hfirst; [|apply IH].
  simpl. apply NoDup_cons. split; [|apply IH].
  intros Hin. apply list_elem_of_In, in_map_iff in Hin as (y & Hkey & Hy).
  apply list_elem_of_In, qualify_first_elem in Hy as (l1 & l2 & -> & Hy).
  unfold is_first in Hfirst, Hy.
  apply andb_true_iff in Hfirst as [_ Hafter]. apply andb_true_iff in Hy as [Hbefore _].
  rewrite forallb_forall in Hafter, Hbefore.
  specialize (Hafter y). specialize (Hbefore r).
  assert (same_partition y r = true) as Hyr by (by apply bool_decide_eq_true).
  assert (same_partition r y = true) as Hry by (by apply bool_decide_eq_true).
  rewrite Hyr in Hafter. rewrite Hry in Hbefore. simpl in Hafter, Hbefore.
  rewrite Hbefore in Hafter.
  - discriminate Hafter. apply in_or_app. right. by left.
  - apply in_or_app. left. apply in_or_app. right. by left.
Qed.

Lemma qualify_first_subseteq before rows x : x ∈ qualify_first before rows → x ∈ rows.
Proof.
  intros Hx. apply qualify_first_elem in Hx as (l1 & l2 & -> & _).
  apply elem_of_app. right. by left.
Qed.

(** ** The rows of [funnel_clean] *)

(** The two labeling [case]s of [funnel_base] choose the same step. *)
Lemma funnel_base_labels_agree clk tbl ev fs r k :
  eval_expr clk tbl (step_stage_expr fs) r = VInt k →
  Exists (λ st, rank st = k
                ∧ eval_expr clk tbl (screen_name_expr ev fs) r = VStr (screen_name st)) fs.
Proof.
  unfold step_stage_expr, screen_name_expr, eval_expr.
  induction fs as [|st fs IH]; simpl; [discriminate|].
  destruct (get "event" r) as [| |e| | |] eqn:Hev; simpl;
    try (intros H; apply Exists_cons_tl, IH, H).
  destruct (bool_decide (e ∈ loaded_events st)).
  - intros [= <-]. by apply Exists_cons_hd.
  - intros H. apply Exists_cons_tl, IH, H.
Qed.

Lemma get_base_column kept i r c :
  c ∈ base_columns → get c (clean_row_of kept (i, r)) = get c r.
Proof.
  unfold clean_row_of.
  destruct (around i None _) as [previous next].
  intros Hc. unfold base_columns in Hc.
  repeat (apply elem_of_cons in Hc as [->|Hc]; [reflexivity|]).
  by apply elem_of_nil in Hc.
Qed.

Lemma funnel_clean_deduplicated base : deduplicated (funnel_clean base).
Proof. apply qualify_first_deduplicated. Qed.

(** Every row of [funnel_clean] copies the base columns of a row of
    [funnel_base] that got a rank. *)
Lemma funnel_clean_elem base x :
  x ∈ funnel_clean base →
  ∃ r, r ∈ base ∧ get "step_stage" r ≠ VNull
       ∧ ∀ c, c ∈ base_columns → get c x = get c r.
Proof.
  unfold funnel_clean. intros Hx.
  apply qualify_first_subseteq, list_elem_of_fmap in Hx as ([i r] & -> & Hir).
  apply list_elem_of_lookup in Hir as [j Hj].
  rewrite list_lookup_imap in Hj.
  destruct (filter _ base !! j) as [r'|] eqn:Hr'; [|discriminate].
  injection Hj as <- <-.
  apply list_elem_of_lookup_2, list_elem_of_filter in Hr' as [Hnull Hr'].
  exists r'. split; [done|]. split; [done|].
  intros c Hc. by apply get_base_column.
Qed.

Lemma get_project_skip clk tbl c skipped items r :
  Forall (λ it, item_name it ≠ c) skipped →
  get c (project clk tbl (skipped ++ items) r) = get c (project clk tbl items r).
Proof.
  induction 1 as [|it skipped Hit _ IH]; [done|].
  simpl. destruct (String.eqb_spec (item_name it) c); [done|exact IH].
Qed.

Lemma step_stage_null_or_rank clk tbl fs r :
  eval_expr clk tbl (step_stage_expr fs) r = VNull
  ∨ ∃ k, eval_expr clk tbl (step_stage_expr fs) r = VInt k.
Proof.
  unfold step_stage_expr, eval_expr.
  induction fs as [|st fs IH]; simpl; [by left|].
  destruct (match get "event" r with VStr x => _ | _ => false end); [|exact IH].
  right. by eexists.
Qed.

Lemma extraction_item_name path name : item_name (extraction_item path name) = name.
Proof. unfold extraction_item. by destruct (truthy_str path). Qed.

(** The rows of [funnel_clean] carry the rank and the screen name of one
    step, provided the configured segmentation fields do not take the names
    of the two labels. *)
Lemma funnel_clean_labelled wh config uid sid ev ts source partition days fs :
  Forall (λ it, item_name it ≠ "step_stage" ∧ item_name it ≠ "screen_name")
         (seg_items config) →
  labelled fs (funnel_clean (funnel_base wh config uid sid ev ts source partition days fs)).
Proof.
  intros Hseg. unfold labelled. apply Forall_forall. intros x Hx.
  apply funnel_clean_elem in Hx as (r & Hr & Hnull & Hcols).
  rewrite (Hcols "step_stage"), (Hcols "screen_name")
    by (refine (bool_decide_unpack _ _); vm_compute; exact I).
  clear x Hcols.
  apply list_elem_of_fmap in Hr as (r0 & -> & _).
  set (tbl := filter _ _) in *. set (clk := wh_clock wh) in *.
  assert (Hstage : get "step_stage" (project clk tbl (funnel_base_items config uid sid ev ts fs) r0)
                   = eval_expr clk tbl (step_stage_expr fs) r0).
  { unfold funnel_base_items. rewrite !app_assoc.
    rewrite get_project_skip; [reflexivity|].
    repeat apply Forall_app_2.
    - repeat constructor; simpl; discriminate.
    - eapply Forall_impl; [exact Hseg|]. by intros it [? _].
    - repeat constructor; rewrite extraction_item_name; discriminate. }
  assert (Hname : get "screen_name" (project clk tbl (funnel_base_items config uid sid ev ts fs) r0)
                  = eval_expr clk tbl (screen_name_expr ev fs) r0).
  { unfold funnel_base_items. rewrite !app_assoc.
    rewrite get_project_skip; [reflexivity|].
    repeat apply Forall_app_2.
    - repeat constructor; simpl; discriminate.
    - eapply Forall_impl; [exact Hseg|]. by intros it [_ ?].
    - repeat constructor; rewrite extraction_item_name; discriminate. }
  rewrite Hstage in Hnull. rewrite Hstage, Hname.
  destruct (step_stage_null_or_rank clk tbl fs r0) as [Hk|[k Hk]]; [done|].
  rewrite Hk. eapply Exists_impl; [exact (funnel_base_labels_agree clk tbl ev fs r0 k Hk)|].
  intros st [-> Hst]. done.
Qed.

Section completion.

Context (clk : clock) (fs : list Step).

Lemma completion_where_holds tbl st r :
  holds_all clk tbl (completion_where st) r
  = sql_ge (get "step_stage" r) (VInt (rank st)).
Proof. unfold holds_all, completion_where. simpl. by rewrite andb_true_r. Qed.

Lemma completion_keys tbl i st r :
  let o := project clk tbl (completion_items fs i st) r in
  get "actor_id" o = get "actor_id" r
  ∧ get "session_id" o = get "session_id" r
  ∧ get "step_stage" o = VInt (rank st).
Proof. done. Qed.

Lemma final_keeps tbl o c :
  c ∈ clean_columns → get c (project clk tbl final_items o) = get c o.
Proof.
  intros Hc. unfold clean_columns in Hc.
  repeat (apply elem_of_cons in Hc as [->|Hc]; [reflexivity|]).
  by apply elem_of_nil in Hc.
Qed.

Lemma completion_passes_through tbl i st r c :
  get "step_stage" r = VInt (rank st) →
  get "screen_name" r = VStr (screen_name st) →
  c ∈ clean_columns →
  get c (project clk tbl (completion_items fs i st) r) = get c r.
Proof.
  intros Hstage Hname Hc. unfold clean_columns in Hc.
  repeat (apply elem_of_cons in Hc as [->|Hc];
          [cbn; rewrite ?Hstage, ?Hname; cbn; rewrite ?Z.eqb_refl; done|]).
  by apply elem_of_nil in Hc.
Qed.

End completion.

(** ** Lists *)

Lemma filter_map_comm {A B} (f : A → B) (P : B → Prop) `{!∀ x, Decision (P x)}
    (l : list A) :
  filter P (map f l) = map f (filter (λ x, P (f x)) l).
Proof.
  induction l as [|x l IH]; [done|]. simpl. rewrite !filter_cons.
  destruct (decide (P (f x))); simpl; by rewrite IH.
Qed.

Lemma filter_concat {A} (P : A → Prop) `{!∀ x, Decision (P x)} (ls : list (list A)) :
  filter P (concat ls) = concat (map (filter P) ls).
Proof.
  induction ls as [|l ls IH]; [done|]. simpl. by rewrite filter_app, IH.
Qed.

Lemma filter_all {A} (P : A → Prop) `{!∀ x, Decision (P x)} (l : list A) :
  (∀ x, x ∈ l → P x) → filter P l = l.
Proof.
  induction l as [|x l IH]; intros Hall; [done|].
  rewrite filter_cons, decide_True by (apply Hall; left).
  rewrite IH; [done|]. intros y Hy. apply Hall. by right.
Qed.

Lemma filter_none {A} (P : A → Prop) `{!∀ x, Decision (P x)} (l : list A) :
  (∀ x, x ∈ l → ¬ P x) → filter P l = [].
Proof.
  induction l as [|x l IH]; intros Hall; [done|].
  rewrite filter_cons, decide_False by (apply Hall; left).
  apply IH. intros y Hy. apply Hall. by right.
Qed.

Lemma map_imap {A B C} (g : B → C) (f : nat → A → B) (l : list A) :
  map g (imap f l) = imap (λ i x, g (f i x)) l.
Proof.
  revert f. induction l as [|x l IH]; intros f; [done|].
  simpl. f_equal. apply IH.
Qed.

Lemma concat_imap_nil {A B} (f : nat → A → list B) (l : list A) :
  (∀ i y, l !! i = Some y → f i y = []) → concat (imap f l) = [].
Proof.
  revert f. induction l as [|x l IH]; intros f Hnil; [done|].
  simpl. rewrite (Hnil 0%nat x) by done. simpl.
  apply IH. intros i y Hi. by apply (Hnil (S i)).
Qed.

Lemma concat_imap_single {A B} (f : nat → A → list B) (l : list A) (j : nat) (x : A) :
  l !! j = Some x →
  (∀ i y, l !! i = Some y → i ≠ j → f i y = []) →
  concat (imap f l) = f j x.
Proof.
  revert f j. induction l as [|y l IH]; intros f j Hj Hnil; [done|].
  simpl. destruct j as [|j]; simpl in Hj.
  - injection Hj as ->. rewrite concat_imap_nil; [by rewrite app_nil_r|].
    intros i z Hi. by apply (Hnil (S i)).
  - rewrite (Hnil 0%nat y) by done. simpl.
    apply (IH (f ∘ S) j Hj). intros i z Hi Hne. apply (Hnil (S i)); [done|lia].
Qed.

Lemma NoDup_map_filter_key {A B} `{EqDecision B} (f : A → B) (c : B) (l : list A) :
  NoDup (map f l) → (length (filter (λ x, f x = c) l) ≤ 1)%nat.
Proof.
  induction l as [|x l IH]; intros Hnd; [simpl; lia|].
  simpl in Hnd. apply NoDup_cons in Hnd as [Hnotin Hnd].
  rewrite filter_cons. destruct (decide (f x = c)) as [Hx|Hx]; [|by apply IH].
  rewrite filter_none; [simpl; lia|].
  intros y Hy Hfy. apply Hnotin. rewrite Hx, <- Hfy.
  apply list_elem_of_In, in_map. by apply list_elem_of_In.
Qed.

(** ** The rows of an actor and session in [funnel_completed] *)

Section rows.

Context (clk : clock) (fs : list Step) (Hdense : ranks_by_position fs).

Lemma select_completion fc i st :
  select clk (completion_items fs i st) (completion_where st) fc
  = map (project clk [] (completion_items fs i st))
        (filter (λ r, holds_all clk [] (completion_where st) r = true) fc).
Proof. unfold select. cbv zeta. apply map_ext. reflexivity. Qed.

Lemma select_final tbl :
  select clk final_items [] tbl = map (project clk [] final_items) tbl.
Proof.
  unfold select. cbv zeta.
  rewrite (filter_all (λ r, holds_all clk [] [] r = true)) by done.
  apply map_ext. reflexivity.
Qed.

Lemma rows_of_branch fc a s k i st :
  rows_of (select clk (completion_items fs i st) (completion_where st) fc) a s k
  = if decide (k = rank st)
    then map (project clk [] (completion_items fs i st)) (reached fc a s k)
    else [].
Proof.
  rewrite select_completion. unfold rows_of.
  rewrite filter_map_comm, list_filter_filter.
  case_decide as Hk.
  - subst k. f_equal. unfold reached.
    apply list_filter_iff. intros r. rewrite completion_where_holds.
    cbn [get project map]. naive_solver.
  - rewrite filter_none; [done|]. intros r _ Hr. destruct Hr as [(_ & _ & Hst) _].
    cbn in Hst. congruence.
Qed.

Lemma rows_of_completed fc a s k i st :
  fs !! i = Some st → rank st = k →
  rows_of (funnel_completed clk fs fc) a s k
  = map (project clk [] (completion_items fs i st)) (reached fc a s k).
Proof.
  intros Hi Hk. unfold rows_of, funnel_completed. rewrite filter_concat, map_imap.
  rewrite (concat_imap_single _ fs i st Hi).
  - fold (rows_of (select clk (completion_items fs i st) (completion_where st) fc) a s k).
    rewrite rows_of_branch. by rewrite decide_True.
  - intros j st' Hj Hne.
    fold (rows_of (select clk (completion_items fs j st') (completion_where st') fc) a s k).
    rewrite rows_of_branch. rewrite decide_False; [done|].
    rewrite <- Hk, (Hdense _ _ Hi), (Hdense _ _ Hj). lia.
Qed.

Lemma rows_of_completed_outside fc a s k :
  (∀ i st, fs !! i = Some st → rank st ≠ k) →
  rows_of (funnel_completed clk fs fc) a s k = [].
Proof.
  intros Hout. unfold rows_of, funnel_completed. rewrite filter_concat, map_imap.
  apply concat_imap_nil. intros i st Hi.
  fold (rows_of (select clk (completion_items fs i st) (completion_where st) fc) a s k).
  rewrite rows_of_branch. rewrite decide_False; [done|]. intros ->. by eapply Hout.
Qed.

Lemma rows_of_final fc a s k :
  rows_of (standard_funnel_table clk fs fc) a s k
  = map (project clk [] final_items) (rows_of (funnel_completed clk fs fc) a s k).
Proof.
  unfold standard_funnel_table. rewrite select_final.
  unfold rows_of. rewrite filter_map_comm. f_equal.
Qed.

End rows.

Lemma dense_ranks_lookup fs : dense_ranks fs → ranks_by_position fs.
Proof.
  intros Hd i st Hi. unfold dense_ranks in Hd.
  assert (map rank fs !! i = Some (rank st)) as H1.
  { change (map rank fs) with (rank <$> fs). by rewrite list_lookup_fmap, Hi. }
  rewrite Hd in H1. change (map ?f ?l) with (f <$> l) in H1.
  rewrite list_lookup_fmap in H1.
  pose proof (lookup_lt_Some _ _ _ Hi) as Hlt.
  rewrite lookup_seq_lt in H1 by done. simpl in H1. congruence.
Qed.

Lemma dense_ranks_inj fs i j st st' :
  ranks_by_position fs → fs !! i = Some st → fs !! j = Some st' →
  rank st = rank st' → st = st'.
Proof.
  intros Hd Hi Hj Heq. rewrite (Hd _ _ Hi), (Hd _ _ Hj) in Heq.
  assert (i = j) as -> by lia. congruence.
Qed.

(** C1 (amended): every canonical row at step [S] is copied to each step
    1..S, so an actor/session whose maximum canonical step is [S] has, at
    each step [k] of 1..S, as many output rows as it has canonical rows at
    step [k] or beyond (at least one), exactly one at step [S], carrying
    the canonical row's values unchanged, and none beyond [S].  The two
    hypotheses on [fc] are what [funnel_clean_deduplicated] and
    [funnel_clean_labelled] give for the [funnel_clean] of a run. *)
Theorem C1_backfill_one_row_per_canonical_row clk fs fc a s S r0 :
  dense_ranks fs → deduplicated fc → labelled fs fc →
  r0 ∈ fc →
  get "actor_id" r0 = a → get "session_id" r0 = s → get "step_stage" r0 = VInt S →
  none_beyond fc a s S →
  let tbl := standard_funnel_table clk fs fc in
  (∀ k, 1 ≤ k ≤ S →
     length (rows_of tbl a s k) = length (reached fc a s k)
     ∧ (1 ≤ length (rows_of tbl a s k))%nat)
  ∧ (∃ o, rows_of tbl a s S = [o] ∧ ∀ c, c ∈ clean_columns → get c o = get c r0)
  ∧ (∀ k, S < k → rows_of tbl a s k = []).
Proof.
  intros Hdense0 Hdedup Hlab0 Hr0 Ha Hs HS Hmax0 tbl.
  pose proof (dense_ranks_lookup fs Hdense0) as Hdense.
  assert (Hlab : ∀ r, r ∈ fc → ∃ i st, fs !! i = Some st
            ∧ get "step_stage" r = VInt (rank st)
            ∧ get "screen_name" r = VStr (screen_name st)).
  { intros r Hr. unfold labelled in Hlab0. rewrite Forall_forall in Hlab0.
    apply Hlab0, Exists_exists in Hr as (st & Hst & H1 & H2).
    apply list_elem_of_lookup in Hst as [i Hi]. eauto. }
  assert (Hmax : ∀ r k, r ∈ fc → get "actor_id" r = a → get "session_id" r = s →
            get "step_stage" r = VInt k → k ≤ S).
  { intros r k Hr Hra Hrs Hk. unfold none_beyond in Hmax0.
    rewrite Forall_forall in Hmax0. specialize (Hmax0 r Hr Hra Hrs).
    rewrite Hk in Hmax0. simpl in Hmax0. by apply Z.leb_le. }
  destruct (Hlab r0 Hr0) as (i0 & st0 & Hi0 & Hst0 & Hname0).
  assert (HS0 : rank st0 = S) by congruence.
  assert (Hbound : 1 ≤ S ≤ Z.of_nat (length fs)).
  { rewrite <- HS0, (Hdense _ _ Hi0). apply lookup_lt_Some in Hi0. lia. }
  assert (Hin0 : ∀ k, k ≤ S → r0 ∈ reached fc a s k).
  { intros k Hk. apply list_elem_of_filter. repeat split; try done.
    rewrite HS. simpl. by apply Z.leb_le. }
  split; [|split].
  - intros k Hk.
    destruct (lookup_lt_is_Some_2 fs (Z.to_nat (k - 1))) as [st Hst]; [lia|].
    assert (rank st = k) as Hrk by (rewrite (Hdense _ _ Hst); lia).
    unfold tbl. rewrite rows_of_final, (rows_of_completed clk fs Hdense fc a s k _ st Hst Hrk).
    rewrite !length_map. split; [done|].
    specialize (Hin0 k ltac:(lia)).
    destruct (reached fc a s k); [by apply elem_of_nil in Hin0|simpl; lia].
  - assert (Hone : reached fc a s S = [r0]).
    { assert (Heq : reached fc a s S = filter (λ r, dedup_key r = dedup_key r0) fc).
      { unfold reached. apply filter_ext_elem. intros r Hr. unfold dedup_key. split.
        - intros (Hra & Hrs & Hge).
          destruct (Hlab r Hr) as (i & st & Hi & Hst & Hname).
          rewrite Hst in Hge. simpl in Hge. apply Z.leb_le in Hge.
          pose proof (Hmax r _ Hr Hra Hrs Hst) as Hle.
          assert (rank st = rank st0) as Hrk by lia.
          rewrite (dense_ranks_inj fs i i0 st st0 Hdense Hi Hi0 Hrk) in *.
          congruence.
        - intros [= Hra Hrs Hname Hst]. repeat split; try congruence.
          rewrite Hst, HS. simpl. apply Z.leb_le. lia. }
      pose proof (NoDup_map_filter_key dedup_key (dedup_key r0) fc Hdedup) as Hle.
      rewrite <- Heq in Hle. specialize (Hin0 S ltac:(lia)).
      destruct (reached fc a s S) as [|x [|y l]]; simpl in Hle; try lia.
      - by apply elem_of_nil in Hin0.
      - apply list_elem_of_singleton in Hin0. by subst. }
    eexists. split.
    + unfold tbl. rewrite rows_of_final.
      rewrite (rows_of_completed clk fs Hdense fc a s S _ st0 Hi0 HS0), Hone. reflexivity.
    + intros c Hc. rewrite (final_keeps clk [] _ c Hc).
      apply completion_passes_through; congruence.
  - intros k Hk. unfold tbl. rewrite rows_of_final.
    assert (Hnone : reached fc a s k = []).
    { apply filter_none. intros r Hr (Hra & Hrs & Hge).
      destruct (Hlab r Hr) as (i & st & Hi & Hst & Hname).
      rewrite Hst in Hge. simpl in Hge. apply Z.leb_le in Hge.
      pose proof (Hmax r _ Hr Hra Hrs Hst). lia. }
    destruct (decide (1 ≤ k ≤ Z.of_nat (length fs))) as [Hin|Hout].
    + destruct (lookup_lt_is_Some_2 fs (Z.to_nat (k - 1))) as [st Hst]; [lia|].
      assert (rank st = k) as Hrk by (rewrite (Hdense _ _ Hst); lia).
      by rewrite (rows_of_completed clk fs Hdense fc a s k _ st Hst Hrk), Hnone.
    + rewrite rows_of_completed_outside; [done|].
      intros i st Hi Hrk. rewrite (Hdense _ _ Hi) in Hrk.
      apply lookup_lt_Some in Hi. lia.
Qed.

Lemma C1_backfill_witness :
  let tbl := standard_funnel_table noon three_steps skipping_session in
  (∀ k, 1 ≤ k ≤ 3 →
     length (rows_of tbl (VStr "u1") (VStr "s1") k)
     = length (reached skipping_session (VStr "u1") (VStr "s1") k)
     ∧ (1 ≤ length (rows_of tbl (VStr "u1") (VStr "s1") k))%nat)
  ∧ (∃ o, rows_of tbl (VStr "u1") (VStr "s1") 3 = [o]
          ∧ ∀ c, c ∈ clean_columns → get c o = get c third_row)
  ∧ (∀ k, 3 < k → rows_of tbl (VStr "u1") (VStr "s1") k = []).
Proof.
  apply (C1_backfill_one_row_per_canonical_row noon three_steps skipping_session
           (VStr "u1") (VStr "s1") 3 third_row);
    try reflexivity;
    refine (bool_decide_unpack _ _); vm_compute; exact I.
Defined.

(** A run on that warehouse: all three steps survive, [funnel_clean] holds
    for the session of [u1] its canonical rows at steps 1 and 3, so its
    maximum step is 3, and the table holds two rows for it at step 1. *)
Lemma C1_one_row_per_step_counterexample :
  ∃ ls σ' fs,
    check_event_availability skipping_warehouse
      (example_config [0%nat; 1%nat; 2%nat] 30) three_store = (Ok ls, σ')
    ∧ for_each read ls σ' = (Ok fs, σ')
    ∧ let fc := funnel_clean
                  (funnel_base skipping_warehouse
                     (example_config [0%nat; 1%nat; 2%nat] 30)
                     "user_id" "session_id" "event" "timestamp"
                     "proj.events.events" "date" 30 fs) in
      filter (λ r, get "actor_id" r = VStr "u1") fc = skipping_session
      ∧ deduplicated fc
      ∧ labelled fs fc
      ∧ none_beyond fc (VStr "u1") (VStr "s1") 3
      ∧ length (rows_of (standard_funnel_table noon fs fc) (VStr "u1") (VStr "s1") 1)
        = 2%nat.
Proof.
  eexists _, _, _. split; [vm_compute; reflexivity|].
  split; [vm_compute; reflexivity|].
  repeat split; try (refine (bool_decide_unpack _ _); vm_compute; exact I).
Qed.

Lemma completed_elem clk fs fc i st r :
  fs !! i = Some st → r ∈ fc →
  sql_ge (get "step_stage" r) (VInt (rank st)) = true →
  project clk [] (completion_items fs i st) r ∈ funnel_completed clk fs fc.
Proof.
  intros Hi Hr Hge. unfold funnel_completed.
  apply list_elem_of_In, in_concat.
  exists (select clk (completion_items fs i st) (completion_where st) fc). split.
  - apply list_elem_of_In. apply list_elem_of_lookup. exists i.
    by rewrite list_lookup_imap, Hi.
  - rewrite select_completion. apply in_map. apply list_elem_of_In.
    apply list_elem_of_filter. split; [|done]. by rewrite completion_where_holds.
Qed.

(** C2 (amended): the row backfilled at a step [s] below the reached step [S]
    has entry time = canonical entry time minus (s-1) minutes, previous screen
    = label of step s-1 (null for s = 1), success time = canonical entry time
    plus one minute, conversion flag 1 and duration 60 (null, 0 and null if
    [s] were the last step); of two rows backfilled from one canonical row
    the one for the smaller step has the strictly LATER entry time. *)
Theorem C2_backfilled_row_fields clk fs fc i st r S t :
  dense_ranks fs → fs !! i = Some st → r ∈ fc →
  get "step_stage" r = VInt S → rank st < S →
  get "screen_entry_time" r = VTs t →
  let o := project clk [] (completion_items fs i st) r in
  let last := bool_decide (rank st = Z.of_nat (length fs)) in
  o ∈ funnel_completed clk fs fc
  ∧ get "step_stage" o = VInt (rank st)
  ∧ get "screen_entry_time" o = VTs (t - 60 * (rank st - 1))
  ∧ get "previous_screen_name" o
    = match i with
      | O => VNull
      | Datatypes.S j => from_option (λ p, VStr (screen_name p)) VNull (fs !! j)
      end
  ∧ get "screen_success_time" o = (if last then VNull else VTs (t + 60))
  ∧ get "is_conversion_session" o = VInt (if last then 0 else 1)
  ∧ get "time_to_convert" o = (if last then VNull else VInt 60)
  ∧ ∀ j st', fs !! j = Some st' → rank st < rank st' → rank st' < S →
      get "screen_entry_time" (project clk [] (completion_items fs j st') r)
      = VTs (t - 60 * (rank st' - 1))
      ∧ t - 60 * (rank st' - 1) < t - 60 * (rank st - 1).
Proof.
  intros Hdense0 Hi Hr HS Hlt Ht o last.
  pose proof (dense_ranks_lookup fs Hdense0) as Hdense.
  assert (Hne : ∀ k, k < S → (S =? k) = false) by (intros; lia).
  assert (Hlast : (rank st =? Z.of_nat (length fs)) = last).
  { unfold last. destruct (bool_decide_reflect (rank st = Z.of_nat (length fs))); lia. }
  split; [|split; [|split; [|split; [|split; [|split; [|split]]]]]].
  - apply completed_elem; [done..|]. rewrite HS. simpl. apply Z.leb_le. lia.
  - reflexivity.
  - unfold o. cbn. rewrite HS, Ht. cbn. by rewrite (Hne _ Hlt).
  - unfold o. cbn. rewrite HS. cbn. rewrite (Hne _ Hlt).
    rewrite (Hdense _ _ Hi). destruct i as [|j]; [done|].
    assert ((Z.of_nat (Datatypes.S j) + 1 =? 1) = false) as -> by (apply Z.eqb_neq; lia).
    unfold previous_label.
    assert (is_Some (fs !! j)) as [p Hp].
    { apply lookup_lt_is_Some. apply lookup_lt_Some in Hi. lia. }
    by rewrite Hp.
  - unfold o. cbn. rewrite HS, Ht. cbn. rewrite (Hne _ Hlt), Hlast.
    destruct last; [done|]. do 2 f_equal.
  - unfold o. cbn. rewrite HS. cbn. rewrite (Hne _ Hlt), Hlast. by destruct last.
  - unfold o. cbn. rewrite HS. cbn. rewrite (Hne _ Hlt), Hlast. by destruct last.
  - intros j st' Hj Hlt1 Hlt2. split; [|lia].
    cbn. rewrite HS, Ht. cbn. by rewrite (Hne _ Hlt2).
Qed.

Lemma C2_backfilled_row_witness :
  let o := project noon [] (completion_items three_steps 0 (new_step 1 "A" ["e1"]))
             third_row in
  o ∈ funnel_completed noon three_steps skipping_session
  ∧ get "step_stage" o = VInt 1
  ∧ get "screen_entry_time" o = VTs (7776600 - 60 * (1 - 1))
  ∧ get "previous_screen_name" o = VNull
  ∧ get "screen_success_time" o = VTs (7776600 + 60)
  ∧ get "is_conversion_session" o = VInt 1
  ∧ get "time_to_convert" o = VInt 60
  ∧ ∀ j st', three_steps !! j = Some st' → 1 < rank st' → rank st' < 3 →
      get "screen_entry_time"
          (project noon [] (completion_items three_steps j st') third_row)
      = VTs (7776600 - 60 * (rank st' - 1))
      ∧ 7776600 - 60 * (rank st' - 1) < 7776600 - 60 * (1 - 1).
Proof.
  apply (C2_backfilled_row_fields noon three_steps skipping_session 0
           (new_step 1 "A" ["e1"]) third_row 3 7776600);
    try reflexivity; try (simpl; lia).
  refine (bool_decide_unpack _ _); vm_compute; exact I.
Defined.

(** The rows backfilled at steps 1 and 2 from the canonical row at step 3:
    the row of step 1 is not entered before the row of step 2. *)
Lemma C2_step_order_counterexample :
  let o1 := project noon [] (completion_items three_steps 0 (new_step 1 "A" ["e1"]))
              third_row in
  let o2 := project noon [] (completion_items three_steps 1 (new_step 2 "B" ["e2"]))
              third_row in
  o1 ∈ funnel_completed noon three_steps skipping_session
  ∧ o2 ∈ funnel_completed noon three_steps skipping_session
  ∧ get "step_stage" o1 = VInt 1 ∧ get "step_stage" o2 = VInt 2
  ∧ ¬ entered_before o1 o2.
Proof.
  repeat split; try (refine (bool_decide_unpack _ _); vm_compute; exact I).
  intros (t1 & t2 & H1 & H2 & Hlt). vm_compute in H1, H2.
  injection H1 as <-. injection H2 as <-. lia.
Qed.

(** ** Validation *)

Lemma validate_config_present config l ls :
  Forall (λ p, p.2 = true) (required_fields config) →
  steps config = Some (StepList (l :: ls)) →
  validate_config config = Ok true.
Proof.
  intros Hall Hsteps. unfold validate_config, required_fields in *.
  repeat (apply Forall_cons in Hall as [Hp Hall]; simpl in Hp; rewrite Hp; clear Hp).
  simpl. by rewrite Hsteps.
Qed.

Lemma validate_config_inv config :
  validate_config config = Ok true →
  ∃ project destination uid sid ev ts source partition days l ls,
    project_id config = Some project ∧ destination_dataset config = Some destination
    ∧ user_id_column config = Some uid ∧ session_id_column config = Some sid
    ∧ event_column config = Some ev ∧ timestamp_column config = Some ts
    ∧ data_source config = Some source ∧ partition_column config = Some partition
    ∧ time_period_days config = Some days ∧ steps config = Some (StepList (l :: ls)).
Proof.
  unfold validate_config, required_fields. destruct config; simpl.
  repeat match goal with
         | |- context [present ?f] => destruct f; simpl; try discriminate
         end.
  match goal with |- context [match ?s with StepList _ => _ | NotAList => _ end] =>
    destruct s as [[|l ls]|] end; try discriminate.
  intros _. repeat eexists.
Qed.

Lemma user_join_ok config uid :
  user_id_column config = Some uid → ∃ j, user_join config = Ok j.
Proof.
  intros Huid. unfold user_join. rewrite Huid. simpl.
  destruct (truthy_str (user_base_table config)); eauto.
Qed.

Lemma standard_funnel_sql_inv config fs sql :
  standard_funnel_sql config fs = Ok sql →
  ∃ project destination uid sid ev ts source partition days join_clause,
    project_id config = Some project ∧ destination_dataset config = Some destination
    ∧ user_id_column config = Some uid ∧ session_id_column config = Some sid
    ∧ event_column config = Some ev ∧ timestamp_column config = Some ts
    ∧ data_source config = Some source ∧ partition_column config = Some partition
    ∧ time_period_days config = Some days
    ∧ sql = standard_funnel_text config project destination uid sid ev ts source
              partition days join_clause fs.
Proof.
  unfold standard_funnel_sql.
  destruct (user_join config) as [j|]; simpl; [|discriminate].
  destruct (project_id config); simpl; [|discriminate].
  destruct (destination_dataset config); simpl; [|discriminate].
  destruct (user_id_column config); simpl; [|discriminate].
  destruct (session_id_column config); simpl; [|discriminate].
  destruct (event_column config); simpl; [|discriminate].
  destruct (timestamp_column config); simpl; [|discriminate].
  destruct (data_source config); simpl; [|discriminate].
  destruct (partition_column config); simpl; [|discriminate].
  destruct (time_period_days config); simpl; [|discriminate].
  intros [= <-]. repeat eexists.
Qed.

Lemma standard_funnel_sql_valid config fs :
  validate_config config = Ok true →
  ∃ sql, standard_funnel_sql config fs = Ok sql.
Proof.
  intros Hv. apply validate_config_inv in Hv
    as (project & destination & uid & sid & ev & ts & source & partition & days & l & ls
        & H1 & H2 & H3 & H4 & H5 & H6 & H7 & H8 & H9 & H10).
  destruct (user_join_ok config uid H3) as [j Hj].
  unfold standard_funnel_sql. rewrite Hj, H1, H2, H3, H4, H5, H6, H7, H8, H9. simpl.
  eauto.
Qed.

(** ** The [where] of [funnel_base] *)

Lemma funnel_base_where_holds partition ts sid days fs clk r :
  holds_all clk [] (funnel_base_where partition ts sid days fs) r = true
  ↔ funnel_base_keeps partition ts sid days fs clk r.
Proof.
  unfold holds_all, funnel_base_where, funnel_base_keeps. cbn [forallb eval_cond eval_scalar].
  rewrite !andb_true_iff, negb_true_iff, bool_decide_eq_false.
  assert (H1 : match get "event" r with
               | VStr x => bool_decide (x ∈ concat (map loaded_events fs))
               | _ => false
               end = true
               ↔ ∃ e, get "event" r = VStr e ∧ e ∈ concat (map loaded_events fs)).
  { destruct (get "event" r); try (split; [done|intros (? & ? & ?); done]).
    rewrite bool_decide_eq_true. split; [eauto|]. by intros (e & [= <-] & He). }
  assert (H2 : match get partition r with
               | VDate d => today clk - days <=? d
               | _ => false
               end = true
               ↔ ∃ d, get partition r = VDate d ∧ today clk - days ≤ d).
  { destruct (get partition r); try (split; [done|intros (? & ? & ?); done]).
    rewrite Z.leb_le. split; [eauto|]. by intros (e & [= <-] & He). }
  assert (H3 : match match get ts r with
                     | VTs t => VDate (t / 86400)
                     | VDate d => VDate d
                     | _ => VNull
                     end with
               | VDate d => today clk - days <=? d
               | _ => false
               end = true
               ↔ ∃ d, date_of (get ts r) = Some d ∧ today clk - days ≤ d).
  { destruct (get ts r); simpl; try (split; [done|intros (? & ? & ?); done]);
      rewrite Z.leb_le; (split; [eauto|]); by intros (e & [= <-] & He). }
  rewrite H1, H2, H3. tauto.
Qed.

(** C3 (amended): the [where] of [funnel_base] keeps exactly the source rows
    whose [event] is one of the surviving steps' events, whose partition
    column is on or after today minus [time_period_days] days, whose
    timestamp's date is on or after that day too, and whose session-id
    expression is not null; [config['filters']] is not consulted. *)
Theorem C3_funnel_base_where_ignores_filters
    config fs sql partition ts sid days :
  standard_funnel_sql config fs = Ok sql →
  partition_column config = Some partition →
  timestamp_column config = Some ts →
  session_id_column config = Some sid →
  time_period_days config = Some days →
  contains sql (render_where "    " (funnel_base_where partition ts sid days fs))
  ∧ (∀ clk r,
       holds_all clk [] (funnel_base_where partition ts sid days fs) r = true
       ↔ funnel_base_keeps partition ts sid days fs clk r)
  ∧ (∀ fl, standard_funnel_sql (with_filters fl config) fs = Ok sql).
Proof.
  intros Hsql Hpart Hts Hsid Hdays.
  pose proof Hsql as Hinv.
  apply standard_funnel_sql_inv in Hinv
    as (project & destination & uid & sid' & ev & ts' & source & partition' & days'
        & j & H1 & H2 & H3 & H4 & H5 & H6 & H7 & H8 & H9 & ->).
  assert (partition' = partition) as -> by congruence.
  assert (ts' = ts) as -> by congruence.
  assert (sid' = sid) as -> by congruence.
  assert (days' = days) as -> by congruence.
  split; [apply statement_has_where|]. split.
  - intros clk r. apply funnel_base_where_holds.
  - intros fl. rewrite <- Hsql. reflexivity.
Qed.

Lemma C3_funnel_base_where_witness :
  let config := example_config [0%nat; 1%nat; 2%nat] 30 in
  let sql := standard_funnel_text config "proj" "sandbox" "user_id" "session_id" "event"
               "timestamp" "proj.events.events" "date" 30 "" three_steps in
  contains sql (render_where "    "
                  (funnel_base_where "date" "timestamp" "session_id" 30 three_steps))
  ∧ (∀ clk r,
       holds_all clk [] (funnel_base_where "date" "timestamp" "session_id" 30 three_steps) r
       = true
       ↔ funnel_base_keeps "date" "timestamp" "session_id" 30 three_steps clk r)
  ∧ (∀ fl, standard_funnel_sql (with_filters fl config) three_steps = Ok sql).
Proof.
  apply (C3_funnel_base_where_ignores_filters (example_config [0%nat; 1%nat; 2%nat] 30)
           three_steps _ "date" "timestamp" "session_id" 30); reflexivity.
Defined.

Lemma C3_filters_counterexample :
  let conds := funnel_base_where "date" "timestamp" "session_id" 30 three_steps in
  filters filtering_config = Some ["is_test = false"]
  ∧ (∃ sql, standard_funnel_sql filtering_config three_steps = Ok sql
            ∧ contains sql (render_where "    " conds))
  ∧ holds_all noon [] conds test_traffic_row = true
  ∧ ¬ spec_funnel_base_keeps ["is_test = false"] "date" "session_id" 30 three_steps
        noon test_traffic_row.
Proof.
  split; [reflexivity|]. split; [|split].
  - eexists. split; [reflexivity|]. apply statement_has_where.
  - vm_compute. reflexivity.
  - intros (Hf & _). apply Forall_cons in Hf as [Hf _]. vm_compute in Hf. discriminate.
Qed.

(** ** From a validated configuration to the statement *)

Lemma for_each_read_ok σ ls fs :
  Forall2 (λ l st, σ !! l = Some st) ls fs → for_each read ls σ = (Ok fs, σ).
Proof.
  induction 1 as [|l st ls fs Hl _ IH]; [done|].
  simpl. rewrite (bind_ok _ _ _ _ _ (read_ok _ _ _ Hl)).
  by rewrite (bind_ok _ _ _ _ _ IH).
Qed.

Lemma allocated_steps σ ls :
  allocated σ ls → ∃ fs, Forall2 (λ l st, σ !! l = Some st) ls fs.
Proof.
  induction 1 as [|l ls [st Hst] _ [fs IH]]; [by exists []|].
  exists (st :: fs). by constructor.
Qed.

(** When the engine answers the count query and a declared event was
    observed, the generator returns the statement of the surviving steps,
    renumbered and narrowed. *)
Lemma generate_standard_funnel_sql_returns wh config σ ls source partition days :
  validate_config config = Ok true →
  steps config = Some (StepList ls) →
  data_source config = Some source →
  partition_column config = Some partition →
  time_period_days config = Some days →
  NoDup ls → allocated σ ls →
  wh_accepts wh (availability_query source partition days (all_events σ ls)) = true →
  (∃ l, l ∈ ls ∧ has_observed_event wh source partition days σ l) →
  let available_events := availability wh source partition days σ ls in
  let locs := filter (λ l, survives available_events σ l = true) ls in
  ∃ sql σ' fs,
    generate_standard_funnel_sql wh config σ = (Ok sql, σ')
    ∧ check_event_availability wh config σ = (Ok locs, σ')
    ∧ Forall2 (λ l st, σ' !! l = Some st) locs fs
    ∧ standard_funnel_sql config fs = Ok sql
    ∧ (∀ i l st, locs !! i = Some l → σ !! l = Some st →
         fs !! i = Some (set_rank (Z.of_nat i + 1) (narrowed available_events st))).
Proof.
  intros Hv Hsteps Hsrc Hpart Hdays Hnd Hal Hacc (l0 & Hl0 & Hobs) available_events locs.
  destruct (check_event_availability_spec wh _ _ _ _ _ _ Hsteps Hsrc Hpart Hdays Hnd Hal
              Hacc) as (σ' & Hrun & Hin & _).
  fold available_events in Hrun, Hin. fold locs in Hrun, Hin.
  assert (Hl0' : l0 ∈ locs).
  { apply list_elem_of_filter. split; [|done]. by apply (survives_iff _ _ _ _ _ _ _ Hl0). }
  assert (Hsub : ∀ l, l ∈ locs → l ∈ ls).
  { intros l Hl. apply list_elem_of_filter in Hl. tauto. }
  assert (Hal' : allocated σ' locs).
  { apply Forall_forall. intros l Hl.
    apply list_elem_of_lookup in Hl as Hi. destruct Hi as [i Hi].
    unfold allocated in Hal. rewrite Forall_forall in Hal.
    destruct (Hal l (Hsub l Hl)) as [st Hst]. rewrite (Hin _ _ _ Hi Hst). eauto. }
  destruct (allocated_steps _ _ Hal') as [fs Hfs].
  destruct (standard_funnel_sql_valid config fs Hv) as [sql Hsql].
  exists sql, σ', fs. split; [|split; [done|split; [done|split; [done|]]]].
  - unfold generate_standard_funnel_sql, bind at 1. rewrite Hrun.
    destruct locs as [|l1 locs'] eqn:Hlocs; [by apply elem_of_nil in Hl0'|].
    rewrite (bind_ok _ _ _ _ _ (for_each_read_ok _ _ _ Hfs)).
    unfold lift. by rewrite Hsql.
  - intros i l st Hi Hst.
    destruct (Forall2_lookup_l _ _ _ _ _ Hfs Hi) as (st' & Hst' & Hσ').
    rewrite Hst'. by rewrite (Hin _ _ _ Hi Hst) in Hσ'.
Qed.

(** An observed event stays in the narrowed list of a step that lists it,
    and narrowing adds no event. *)
Lemma narrowed_keeps_observed wh source partition days σ ls l st e :
  l ∈ ls → σ !! l = Some st → e ∈ loaded_events st →
  0 < observed_count wh source partition days e →
  e ∈ loaded_events (narrowed (availability wh source partition days σ ls) st).
Proof.
  intros Hl Hst He Hpos. simpl. unfold available_in.
  apply list_elem_of_filter. split; [|done]. unfold availability.
  rewrite (available_lookup _ _ _ _ _ _ (elem_of_all_events _ _ _ _ _ Hl Hst He)).
  rewrite decide_False by lia. by eexists.
Qed.

Lemma narrowed_subseteq available_events st e :
  e ∈ loaded_events (narrowed available_events st) → e ∈ loaded_events st.
Proof. simpl. unfold available_in. rewrite list_elem_of_filter. tauto. Qed.

(** ** Labeling by first match *)

Lemma first_match_arm clk tbl (f : Step → scalar) els pre st post e r :
  get "event" r = VStr e →
  e ∈ loaded_events st →
  Forall (λ st', e ∉ loaded_events st') pre →
  eval_arms clk tbl
    (map (λ st', (InStrings (Col "event") (loaded_events st'), f st'))
         (pre ++ st :: post)) els r
  = eval_scalar clk tbl (f st) r.
Proof.
  intros Hev Hin Hpre. induction pre as [|p pre IH]; simpl.
  - rewrite Hev. by rewrite bool_decide_eq_true_2.
  - apply Forall_cons in Hpre as [Hp Hpre]. rewrite Hev.
    rewrite bool_decide_eq_false_2 by done. by apply IH.
Qed.

(** C6 (amended): validation never looks at the steps' events, so a
    configuration that declares an event in two steps validates; and the
    generator does not reject it: when the engine answers the count query
    and the shared event was observed, [generate_standard_funnel_sql]
    returns a statement in which both steps still list the event, and the
    labeling [case]s give a row carrying that event the rank and the screen
    name of the first step, in list order, that declares it. *)
Theorem C6_overlapping_events_first_match
    wh config σ ls source partition days ev pre l post st l2 st2 e clk r :
  Forall (λ p, p.2 = true) (required_fields config) →
  steps config = Some (StepList ls) →
  data_source config = Some source →
  partition_column config = Some partition →
  time_period_days config = Some days →
  NoDup ls → allocated σ ls →
  ls = pre ++ l :: post →
  σ !! l = Some st → e ∈ loaded_events st →
  (∀ l' st', l' ∈ pre → σ !! l' = Some st' → e ∉ loaded_events st') →
  l2 ∈ post → σ !! l2 = Some st2 → e ∈ loaded_events st2 →
  wh_accepts wh (availability_query source partition days (all_events σ ls)) = true →
  0 < observed_count wh source partition days e →
  get "event" r = VStr e →
  validate_config config = Ok true
  ∧ ∃ sql σ' fs i i2 st' st2',
      generate_standard_funnel_sql wh config σ = (Ok sql, σ')
      ∧ contains sql (join (nl +:+ "        ") (map step_case_line fs))
      ∧ contains sql (join (nl +:+ "        ") (map screen_name_case_line fs))
      ∧ fs !! i = Some st' ∧ σ' !! l = Some st'
      ∧ e ∈ loaded_events st' ∧ screen_name st' = screen_name st
      ∧ rank st' = Z.of_nat i + 1
      ∧ (i < i2)%nat ∧ fs !! i2 = Some st2' ∧ σ' !! l2 = Some st2'
      ∧ e ∈ loaded_events st2'
      ∧ eval_expr clk [] (step_stage_expr fs) r = VInt (rank st')
      ∧ eval_expr clk [] (screen_name_expr ev fs) r = VStr (screen_name st).
Proof.
  intros Hall Hsteps Hsrc Hpart Hdays Hnd Hal Hls Hst He Hfirst Hl2 Hst2 He2 Hacc Hpos Hev.
  assert (Hv : validate_config config = Ok true).
  { destruct ls as [|l0 ls0]; [by destruct pre|].
    by apply (validate_config_present config l0 ls0). }
  split; [done|].
  assert (Hl : l ∈ ls) by (rewrite Hls, elem_of_app, elem_of_cons; auto).
  assert (Hl2' : l2 ∈ ls) by (rewrite Hls, elem_of_app, elem_of_cons; auto).
  set (available_events := availability wh source partition days σ ls).
  set (P := λ l', survives available_events σ l' = true).
  assert (HPl : P l).
  { apply (survives_iff _ _ _ _ _ _ _ Hl). by exists st, e. }
  assert (HPl2 : P l2).
  { apply (survives_iff _ _ _ _ _ _ _ Hl2'). by exists st2, e. }
  destruct (generate_standard_funnel_sql_returns wh config σ ls source partition days
              Hv Hsteps Hsrc Hpart Hdays Hnd Hal Hacc)
    as (sql & σ' & fs & Hgen & _ & Hfs & Hsql & Hat).
  { exists l. split; [done|]. by exists st, e. }
  fold available_events in Hfs, Hat. fold P in Hfs, Hat.
  assert (Hlocs : filter P ls = filter P pre ++ l :: filter P post).
  { rewrite Hls, filter_app, filter_cons. by rewrite decide_True. }
  set (i := length (filter P pre)).
  assert (Hi : filter P ls !! i = Some l).
  { rewrite Hlocs. by rewrite list_lookup_middle. }
  apply list_elem_of_lookup in Hl2 as Hk.
  assert (l2 ∈ filter P post) as Hl2f by (by apply list_elem_of_filter).
  apply list_elem_of_lookup in Hl2f as [k2 Hk2].
  set (i2 := (i + S k2)%nat).
  assert (Hi2 : filter P ls !! i2 = Some l2).
  { rewrite Hlocs. unfold i2, i. rewrite lookup_app_r by lia.
    replace (length (filter P pre) + S k2 - length (filter P pre))%nat with (S k2) by lia.
    done. }
  pose proof (Hat _ _ _ Hi Hst) as Hfsi.
  pose proof (Hat _ _ _ Hi2 Hst2) as Hfsi2.
  set (st' := set_rank (Z.of_nat i + 1) (narrowed available_events st)) in *.
  set (st2' := set_rank (Z.of_nat i2 + 1) (narrowed available_events st2)) in *.
  assert (He' : e ∈ loaded_events st').
  { by apply (narrowed_keeps_observed wh source partition days σ ls l st e). }
  assert (Hbefore : Forall (λ st'', e ∉ loaded_events st'') (take i fs)).
  { apply Forall_forall. intros st'' Hin.
    apply list_elem_of_lookup in Hin as [j Hj].
    apply lookup_take_Some in Hj as [Hj Hlt].
    destruct (Forall2_lookup_r _ _ _ _ _ Hfs Hj) as (l' & Hl' & _).
    assert (l' ∈ pre) as Hpre.
    { rewrite Hlocs, lookup_app_l in Hl' by (fold i; lia).
      apply list_elem_of_lookup_2, list_elem_of_filter in Hl'. tauto. }
    assert (l' ∈ ls) as Hl'ls by (rewrite Hls, elem_of_app; auto).
    unfold allocated in Hal. rewrite Forall_forall in Hal.
    destruct (Hal l' Hl'ls) as [st0 Hst0].
    rewrite (Hat _ _ _ Hl' Hst0) in Hj. injection Hj as <-.
    intros Hin. apply narrowed_subseteq in Hin. by apply (Hfirst l' st0). }
  assert (Hsplit : fs = take i fs ++ st' :: drop (S i) fs).
  { symmetry. by apply take_drop_middle. }
  exists sql, σ', fs, i, i2, st', st2'.
  split; [done|].
  pose proof Hsql as Hparts. apply standard_funnel_sql_inv in Hparts
    as (project & destination & uid & sid & ev' & ts & source' & partition' & days'
        & j & _ & _ & _ & _ & _ & _ & _ & _ & _ & ->).
  split; [apply statement_has_step_case|].
  split; [apply statement_has_screen_name_case|].
  split; [done|].
  split.
  { destruct (Forall2_lookup_l _ _ _ _ _ Hfs Hi) as (x & Hx & Hσ).
    rewrite Hfsi in Hx. by injection Hx as <-. }
  split; [done|]. split; [done|]. split; [done|].
  split; [unfold i2; lia|]. split; [done|].
  split.
  { destruct (Forall2_lookup_l _ _ _ _ _ Hfs Hi2) as (x & Hx & Hσ).
    rewrite Hfsi2 in Hx. by injection Hx as <-. }
  split; [by apply (narrowed_keeps_observed wh source partition days σ ls l2 st2 e)|].
  split.
  - unfold step_stage_expr, eval_expr. rewrite Hsplit.
    by rewrite (first_match_arm clk [] (λ st'', IntLit (rank st'')) Null
                  (take i fs) st' (drop (S i) fs) e r).
  - unfold screen_name_expr, eval_expr. rewrite Hsplit.
    by rewrite (first_match_arm clk [] (λ st'', StrLit (screen_name st'')) (Qual ev)
                  (take i fs) st' (drop (S i) fs) e r).
Qed.

Lemma C6_first_match_witness :
  let config := example_config [0%nat; 1%nat] 30 in
  let r := source_row "u1" "s1" "e1" 7776000 in
  validate_config config = Ok true
  ∧ ∃ sql σ' fs i i2 st' st2',
      generate_standard_funnel_sql example_warehouse config overlapping_store
      = (Ok sql, σ')
      ∧ contains sql (join (nl +:+ "        ") (map step_case_line fs))
      ∧ contains sql (join (nl +:+ "        ") (map screen_name_case_line fs))
      ∧ fs !! i = Some st' ∧ σ' !! 0%nat = Some st'
      ∧ "e1" ∈ loaded_events st' ∧ screen_name st' = "A"
      ∧ rank st' = Z.of_nat i + 1
      ∧ (i < i2)%nat ∧ fs !! i2 = Some st2' ∧ σ' !! 1%nat = Some st2'
      ∧ "e1" ∈ loaded_events st2'
      ∧ eval_expr noon [] (step_stage_expr fs) r = VInt (rank st')
      ∧ eval_expr noon [] (screen_name_expr "event" fs) r = VStr "A".
Proof.
  apply (C6_overlapping_events_first_match example_warehouse
           (example_config [0%nat; 1%nat] 30) overlapping_store [0%nat; 1%nat]
           "proj.events.events" "date" 30 "event"
           [] 0%nat [1%nat] (new_step 1 "A" ["e1"]) 1%nat (new_step 2 "B" ["e1"; "e2"])
           "e1" noon (source_row "u1" "s1" "e1" 7776000));
    try reflexivity;
    try (refine (bool_decide_unpack _ _); vm_compute; exact I).
  intros l' st' Hl'. by apply elem_of_nil in Hl'.
Defined.

(** The configuration declares [e1] in both steps; validation returns
    [True] and the generator returns a statement. *)
Lemma C6_ambiguous_mapping_counterexample :
  (∃ a b, overlapping_store !! 0%nat = Some a ∧ overlapping_store !! 1%nat = Some b
          ∧ "e1" ∈ loaded_events a ∧ "e1" ∈ loaded_events b)
  ∧ validate_config (example_config [0%nat; 1%nat] 30) = Ok true
  ∧ is_ok (generate_standard_funnel_sql example_warehouse
             (example_config [0%nat; 1%nat] 30) overlapping_store).1 = true
  ∧ (execute_analysis example_warehouse
       (example_config [0%nat; 1%nat] 30) overlapping_store).1 = Ok true.
Proof.
  split; [|split; [|split]].
  - eexists _, _. repeat split; try reflexivity;
      refine (bool_decide_unpack _ _); vm_compute; exact I.
  - reflexivity.
  - vm_compute. reflexivity.
  - vm_compute. reflexivity.
Qed.

(** ** A lookback of zero days *)






(** ** The columns of the final projection *)

(** C9 (amended): both analyzers project the eighteen [CompiledFunnelRow]
    columns under the same names and in the same order; the unified-loans
    analyzer projects two more columns after them, [total_users] and
    [total_users_first_step]. *)
Theorem C9_final_projection_columns
    config project destination uid sid ev ts source partition days join_clause fs :
  contains (standard_funnel_text config project destination uid sid ev ts source
              partition days join_clause fs)
           (render_items Lower "    " "    " Standard.final_items)
  ∧ contains Unified.final_select_text
             (render_items Lower "    " "    " Unified.final_items)
  ∧ map item_name Standard.final_items = compiled_funnel_row
  ∧ map item_name Unified.final_items
    = compiled_funnel_row ++ ["total_users"; "total_users_first_step"].
Proof.
  split; [apply statement_has_final_select|]. split; [|split; reflexivity].
  apply (contains_join_segment nl 1%nat
           [ "    actor_id,";
             "    null as current_tier,";
             "    null as affluence_v11_flag,";
             "    null as gender,";
             "    null as income_range,";
             "    session_id,";
             "    null as app_version,";
             "    null as operating_system,";
             "    null as entry_point,";
             "    screen_name,";
             "    screen_entry_time,";
             "    cast(step_stage as string) as step,";
             "    step_stage,";
             "    previous_screen_name,";
             "    screen_success_time,";
             "    is_conversion_session,";
             "    time_to_convert,";
             "    current_timestamp() as table_created_at,";
             "    -- Add aggregated fields for Tableau";
             "    COUNT(*) OVER (PARTITION BY step_stage) as total_users,";
             "    COUNT(*) OVER (PARTITION BY 1) as total_users_first_step" ]);
    [done|reflexivity].
Qed.

Lemma C9_same_columns_counterexample :
  map item_name Unified.final_items ≠ map item_name Standard.final_items
  ∧ "total_users" ∈ map item_name Unified.final_items
  ∧ "total_users" ∉ compiled_funnel_row.
Proof.
  split; [|split].
  - intros H. vm_compute in H. discriminate.
  - refine (bool_decide_unpack _ _); vm_compute; exact I.
  - refine (bool_decide_unpack _ _); vm_compute; exact I.
Qed.

Lemma scan_literal_plain a rest :
  free_of quote a = true → free_of backslash a = true →
  scan_literal false (a +:+ "'" +:+ rest) = Some (a, rest).
Proof.
  induction a as [|c a IH]; intros Hq Hb; [reflexivity|].
  cbn [free_of] in Hq, Hb. apply andb_true_iff in Hq as [Hq1 Hq2].
  apply andb_true_iff in Hb as [Hb1 Hb2].
  apply negb_true_iff in Hq1, Hb1.
  change (String c a +:+ "'" +:+ rest) with (String c (a +:+ "'" +:+ rest)).
  cbn [scan_literal]. rewrite Hq1, Hb1, (IH Hq2 Hb2). reflexivity.
Qed.

Lemma quoted_in_list evs e :
  e ∈ evs → contains ("'" +:+ join "', '" evs +:+ "'") ("'" +:+ e +:+ "'").
Proof.
  induction evs as [|x evs IH]; intros Hin; [by apply elem_of_nil in Hin|].
  destruct evs as [|y evs].
  - apply list_elem_of_singleton in Hin as ->. apply contains_refl.
  - rewrite join_cons. apply elem_of_cons in Hin as [->|Hin].
    + exists "", (", '" +:+ join "', '" (y :: evs) +:+ "'").
      repeat rewrite append_assoc. reflexivity.
    + destruct (IH Hin) as (p & q & Hpq).
      exists ("'" +:+ x +:+ "', " +:+ p), q.
      transitivity (("'" +:+ x +:+ "', ") +:+ ("'" +:+ join "', '" (y :: evs) +:+ "'")).
      * repeat rewrite append_assoc. reflexivity.
      * rewrite Hpq. repeat rewrite append_assoc. reflexivity.
Qed.

Lemma case_line_has_name st :
  ∃ pre, screen_name_case_line st = pre +:+ "'" +:+ screen_name st +:+ "'".
Proof.
  exists ("when event in ('" +:+ join "', '" (loaded_events st) +:+ "') then ").
  unfold screen_name_case_line. repeat rewrite append_assoc. reflexivity.
Qed.

Lemma case_line_has_event st e :
  e ∈ loaded_events st → contains (screen_name_case_line st) ("'" +:+ e +:+ "'").
Proof.
  intros He. eapply contains_trans; [|apply (quoted_in_list _ _ He)].
  exists "when event in (", (") then '" +:+ screen_name st +:+ "'").
  unfold screen_name_case_line. repeat rewrite append_assoc. reflexivity.
Qed.

Lemma map_elem {A B} (f : A → B) (l : list A) (x : A) : x ∈ l → f x ∈ map f l.
Proof. intros H. apply list_elem_of_In, in_map. by apply list_elem_of_In. Qed.

(** The statement carries every step's screen name and every declared
    event between single quotes exactly as configured; when a screen name
    has a quote of its own, the literal the statement opens for it closes at
    that quote. *)
Lemma quoted_verbatim_in_statement config fs sql :
  standard_funnel_sql config fs = Ok sql →
  (∀ st, st ∈ fs →
     contains sql ("'" +:+ screen_name st +:+ "'")
     ∧ ∀ e, e ∈ loaded_events st → contains sql ("'" +:+ e +:+ "'"))
  ∧ (∀ st a b, st ∈ fs →
       screen_name st = a +:+ "'" +:+ b →
       free_of quote a = true → free_of backslash a = true →
       ∃ pre post,
         sql = pre +:+ "'" +:+ screen_name st +:+ "'" +:+ post
         ∧ read_string_literal ("'" +:+ screen_name st +:+ "'" +:+ post)
           = Some (a, b +:+ "'" +:+ post)).
Proof.
  intros Hsql.
  apply standard_funnel_sql_inv in Hsql
    as (project & destination & uid & sid & ev' & ts & source & partition & days
        & j & _ & _ & _ & _ & _ & _ & _ & _ & _ & ->).
  set (sql := standard_funnel_text _ _ _ _ _ _ _ _ _ _ _ _).
  assert (Hline : ∀ st, st ∈ fs → contains sql (screen_name_case_line st)).
  { intros st Hst. eapply contains_trans; [apply statement_has_screen_name_case|].
    apply contains_join_elem. by apply map_elem. }
  split.
  - intros st Hst. split.
    + eapply contains_trans; [by apply Hline|].
      destruct (case_line_has_name st) as [pre ->]. apply contains_app_r, contains_refl.
    + intros e He. eapply contains_trans; [by apply Hline|]. by apply case_line_has_event.
  - intros st a b Hst Hname Hq Hb.
    destruct (Hline st Hst) as (p & q & Hpq).
    destruct (case_line_has_name st) as [pre Hpre].
    exists (p +:+ pre), q. split.
    + rewrite Hpq, Hpre. repeat rewrite append_assoc. reflexivity.
    + rewrite Hname. 
      change (read_string_literal ("'" +:+ (a +:+ "'" +:+ b) +:+ "'" +:+ q))
        with (scan_literal false ((a +:+ "'" +:+ b) +:+ "'" +:+ q)).
      repeat rewrite append_assoc. by apply scan_literal_plain.
Qed.

(** ** The percentile statement *)

Lemma percentile_statement_has_select config sql :
  generate_percentiles_sql config = Ok sql →
  contains sql (render_items Upper "    " "  " percentile_items).
Proof.
  unfold generate_percentiles_sql.
  destruct (project_id config); simpl; [|discriminate].
  destruct (destination_dataset config); simpl; [|discriminate].
  destruct (percentiles_table_name config); simpl; [|discriminate].
  intros [= <-].
  apply (contains_join_segment nl 44%nat
           [ "  screen_name,";
             "  CASE ";
             "    WHEN screen_name = 'Tiering - Overview screen' THEN '1 - Tiering - Overview screen'";
             "    WHEN screen_name = 'Tiering - Add money to Fi' THEN '2 - Tiering - Add money to Fi'";
             "    WHEN screen_name = 'Add funds - Enter amount' THEN '3 - Add funds - Enter amount'";
             "    WHEN screen_name = 'Add funds - Payment options' THEN '4 - Add funds - Payment options'";
             "    WHEN screen_name = 'Add funds - Payment success' THEN '5 - Add funds - Payment success'";
             "    WHEN screen_name = 'Tiering - Upgrade screen' THEN '6 - Tiering - Upgrade screen'";
             "    ELSE screen_name";
             "  END AS ordered_screen_name,";
             "  CASE ";
             "    WHEN screen_name = 'Tiering - Overview screen' THEN 1";
             "    WHEN screen_name = 'Tiering - Add money to Fi' THEN 2";
             "    WHEN screen_name = 'Add funds - Enter amount' THEN 3";
             "    WHEN screen_name = 'Add funds - Payment options' THEN 4";
             "    WHEN screen_name = 'Add funds - Payment success' THEN 5";
             "    WHEN screen_name = 'Tiering - Upgrade screen' THEN 6";
             "    ELSE 999";
             "  END AS step_order,";
             "  percentile_25,";
             "  percentile_50,";
             "  percentile_75" ]); [done|reflexivity].
Qed.

(** C5, at two failing inputs.  With the embedded [FUNNEL_CONFIG] and data
    in which the second step never occurs, the funnel compiler ranks
    [Add funds - Enter amount] second, and the percentile statement orders
    it third.  With a configuration whose only step is [Checkout], the
    funnel statement labels its event as step 1, [Checkout], and the
    percentile statement gives [Checkout] the order 999.  The percentile
    statement is the same text for both. *)
Theorem C5_step_order_is_hard_coded :
  (∃ fs σ', check_event_availability no_join_tier_warehouse FUNNEL_CONFIG
              FUNNEL_CONFIG_steps = (Ok fs, σ')
            ∧ fs = [0; 2; 3; 4; 5]%nat
            ∧ σ' !! 2%nat
              = Some (mkStep 2 "Add funds - Enter amount" ["ClickedAddFundsButton"]
                        (Some ["ClickedAddFundsButton"]) (Some 1)))
  ∧ eval_expr noon [] step_order_expr
      [("screen_name", VStr "Add funds - Enter amount")] = VInt 3
  ∧ eval_expr noon [] (step_stage_expr checkout_steps)
      (source_row "u1" "s1" "e1" 7776000) = VInt 1
  ∧ eval_expr noon [] (screen_name_expr "event" checkout_steps)
      (source_row "u1" "s1" "e1" 7776000) = VStr "Checkout"
  ∧ eval_expr noon [] step_order_expr [("screen_name", VStr "Checkout")] = VInt 999
  ∧ (∃ sql, generate_percentiles_sql (example_config [0%nat] 30) = Ok sql
            ∧ contains sql (render_items Upper "    " "  " percentile_items))
  ∧ (∃ sql, generate_percentiles_sql FUNNEL_CONFIG = Ok sql
            ∧ contains sql (render_items Upper "    " "  " percentile_items)).
Proof.
  split.
  { eexists _, _. split; [vm_compute; reflexivity|]. split; reflexivity. }
  do 4 (split; [vm_compute; reflexivity|]).
  split; (eexists; split; [reflexivity|]).
  - by apply (percentile_statement_has_select (example_config [0%nat] 30)).
  - by apply (percentile_statement_has_select FUNNEL_CONFIG).
Qed.

(** ** Availability filtering and the caller's steps *)

(** C8 (amended): availability filtering returns a new list whose elements
    are the caller's own step dictionaries, updated in place: a surviving
    step has its events narrowed to the available ones, the declared events
    kept under [original_events], their count under [event_count], and its
    rank renumbered; every other dictionary is left as it was. *)
Theorem C8_filter_updates_surviving_steps_in_place
    wh config σ ls source partition days :
  steps config = Some (StepList ls) →
  data_source config = Some source →
  partition_column config = Some partition →
  time_period_days config = Some days →
  NoDup ls → allocated σ ls →
  wh_accepts wh (availability_query source partition days (all_events σ ls)) = true →
  let available_events := availability wh source partition days σ ls in
  ∃ fs σ', check_event_availability wh config σ = (Ok fs, σ')
    ∧ fs `sublist_of` ls
    ∧ (∀ l, l ∉ fs → σ' !! l = σ !! l)
    ∧ (∀ i l st, fs !! i = Some l → σ !! l = Some st →
         σ' !! l
         = Some (mkStep (Z.of_nat i + 1) (screen_name st)
                   (available_in available_events (loaded_events st))
                   (Some (loaded_events st))
                   (Some (sum_counts available_events
                            (available_in available_events (loaded_events st)))))).
Proof.
  intros Hsteps Hsrc Hpart Hdays Hnd Hal Hacc available_events.
  destruct (check_event_availability_spec wh _ _ _ _ _ _ Hsteps Hsrc Hpart Hdays Hnd Hal
              Hacc)
    as (σ' & Hrun & Hin & Hout).
  eexists _, σ'. split; [exact Hrun|]. split; [apply sublist_filter|].
  split; [exact Hout|]. intros i l st Hi Hst. by rewrite (Hin i l st Hi Hst).
Qed.

Lemma C8_filter_in_place_witness :
  let available_events :=
    availability example_warehouse "proj.events.events" "date" 30 gappy_store
      [0%nat; 1%nat; 2%nat] in
  ∃ fs σ', check_event_availability example_warehouse
             (example_config [0%nat; 1%nat; 2%nat] 30) gappy_store = (Ok fs, σ')
    ∧ fs `sublist_of` [0%nat; 1%nat; 2%nat]
    ∧ (∀ l, l ∉ fs → σ' !! l = gappy_store !! l)
    ∧ (∀ i l st, fs !! i = Some l → gappy_store !! l = Some st →
         σ' !! l
         = Some (mkStep (Z.of_nat i + 1) (screen_name st)
                   (available_in available_events (loaded_events st))
                   (Some (loaded_events st))
                   (Some (sum_counts available_events
                            (available_in available_events (loaded_events st)))))).
Proof.
  apply (C8_filter_updates_surviving_steps_in_place example_warehouse
           (example_config [0%nat; 1%nat; 2%nat] 30) gappy_store
           [0%nat; 1%nat; 2%nat] "proj.events.events" "date" 30);
    try reflexivity;
    refine (bool_decide_unpack _ _); vm_compute; exact I.
Defined.

(** The call changes the caller's steps, and a second call changes them
    again ([original_events] then holds the narrowed list). *)
Lemma C8_config_unchanged_counterexample :
  ∃ fs σ' fs2 σ2,
    check_event_availability example_warehouse
      (example_config [0%nat; 1%nat; 2%nat] 30) gappy_store = (Ok fs, σ')
    ∧ σ' ≠ gappy_store
    ∧ gappy_store !! 2%nat = Some (new_step 3 "C" ["e3"])
    ∧ σ' !! 2%nat = Some (mkStep 2 "C" ["e3"] (Some ["e3"]) (Some 1))
    ∧ gappy_store !! 0%nat = Some (new_step 1 "A" ["e1"; "e0"])
    ∧ σ' !! 0%nat = Some (mkStep 1 "A" ["e1"] (Some ["e1"; "e0"]) (Some 2))
    ∧ check_event_availability example_warehouse
        (example_config [0%nat; 1%nat; 2%nat] 30) σ' = (Ok fs2, σ2)
    ∧ σ2 !! 0%nat = Some (mkStep 1 "A" ["e1"] (Some ["e1"]) (Some 2)).
Proof.
  eexists _, _, _, _. split; [vm_compute; reflexivity|].
  split.
  { intros Heq. apply (f_equal (λ m : store, m !! 2%nat)) in Heq.
    vm_compute in Heq. discriminate. }
  repeat split; vm_compute; reflexivity.
Qed.

(** ** From the method to the statement *)

Lemma for_each_read_inv ls :
  ∀ σ fs σ', for_each read ls σ = (Ok fs, σ') →
  σ' = σ ∧ Forall2 (λ l st, σ !! l = Some st) ls fs.
Proof.
  induction ls as [|l ls IH]; intros σ fs σ' Hrun.
  - injection Hrun as <- <-. split; [done|constructor].
  - simpl in Hrun. unfold bind at 1, read at 1 in Hrun.
    destruct (σ !! l) as [st|] eqn:Hl; [|discriminate].
    unfold bind at 1 in Hrun.
    destruct (for_each read ls σ) as [[fs'|e] σ''] eqn:Hrest; [|discriminate].
    destruct (IH _ _ _ Hrest) as [-> Hall].
    injection Hrun as <- <-. split; [done|]. by constructor.
Qed.

Lemma generate_standard_funnel_sql_inv wh config σ sql σ' :
  generate_standard_funnel_sql wh config σ = (Ok sql, σ') →
  ∃ ls fs, check_event_availability wh config σ = (Ok ls, σ')
           ∧ Forall2 (λ l st, σ' !! l = Some st) ls fs
           ∧ standard_funnel_sql config fs = Ok sql.
Proof.
  unfold generate_standard_funnel_sql, bind at 1.
  destruct (check_event_availability wh config σ) as [[ls|e] σ1] eqn:Hcheck;
    [|discriminate].
  destruct ls as [|l ls]; [discriminate|].
  unfold bind.
  destruct (for_each read (l :: ls) σ1) as [[fs|e] σ2] eqn:Hread; [|discriminate].
  destruct (for_each_read_inv _ _ _ _ Hread) as [-> Hall].
  unfold lift. intros [= Hsql <-]. eauto.
Qed.

(** C10: the statement that [generate_standard_funnel_sql] returns carries
    the screen name and every declared event of each filtered step between
    single quotes exactly as configured; when a screen name has a quote of
    its own, the literal the statement opens for it closes at that quote. *)
Theorem C10_names_are_quoted_verbatim wh config σ sql σ' ls :
  generate_standard_funnel_sql wh config σ = (Ok sql, σ') →
  check_event_availability wh config σ = (Ok ls, σ') →
  ∀ l st, l ∈ ls → σ' !! l = Some st →
    contains sql ("'" +:+ screen_name st +:+ "'")
    ∧ (∀ e, e ∈ loaded_events st → contains sql ("'" +:+ e +:+ "'"))
    ∧ (∀ a b, screen_name st = a +:+ "'" +:+ b →
         free_of quote a = true → free_of backslash a = true →
         ∃ pre post,
           sql = pre +:+ "'" +:+ screen_name st +:+ "'" +:+ post
           ∧ read_string_literal ("'" +:+ screen_name st +:+ "'" +:+ post)
             = Some (a, b +:+ "'" +:+ post)).
Proof.
  intros Hgen Hcheck l st Hl Hst.
  apply generate_standard_funnel_sql_inv in Hgen as (ls' & fs & Hcheck' & Hall & Hsql).
  assert (ls' = ls) as -> by congruence.
  assert (st ∈ fs) as Hin.
  { apply list_elem_of_lookup in Hl as [i Hi].
    destruct (Forall2_lookup_l _ _ _ _ _ Hall Hi) as (st' & Hi' & Hst').
    assert (st' = st) as -> by congruence. by eapply list_elem_of_lookup_2. }
  destruct (quoted_verbatim_in_statement config fs sql Hsql) as [Hnames Hliteral].
  destruct (Hnames st Hin) as [Hname Hevents].
  split; [done|]. split; [done|]. intros a b. by apply Hliteral.
Qed.

Lemma C10_quoted_verbatim_witness :
  ∃ sql σ',
    generate_standard_funnel_sql apostrophe_warehouse (example_config [0%nat] 30)
      apostrophe_store = (Ok sql, σ')
    ∧ σ' !! 0%nat
      = Some (mkStep 1 "Women's wear" ["view_womens"; "open_womens"]
                (Some ["view_womens"; "open_womens"]) (Some 2))
    ∧ contains sql "'Women's wear'"
    ∧ contains sql "'view_womens'"
    ∧ contains sql "'open_womens'"
    ∧ ∃ pre post,
        sql = pre +:+ "'Women's wear'" +:+ post
        ∧ read_string_literal ("'Women's wear'" +:+ post)
          = Some ("Women", "s wear'" +:+ post).
Proof.
  eexists _, _. split; [vm_compute; reflexivity|]. split; [reflexivity|].
  destruct (C10_names_are_quoted_verbatim apostrophe_warehouse
              (example_config [0%nat] 30) apostrophe_store _ _ [0%nat]
              eq_refl eq_refl 0%nat _ (list_elem_of_here _ _) eq_refl)
    as (Hname & Hevents & Hliteral).
  split; [exact Hname|].
  split; [apply (Hevents "view_womens"); by left|].
  split; [apply (Hevents "open_womens"); right; by left|].
  exact (Hliteral "Women" "s wear" eq_refl eq_refl eq_refl).
Defined.

(** ** What [validate_config] accepts and what it reports *)

Lemma check_required_ok fields :
  check_required fields = Ok tt ↔ Forall (λ p, p.2 = true) fields.
Proof.
  induction fields as [|[field b] fields IH]; simpl.
  - split; [constructor|done].
  - destruct b.
    + rewrite IH. split; [by constructor|]. by intros [_ ?]%Forall_cons.
    + split; [discriminate|]. by intros [? _]%Forall_cons.
Qed.

Lemma check_required_first_missing pre field post :
  Forall (λ p, p.2 = true) pre →
  check_required (pre ++ (field, false) :: post)
  = Raise (ValueError ("Missing required field: " +:+ field)).
Proof.
  induction 1 as [|[f b] pre Hb _ IH]; [done|].
  simpl in Hb. subst b. exact IH.
Qed.

Lemma check_required_value_error fields :
  check_required fields = Ok tt
  ∨ ∃ msg, check_required fields = Raise (ValueError msg).
Proof.
  induction fields as [|[field b] fields IH]; simpl; [by left|].
  destruct b; [exact IH|]. right. by eexists.
Qed.

(** X1: [validate_config] returns [True] exactly when each of the twelve
    required keys is present and [steps] is a non-empty list; in every
    other case it raises [ValueError] - it never returns [False] and never
    raises another exception. *)
Theorem X1_validate_config_accepts_iff config :
  (validate_config config = Ok true
   ↔ Forall (λ p, p.2 = true) (required_fields config)
     ∧ ∃ l ls, steps config = Some (StepList (l :: ls)))
  ∧ (validate_config config = Ok true
     ∨ ∃ msg, validate_config config = Raise (ValueError msg)).
Proof.
  split.
  - split.
    + intros Hv. unfold validate_config in Hv.
      destruct (check_required (required_fields config)) as [[]|e] eqn:Hreq;
        [|discriminate].
      apply check_required_ok in Hreq. split; [done|]. simpl in Hv.
      destruct (steps config) as [[[|l ls]|]|]; try discriminate. eauto.
    + intros [Hall (l & ls & Hsteps)]. by eapply validate_config_present.
  - unfold validate_config.
    destruct (check_required_value_error (required_fields config)) as [->|[msg ->]];
      simpl; [|right; by eexists].
    destruct (steps config) as [[[|l ls]|]|]; try (right; by eexists). by left.
Qed.

(** X2: when keys are missing, the error names the first missing one in the
    order of [required_fields], whatever else is wrong with the
    configuration. *)
Theorem X2_validate_config_reports_first_missing config pre field post :
  required_fields config = pre ++ (field, false) :: post →
  Forall (λ p, p.2 = true) pre →
  validate_config config = Raise (ValueError ("Missing required field: " +:+ field)).
Proof.
  intros Hsplit Hpre. unfold validate_config.
  rewrite Hsplit, check_required_first_missing by done. reflexivity.
Qed.

Lemma X2_first_missing_witness :
  validate_config incomplete_config
  = Raise (ValueError ("Missing required field: " +:+ "data_source")).
Proof.
  apply (X2_validate_config_reports_first_missing incomplete_config
           [ ("funnel_name", true); ("project_id", true); ("source_dataset", true);
             ("destination_dataset", true) ]
           "data_source"
           [ ("user_id_column", true); ("session_id_column", true);
             ("event_column", false); ("timestamp_column", true);
             ("partition_column", true); ("time_period_days", true);
             ("steps", true) ]).
  - reflexivity.
  - repeat constructor.
Defined.

(** ** What [execute_analysis] reports *)

Lemma analysis_unfold wh config σ :
  analysis wh config σ
  = match validate_config config with
    | Raise e => (Raise e, σ)
    | Ok _ =>
        match generate_standard_funnel_sql wh config σ with
        | (Raise e, σ1) => (Raise e, σ1)
        | (Ok sql, σ1) => (after_funnel wh config sql, σ1)
        end
    end.
Proof.
  unfold analysis, after_funnel. unfold bind at 1, lift at 1.
  destruct (validate_config config) as [b|e]; [|done].
  unfold bind at 1.
  destruct (generate_standard_funnel_sql wh config σ) as [[sql|e] σ1]; [|done].
  unfold bind, lift, ret.
  destruct (getitem (funnel_name config) "funnel_name"); [|done]. simpl.
  destruct (submit wh sql); [|done]. simpl.
  destruct (getitem (project_id config) "project_id"); [|done]. simpl.
  destruct (getitem (destination_dataset config) "destination_dataset"); [|done]. simpl.
  destruct (create_percentiles_table config) as [[|]|]; try done.
  destruct (getitem (percentiles_table_name config) "percentiles_table_name"); [|done].
  simpl. destruct (generate_percentiles_sql config) as [psql|]; [|done]. simpl.
  by destruct (submit wh psql).
Qed.

Lemma validate_config_true config b : validate_config config = Ok b → b = true.
Proof.
  unfold validate_config. destruct (check_required _); simpl; [|discriminate].
  destruct (steps config) as [[[|l ls]|]|]; try discriminate. by intros [= <-].
Qed.

Lemma validate_config_funnel_name config :
  validate_config config = Ok true → is_Some (funnel_name config).
Proof.
  unfold validate_config, required_fields. simpl.
  destruct (funnel_name config); [eauto|discriminate].
Qed.

Lemma submit_ok wh statement : submit wh statement = Ok tt ↔ wh_accepts wh statement = true.
Proof. unfold submit. by destruct (wh_accepts wh statement). Qed.

Lemma generate_percentiles_sql_name config psql :
  generate_percentiles_sql config = Ok psql → is_Some (percentiles_table_name config).
Proof.
  unfold generate_percentiles_sql.
  destruct (getitem (project_id config) _); simpl; [|discriminate].
  destruct (getitem (destination_dataset config) _); simpl; [|discriminate].
  destruct (percentiles_table_name config); [eauto|discriminate].
Qed.

Lemma after_funnel_true wh config sql :
  validate_config config = Ok true →
  after_funnel wh config sql = Ok true
  ↔ wh_accepts wh sql = true
    ∧ (create_percentiles_table config = Some true →
       ∃ psql, generate_percentiles_sql config = Ok psql ∧ wh_accepts wh psql = true).
Proof.
  intros Hv. destruct (validate_config_funnel_name _ Hv) as [name Hname].
  apply validate_config_inv in Hv
    as (project & destination & uid & sid & ev & ts & source & partition & days & l & ls
        & H1 & H2 & _).
  unfold after_funnel. rewrite Hname, H1, H2. simpl.
  unfold submit at 1. destruct (wh_accepts wh sql); simpl; [|naive_solver].
  destruct (create_percentiles_table config) as [[|]|]; [|naive_solver..].
  destruct (generate_percentiles_sql config) as [psql|e] eqn:Hp.
  - destruct (generate_percentiles_sql_name _ _ Hp) as [table ->]. simpl.
    unfold submit. destruct (wh_accepts wh psql) eqn:Hacc; simpl.
    + split; [|done]. intros _. split; [done|]. intros _. by exists psql.
    + split; [done|]. intros [_ H]. destruct (H eq_refl) as (psql' & [= <-] & Hacc').
      congruence.
  - destruct (getitem (percentiles_table_name config) _); simpl.
    + split; [done|]. intros [_ H]. by destruct (H eq_refl) as (? & ? & _).
    + split; [done|]. intros [_ H]. by destruct (H eq_refl) as (? & ? & _).
Qed.

Lemma execute_analysis_true wh config σ σ' :
  execute_analysis wh config σ = (Ok true, σ')
  ↔ validate_config config = Ok true
    ∧ ∃ sql, generate_standard_funnel_sql wh config σ = (Ok sql, σ')
        ∧ wh_accepts wh sql = true
        ∧ (create_percentiles_table config = Some true →
           ∃ psql, generate_percentiles_sql config = Ok psql
                   ∧ wh_accepts wh psql = true).
Proof.
  unfold execute_analysis. rewrite analysis_unfold.
  destruct (validate_config config) as [b|e] eqn:Hv.
  - apply validate_config_true in Hv as Hb. subst b.
    destruct (generate_standard_funnel_sql wh config σ) as [[sql|e] σ1].
    + pose proof (after_funnel_true wh config sql Hv) as Hafter.
      destruct (after_funnel wh config sql) as [[|]|e].
      * split.
        -- intros [= <-]. split; [done|]. exists sql. split; [done|].
           by apply Hafter.
        -- intros [_ (sql' & [= <- <-] & _)]. done.
      * split; [discriminate|].
        intros [_ (sql' & [= <- <-] & Hrest)]. by apply Hafter in Hrest.
      * split; [discriminate|].
        intros [_ (sql' & [= <- <-] & Hrest)]. by apply Hafter in Hrest.
    + split; [discriminate|]. by intros [_ (sql & ? & _)].
  - split; [discriminate|]. by intros [? _].
Qed.


(** X9: a configuration that asks for the percentile table without naming
    it makes the run report failure, on every warehouse - although
    [validate_config] does not ask for [percentiles_table_name]. *)
Theorem X9_unnamed_percentiles_table_fails wh config σ :
  create_percentiles_table config = Some true →
  percentiles_table_name config = None →
  (execute_analysis wh config σ).1 = Ok false.
Proof.
  intros Hcreate Hname. unfold execute_analysis. rewrite analysis_unfold.
  destruct (validate_config config); [|done].
  destruct (generate_standard_funnel_sql wh config σ) as [[sql|e] σ1]; [|done].
  unfold after_funnel. rewrite Hcreate, Hname.
  destruct (getitem (funnel_name config) _); [|done]. simpl.
  destruct (submit wh sql); [|done]. simpl.
  destruct (getitem (project_id config) _); [|done]. simpl.
  by destruct (getitem (destination_dataset config) _).
Qed.

Lemma X9_unnamed_percentiles_witness :
  validate_config unnamed_percentiles_config = Ok true
  ∧ is_ok (generate_standard_funnel_sql skipping_warehouse unnamed_percentiles_config
             three_store).1 = true
  ∧ (execute_analysis skipping_warehouse unnamed_percentiles_config three_store).1
    = Ok false.
Proof.
  split; [reflexivity|]. split; [vm_compute; reflexivity|].
  apply (X9_unnamed_percentiles_table_fails skipping_warehouse
           unnamed_percentiles_config three_store); reflexivity.
Defined.

(** ** Runs that stop before any step is rewritten *)

Lemma check_event_availability_rejected wh config σ ls source partition days :
  steps config = Some (StepList ls) →
  data_source config = Some source →
  partition_column config = Some partition →
  time_period_days config = Some days →
  allocated σ ls →
  wh_accepts wh (availability_query source partition days (all_events σ ls)) = false →
  check_event_availability wh config σ
  = (Raise (EngineError (availability_query source partition days (all_events σ ls))), σ).
Proof.
  intros Hsteps Hsrc Hpart Hdays Hal Hacc.
  unfold check_event_availability, iter_steps, lift.
  rewrite Hsteps, Hsrc, Hpart, Hdays. simpl.
  unfold bind at 1. simpl.
  rewrite (bind_ok _ _ _ _ _ (collect_events_spec ls σ Hal)).
  unfold bind at 1. simpl. unfold bind at 1. simpl. unfold bind at 1. simpl.
  fold (all_events σ ls). unfold submit. rewrite Hacc.
  unfold bind at 1. simpl. done.
Qed.

(** X3: when the engine rejects the count query, [check_event_availability]
    and [generate_standard_funnel_sql] raise with every step dictionary
    untouched, and [execute_analysis] reports failure. *)
Theorem X3_rejected_count_query_changes_nothing
    wh config σ ls source partition days :
  steps config = Some (StepList ls) →
  data_source config = Some source →
  partition_column config = Some partition →
  time_period_days config = Some days →
  allocated σ ls →
  wh_accepts wh (availability_query source partition days (all_events σ ls)) = false →
  let e := EngineError (availability_query source partition days (all_events σ ls)) in
  check_event_availability wh config σ = (Raise e, σ)
  ∧ generate_standard_funnel_sql wh config σ = (Raise e, σ)
  ∧ execute_analysis wh config σ = (Ok false, σ).
Proof.
  intros Hsteps Hsrc Hpart Hdays Hal Hacc e.
  pose proof (check_event_availability_rejected _ _ _ _ _ _ _ Hsteps Hsrc Hpart Hdays
                Hal Hacc) as Hcheck.
  assert (Hgen : generate_standard_funnel_sql wh config σ = (Raise e, σ)).
  { unfold generate_standard_funnel_sql, bind at 1. by rewrite Hcheck. }
  split; [done|]. split; [done|].
  unfold execute_analysis. rewrite analysis_unfold, Hgen.
  by destruct (validate_config config).
Qed.

Lemma X3_rejected_count_query_witness :
  let e := EngineError (availability_query "proj.events.events" "date" 30
                          (all_events three_store [0%nat; 1%nat; 2%nat])) in
  check_event_availability refusing_warehouse
    (example_config [0%nat; 1%nat; 2%nat] 30) three_store = (Raise e, three_store)
  ∧ generate_standard_funnel_sql refusing_warehouse
      (example_config [0%nat; 1%nat; 2%nat] 30) three_store = (Raise e, three_store)
  ∧ execute_analysis refusing_warehouse
      (example_config [0%nat; 1%nat; 2%nat] 30) three_store = (Ok false, three_store).
Proof.
  apply (X3_rejected_count_query_changes_nothing refusing_warehouse
           (example_config [0%nat; 1%nat; 2%nat] 30) three_store
           [0%nat; 1%nat; 2%nat] "proj.events.events" "date" 30);
    try reflexivity.
  refine (bool_decide_unpack _ _). vm_compute. exact I.
Defined.

(** X6: when none of the declared events was observed, no step survives:
    [check_event_availability] returns the empty list without touching a
    dictionary, [generate_standard_funnel_sql] raises [ValueError], and
    [execute_analysis] reports failure. *)
Theorem X6_no_observed_event_no_funnel wh config σ ls source partition days :
  steps config = Some (StepList ls) →
  data_source config = Some source →
  partition_column config = Some partition →
  time_period_days config = Some days →
  NoDup ls → allocated σ ls →
  wh_accepts wh (availability_query source partition days (all_events σ ls)) = true →
  (∀ l, l ∈ ls → ¬ has_observed_event wh source partition days σ l) →
  check_event_availability wh config σ = (Ok [], σ)
  ∧ generate_standard_funnel_sql wh config σ
    = (Raise (ValueError "No steps with available events found. Check your event names."),
       σ)
  ∧ execute_analysis wh config σ = (Ok false, σ).
Proof.
  intros Hsteps Hsrc Hpart Hdays Hnd Hal Hacc Hnone.
  destruct (check_event_availability_spec wh _ _ _ _ _ _ Hsteps Hsrc Hpart Hdays Hnd Hal
              Hacc) as (σ' & Hrun & _ & Hout).
  rewrite filter_none in Hrun, Hout.
  2,3: intros l Hl Hs; by apply (survives_iff _ _ _ _ _ _ _ Hl), Hnone in Hs.
  assert (σ' = σ) as ->.
  { apply map_eq. intros l. apply Hout, not_elem_of_nil. }
  assert (Hgen : generate_standard_funnel_sql wh config σ
                 = (Raise (ValueError
                      "No steps with available events found. Check your event names."),
                    σ)).
  { unfold generate_standard_funnel_sql, bind at 1. by rewrite Hrun. }
  split; [done|]. split; [done|].
  unfold execute_analysis. rewrite analysis_unfold, Hgen.
  by destruct (validate_config config).
Qed.

Lemma X6_no_observed_event_witness :
  check_event_availability empty_warehouse
    (example_config [0%nat; 1%nat; 2%nat] 30) three_store = (Ok [], three_store)
  ∧ generate_standard_funnel_sql empty_warehouse
      (example_config [0%nat; 1%nat; 2%nat] 30) three_store
    = (Raise (ValueError "No steps with available events found. Check your event names."),
       three_store)
  ∧ execute_analysis empty_warehouse
      (example_config [0%nat; 1%nat; 2%nat] 30) three_store = (Ok false, three_store).
Proof.
  apply (X6_no_observed_event_no_funnel empty_warehouse
           (example_config [0%nat; 1%nat; 2%nat] 30) three_store
           [0%nat; 1%nat; 2%nat] "proj.events.events" "date" 30);
    try reflexivity.
  - refine (bool_decide_unpack _ _). vm_compute. exact I.
  - refine (bool_decide_unpack _ _). vm_compute. exact I.
  - intros l _ (st & e & _ & _ & Hpos). vm_compute in Hpos. discriminate.
Defined.

(** ** Validation is enough for the funnel statement *)

Lemma ranks_by_position_dense fs : ranks_by_position fs → dense_ranks fs.
Proof.
  intros Hpos. unfold dense_ranks. apply list_eq. intros i.
  change (map ?f ?l) with (f <$> l). rewrite !list_lookup_fmap.
  destruct (fs !! i) as [st|] eqn:Hi; simpl.
  - rewrite lookup_seq_lt by (by eapply lookup_lt_Some). simpl.
    by rewrite (Hpos _ _ Hi).
  - rewrite lookup_seq_ge; [done|]. by apply lookup_ge_None.
Qed.

(** X7: [validate_config] checks the configuration's fields only, never
    the keys of a step.  For a configuration it accepts whose steps are all
    dictionaries carrying [rank], [screen_name] and [loaded_events]
    ([allocated]: every entry of the list is a complete step), when the
    engine answers the count query and one declared event was observed,
    [generate_standard_funnel_sql] returns the statement, built from at
    least one step, with ranks 1, 2, ... in the order of the returned
    steps. *)
Theorem X7_validated_config_compiles wh config σ ls source partition days :
  validate_config config = Ok true →
  steps config = Some (StepList ls) →
  data_source config = Some source →
  partition_column config = Some partition →
  time_period_days config = Some days →
  NoDup ls → allocated σ ls →
  wh_accepts wh (availability_query source partition days (all_events σ ls)) = true →
  (∃ l, l ∈ ls ∧ has_observed_event wh source partition days σ l) →
  ∃ sql σ' fs,
    generate_standard_funnel_sql wh config σ = (Ok sql, σ')
    ∧ standard_funnel_sql config fs = Ok sql
    ∧ fs ≠ [] ∧ dense_ranks fs.
Proof.
  intros Hv Hsteps Hsrc Hpart Hdays Hnd Hal Hacc Hobs.
  destruct (generate_standard_funnel_sql_returns wh config σ ls source partition days
              Hv Hsteps Hsrc Hpart Hdays Hnd Hal Hacc Hobs)
    as (sql & σ' & fs & Hgen & _ & Hfs & Hsql & Hat).
  destruct Hobs as (l0 & Hl0 & Hobs).
  set (locs := filter _ ls) in *.
  assert (Hl0' : l0 ∈ locs).
  { apply list_elem_of_filter. split; [|done]. by apply (survives_iff _ _ _ _ _ _ _ Hl0). }
  exists sql, σ', fs. split; [done|split; [done|split]].
  - intros ->. apply Forall2_nil_inv_r in Hfs. rewrite Hfs in Hl0'.
    by apply elem_of_nil in Hl0'.
  - apply ranks_by_position_dense. intros i st Hi.
    destruct (Forall2_lookup_r _ _ _ _ _ Hfs Hi) as (l & Hl & Hst).
    assert (l ∈ ls) as Hlls.
    { apply list_elem_of_lookup_2, list_elem_of_filter in Hl. tauto. }
    unfold allocated in Hal. rewrite Forall_forall in Hal.
    destruct (Hal l Hlls) as [st0 Hst0].
    rewrite (Hat _ _ _ Hl Hst0) in Hi. by injection Hi as <-.
Qed.

Lemma X7_validated_config_witness :
  ∃ sql σ' fs,
    generate_standard_funnel_sql skipping_warehouse
      (example_config [0%nat; 1%nat; 2%nat] 30) three_store = (Ok sql, σ')
    ∧ standard_funnel_sql (example_config [0%nat; 1%nat; 2%nat] 30) fs = Ok sql
    ∧ fs ≠ [] ∧ dense_ranks fs.
Proof.
  apply (X7_validated_config_compiles skipping_warehouse
           (example_config [0%nat; 1%nat; 2%nat] 30) three_store
           [0%nat; 1%nat; 2%nat] "proj.events.events" "date" 30);
    try reflexivity.
  - refine (bool_decide_unpack _ _). vm_compute. exact I.
  - refine (bool_decide_unpack _ _). vm_compute. exact I.
  - exists 0%nat. split; [by left|].
    exists (new_step 1 "A" ["e1"]), "e1".
    split; [reflexivity|]. split; [by left|]. vm_compute. reflexivity.
Defined.

(** ** What a surviving step holds, in terms of the data *)

Section availability.

Context (wh : Warehouse) (source partition : string) (days : Z)
        (σ : store) (ls : list loc).

Let available_events := availability wh source partition days σ ls.

Lemma availability_lookup l st e :
  l ∈ ls → σ !! l = Some st → e ∈ loaded_events st →
  available_events !! e
  = if decide (observed_count wh source partition days e = 0) then None
    else Some (observed_count wh source partition days e).
Proof.
  intros Hl Hst He. unfold available_events, availability.
  apply available_lookup. by eapply elem_of_all_events.
Qed.

Lemma available_in_observed l st :
  l ∈ ls → σ !! l = Some st →
  available_in available_events (loaded_events st)
  = observed_events wh source partition days (loaded_events st).
Proof.
  intros Hl Hst. unfold available_in, observed_events.
  apply filter_ext_elem. intros e He.
  rewrite (availability_lookup _ _ _ Hl Hst He).
  pose proof (observed_count_nonneg wh source partition days e).
  case_decide.
  - split; [by intros [? ?]|lia].
  - split; [lia|by eexists].
Qed.

Lemma sum_counts_observed l st evs :
  l ∈ ls → σ !! l = Some st → evs ⊆ loaded_events st →
  sum_counts available_events evs = total_observed wh source partition days evs.
Proof.
  intros Hl Hst. unfold sum_counts, total_observed.
  induction evs as [|e evs IH]; intros Hsub; [done|].
  simpl. rewrite IH by (intros x Hx; apply Hsub; by right). f_equal.
  unfold count_of. rewrite (availability_lookup _ _ _ Hl Hst) by (apply Hsub; left).
  by case_decide.
Qed.

End availability.

Lemma total_observed_pos wh source partition days evs :
  Forall (λ e, 0 < observed_count wh source partition days e) evs →
  Z.of_nat (length evs) ≤ total_observed wh source partition days evs.
Proof.
  unfold total_observed. induction 1 as [|e evs He _ IH]; simpl; lia.
Qed.

(** X4: a surviving step is left with exactly its declared events that were
    observed in the lookback window, in their declared order; this list is
    never empty, [event_count] is the number of source rows that carry one
    of them (counted once per listing) and is at least their number, and
    [original_events] and [screen_name] are what the step had on entry. *)
Theorem X4_surviving_step_holds_observed_events
    wh config σ ls source partition days :
  steps config = Some (StepList ls) →
  data_source config = Some source →
  partition_column config = Some partition →
  time_period_days config = Some days →
  NoDup ls → allocated σ ls →
  wh_accepts wh (availability_query source partition days (all_events σ ls)) = true →
  ∃ fs σ', check_event_availability wh config σ = (Ok fs, σ')
    ∧ ∀ l, l ∈ fs →
        ∃ st st' n, σ !! l = Some st ∧ σ' !! l = Some st'
          ∧ loaded_events st'
            = observed_events wh source partition days (loaded_events st)
          ∧ loaded_events st' ≠ []
          ∧ event_count st' = Some n
          ∧ n = total_observed wh source partition days (loaded_events st')
          ∧ Z.of_nat (length (loaded_events st')) ≤ n
          ∧ original_events st' = Some (loaded_events st)
          ∧ screen_name st' = screen_name st.
Proof.
  intros Hsteps Hsrc Hpart Hdays Hnd Hal Hacc.
  destruct (check_event_availability_spec wh _ _ _ _ _ _ Hsteps Hsrc Hpart Hdays Hnd Hal
              Hacc) as (σ' & Hrun & Hin & _).
  eexists _, σ'. split; [exact Hrun|]. intros l Hl.
  apply list_elem_of_filter in Hl as Hl'. destruct Hl' as [Hsurv Hls].
  apply list_elem_of_lookup in Hl as [i Hi].
  unfold allocated in Hal. rewrite Forall_forall in Hal.
  destruct (Hal l Hls) as [st Hst].
  pose proof (Hin _ _ _ Hi Hst) as Hst'.
  pose proof (available_in_observed wh source partition days σ ls l st Hls Hst) as Hav.
  exists st, (set_rank (Z.of_nat i + 1)
                (narrowed (availability wh source partition days σ ls) st)).
  eexists. split; [done|]. split; [exact Hst'|]. simpl.
  split; [exact Hav|]. split.
  { unfold survives in Hsurv. rewrite Hst in Hsurv.
    by destruct (available_in _ (loaded_events st)). }
  split; [reflexivity|]. rewrite Hav.
  assert (Hsub : observed_events wh source partition days (loaded_events st)
                 ⊆ loaded_events st).
  { intros e He. apply list_elem_of_filter in He. tauto. }
  split; [by eapply sum_counts_observed|].
  split; [|done].
  rewrite (sum_counts_observed wh source partition days σ ls l st _ Hls Hst Hsub).
  apply total_observed_pos. apply Forall_forall. intros e He.
  apply list_elem_of_filter in He. tauto.
Qed.

Lemma X4_surviving_step_witness :
  ∃ fs σ', check_event_availability example_warehouse
             (example_config [0%nat; 1%nat; 2%nat] 30) gappy_store = (Ok fs, σ')
    ∧ ∀ l, l ∈ fs →
        ∃ st st' n, gappy_store !! l = Some st ∧ σ' !! l = Some st'
          ∧ loaded_events st'
            = observed_events example_warehouse "proj.events.events" "date" 30
                (loaded_events st)
          ∧ loaded_events st' ≠ []
          ∧ event_count st' = Some n
          ∧ n = total_observed example_warehouse "proj.events.events" "date" 30
                  (loaded_events st')
          ∧ Z.of_nat (length (loaded_events st')) ≤ n
          ∧ original_events st' = Some (loaded_events st)
          ∧ screen_name st' = screen_name st.
Proof.
  apply (X4_surviving_step_holds_observed_events example_warehouse
           (example_config [0%nat; 1%nat; 2%nat] 30) gappy_store
           [0%nat; 1%nat; 2%nat] "proj.events.events" "date" 30);
    try reflexivity.
  - refine (bool_decide_unpack _ _). vm_compute. exact I.
  - refine (bool_decide_unpack _ _). vm_compute. exact I.
Defined.

(** ** Running the availability check again *)

Lemma has_observed_event_after wh source partition days σ σ' ls (fs : list loc) :
  (∀ i l st, fs !! i = Some l → σ !! l = Some st →
     σ' !! l = Some (set_rank (Z.of_nat i + 1)
                       (narrowed (availability wh source partition days σ ls) st))) →
  (∀ l, l ∉ fs → σ' !! l = σ !! l) →
  (∀ l, l ∈ fs ↔ l ∈ ls ∧ has_observed_event wh source partition days σ l) →
  ∀ l, l ∈ ls →
    has_observed_event wh source partition days σ' l
    ↔ has_observed_event wh source partition days σ l.
Proof.
  intros Hin Hout Hfs l Hl.
  destruct (decide (l ∈ fs)) as [Hlf|Hlf].
  - split; [intros _; by apply Hfs|]. intros (st & e & Hst & He & Hpos).
    apply list_elem_of_lookup in Hlf as [i Hi].
    exists (set_rank (Z.of_nat i + 1)
              (narrowed (availability wh source partition days σ ls) st)), e.
    split; [by apply Hin|]. split; [|done]. simpl.
    rewrite (available_in_observed _ _ _ _ _ _ _ _ Hl Hst).
    by apply list_elem_of_filter.
  - unfold has_observed_event. by rewrite (Hout l Hlf).
Qed.

Lemma second_check_same_steps
    wh config σ ls source partition days fs σ' :
  steps config = Some (StepList ls) →
  data_source config = Some source →
  partition_column config = Some partition →
  time_period_days config = Some days →
  NoDup ls → allocated σ ls →
  wh_accepts wh (availability_query source partition days (all_events σ ls)) = true →
  check_event_availability wh config σ = (Ok fs, σ') →
  wh_accepts wh (availability_query source partition days (all_events σ' ls)) = true →
  ∃ σ'', check_event_availability wh config σ' = (Ok fs, σ'')
    ∧ (∀ l, l ∉ fs → σ'' !! l = σ' !! l)
    ∧ (∀ l st', l ∈ fs → σ' !! l = Some st' →
         σ'' !! l = Some (set_original_events (loaded_events st') st')).
Proof.
  intros Hsteps Hsrc Hpart Hdays Hnd Hal Hacc Hrun Hacc'.
  destruct (check_event_availability_spec wh _ _ _ _ _ _ Hsteps Hsrc Hpart Hdays Hnd Hal
              Hacc) as (σ1 & Hrun1 & Hin & Hout).
  rewrite Hrun in Hrun1. injection Hrun1 as Hfs <-.
  rewrite <- Hfs in Hin, Hout.
  assert (Hmem : ∀ l, l ∈ fs ↔ l ∈ ls ∧ has_observed_event wh source partition days σ l).
  { intros l. rewrite Hfs, list_elem_of_filter. split.
    - intros [Hs Hl]. split; [done|]. by apply (survives_iff _ _ _ _ _ _ _ Hl).
    - intros [Hl Hs]. split; [|done]. by apply (survives_iff _ _ _ _ _ _ _ Hl). }
  assert (Hal' : allocated σ' ls).
  { apply Forall_forall. intros l Hl.
    unfold allocated in Hal. rewrite Forall_forall in Hal.
    destruct (Hal l Hl) as [st Hst].
    destruct (decide (l ∈ fs)) as [Hlf|Hlf].
    - apply list_elem_of_lookup in Hlf as [i Hi]. rewrite (Hin _ _ _ Hi Hst). eauto.
    - rewrite (Hout l Hlf), Hst. eauto. }
  destruct (check_event_availability_spec wh _ _ _ _ _ _ Hsteps Hsrc Hpart Hdays Hnd Hal'
              Hacc') as (σ'' & Hrun2 & Hin2 & Hout2).
  assert (Hfs2 : filter (λ l, survives (availability wh source partition days σ' ls) σ' l
                              = true) ls = fs).
  { rewrite Hfs. apply filter_ext_elem. intros l Hl.
    rewrite !(survives_iff _ _ _ _ _ _ _ Hl).
    by apply (has_observed_event_after _ _ _ _ σ σ' ls fs). }
  rewrite Hfs2 in Hrun2, Hin2, Hout2.
  exists σ''. split; [exact Hrun2|]. split; [exact Hout2|].
  intros l st' Hlf Hst'.
  apply list_elem_of_lookup in Hlf as Hi. destruct Hi as [i Hi].
  rewrite (Hin2 _ _ _ Hi Hst'). f_equal.
  assert (Hl : l ∈ ls) by (by apply Hmem).
  unfold allocated in Hal. rewrite Forall_forall in Hal.
  destruct (Hal l Hl) as [st Hst].
  pose proof (Hin _ _ _ Hi Hst) as Hst1. rewrite Hst' in Hst1. injection Hst1 as Hst1.
  assert (Hobs : Forall (λ e, 0 < observed_count wh source partition days e)
                   (loaded_events st')).
  { rewrite Hst1. simpl. rewrite (available_in_observed _ _ _ _ _ _ _ _ Hl Hst).
    apply Forall_forall. intros e He. apply list_elem_of_filter in He. tauto. }
  assert (Hsame : available_in (availability wh source partition days σ' ls)
                    (loaded_events st') = loaded_events st').
  { rewrite (available_in_observed _ _ _ _ _ _ _ _ Hl Hst').
    apply filter_all. by apply Forall_forall. }
  unfold narrowed, set_rank, set_original_events. simpl. rewrite Hsame.
  f_equal.
  - rewrite Hst1. reflexivity.
  - rewrite (sum_counts_observed _ _ _ _ σ' ls l st' _ Hl Hst') by done.
    rewrite Hst1. simpl.
    rewrite (sum_counts_observed _ _ _ _ σ ls l st _ Hl Hst); [done|].
    intros e He. unfold available_in in He. apply list_elem_of_filter in He. tauto.
Qed.

(** X5: a second availability check on the same configuration and data
    returns the same steps with the same ranks, events and counts; the only
    change is that [original_events] of a surviving step now holds the
    narrowed list, so the events declared at first are no longer there. *)
Theorem X5_second_check_returns_same_steps
    wh config σ ls source partition days fs σ' :
  steps config = Some (StepList ls) →
  data_source config = Some source →
  partition_column config = Some partition →
  time_period_days config = Some days →
  NoDup ls → allocated σ ls →
  wh_accepts wh (availability_query source partition days (all_events σ ls)) = true →
  check_event_availability wh config σ = (Ok fs, σ') →
  wh_accepts wh (availability_query source partition days (all_events σ' ls)) = true →
  ∃ σ'', check_event_availability wh config σ' = (Ok fs, σ'')
    ∧ (∀ l, l ∉ fs → σ'' !! l = σ' !! l)
    ∧ (∀ l st', l ∈ fs → σ' !! l = Some st' →
         σ'' !! l = Some (set_original_events (loaded_events st') st')).
Proof. apply second_check_same_steps. Qed.

Lemma X5_second_check_witness :
  ∃ fs σ' σ'',
    check_event_availability example_warehouse
      (example_config [0%nat; 1%nat; 2%nat] 30) gappy_store = (Ok fs, σ')
    ∧ check_event_availability example_warehouse
        (example_config [0%nat; 1%nat; 2%nat] 30) σ' = (Ok fs, σ'')
    ∧ (∀ l, l ∉ fs → σ'' !! l = σ' !! l)
    ∧ (∀ l st', l ∈ fs → σ' !! l = Some st' →
         σ'' !! l = Some (set_original_events (loaded_events st') st')).
Proof.
  eexists _, _.
  assert (Hrun : check_event_availability example_warehouse
                   (example_config [0%nat; 1%nat; 2%nat] 30) gappy_store
                 = (Ok _, _)) by (vm_compute; reflexivity).
  destruct (X5_second_check_returns_same_steps example_warehouse
              (example_config [0%nat; 1%nat; 2%nat] 30) gappy_store
              [0%nat; 1%nat; 2%nat] "proj.events.events" "date" 30 _ _
              eq_refl eq_refl eq_refl eq_refl
              ltac:(refine (bool_decide_unpack _ _); vm_compute; exact I)
              ltac:(refine (bool_decide_unpack _ _); vm_compute; exact I)
              eq_refl Hrun eq_refl) as (σ'' & H).
  exists σ''. split; [exact Hrun|exact H].
Defined.

(** ** Where a row of [STANDARD_FUNNEL] comes from *)

Lemma elem_of_concat_imap {A B} (f : nat → A → list B) (l : list A) (x : B) :
  x ∈ concat (imap f l) ↔ ∃ i y, l !! i = Some y ∧ x ∈ f i y.
Proof.
  revert f. induction l as [|y l IH]; intros f; simpl.
  - split; [by intros ?%elem_of_nil|by intros (i & z & ? & _)].
  - rewrite elem_of_app, IH. split.
    + intros [Hx|(i & z & Hi & Hx)]; [by exists 0%nat, y|by exists (S i), z].
    + intros ([|i] & z & Hi & Hx); simpl in Hi.
      * injection Hi as <-. by left.
      * right. by exists i, z.
Qed.

Lemma standard_funnel_table_elem clk fs fc o :
  o ∈ standard_funnel_table clk fs fc
  ↔ ∃ i st r, fs !! i = Some st ∧ r ∈ fc
      ∧ sql_ge (get "step_stage" r) (VInt (rank st)) = true
      ∧ o = project clk [] final_items (project clk [] (completion_items fs i st) r).
Proof.
  unfold standard_funnel_table. rewrite select_final.
  rewrite list_elem_of_fmap. unfold funnel_completed. split.
  - intros (o' & -> & Ho').
    apply elem_of_concat_imap in Ho' as (i & st & Hi & Ho').
    rewrite select_completion in Ho'.
    apply list_elem_of_fmap in Ho' as (r & -> & Hr).
    apply list_elem_of_filter in Hr as [Hge Hr].
    rewrite completion_where_holds in Hge. by exists i, st, r.
  - intros (i & st & r & Hi & Hr & Hge & ->).
    eexists. split; [reflexivity|].
    apply elem_of_concat_imap. exists i, st. split; [done|].
    rewrite select_completion. apply list_elem_of_fmap. exists r. split; [done|].
    apply list_elem_of_filter. by rewrite completion_where_holds.
Qed.

(** X10: every row of the compiled table carries the rank and the screen
    name of one and the same surviving step, that rank as text in [step],
    the creation time of the run, and the actor, session, segmentation and
    extraction values of a canonical row at that step or beyond: the table
    invents no actor and no step. *)
Theorem X10_output_row_is_backed_by_canonical_row clk fs fc o :
  o ∈ standard_funnel_table clk fs fc →
  ∃ i st r, fs !! i = Some st ∧ r ∈ fc
    ∧ sql_ge (get "step_stage" r) (VInt (rank st)) = true
    ∧ get "step_stage" o = VInt (rank st)
    ∧ get "screen_name" o = VStr (screen_name st)
    ∧ get "step" o = VStr (str_of_int (rank st))
    ∧ get "table_created_at" o = VTs (now clk)
    ∧ ∀ c, c ∈ carried_columns → get c o = get c r.
Proof.
  intros (i & st & r & Hi & Hr & Hge & ->)%standard_funnel_table_elem.
  exists i, st, r. do 7 (split; [done|]).
  intros c Hc. unfold carried_columns in Hc.
  repeat (apply elem_of_cons in Hc as [->|Hc]; [reflexivity|]).
  by apply elem_of_nil in Hc.
Qed.

Lemma X10_output_row_witness :
  let o := project noon [] final_items
             (project noon [] (completion_items three_steps 1 (new_step 2 "B" ["e2"]))
                third_row) in
  ∃ i st r, three_steps !! i = Some st ∧ r ∈ skipping_session
    ∧ sql_ge (get "step_stage" r) (VInt (rank st)) = true
    ∧ get "step_stage" o = VInt (rank st)
    ∧ get "screen_name" o = VStr (screen_name st)
    ∧ get "step" o = VStr (str_of_int (rank st))
    ∧ get "table_created_at" o = VTs (now noon)
    ∧ ∀ c, c ∈ carried_columns → get c o = get c r.
Proof.
  apply (X10_output_row_is_backed_by_canonical_row noon three_steps skipping_session).
  refine (bool_decide_unpack _ _). vm_compute. exact I.
Defined.

(** ** The shape of the funnel *)

Lemma at_step_branch clk fs fc k i st :
  at_step (select clk (completion_items fs i st) (completion_where st) fc) k
  = if decide (k = rank st)
    then map (project clk [] (completion_items fs i st)) (beyond fc k)
    else [].
Proof.
  rewrite select_completion. unfold at_step. rewrite filter_map_comm, list_filter_filter.
  case_decide as Hk.
  - subst k. f_equal. unfold beyond. apply list_filter_iff. intros r.
    rewrite completion_where_holds. cbn [get project map]. naive_solver.
  - rewrite filter_none; [done|]. intros r _ Hr. destruct Hr as [Hst _].
    cbn in Hst. congruence.
Qed.

Lemma at_step_table clk fs fc i st :
  ranks_by_position fs → fs !! i = Some st →
  length (at_step (standard_funnel_table clk fs fc) (rank st))
  = length (beyond fc (rank st)).
Proof.
  intros Hpos Hi. unfold standard_funnel_table. rewrite select_final.
  unfold at_step at 1. rewrite filter_map_comm, length_map.
  change (filter _ (funnel_completed clk fs fc))
    with (at_step (funnel_completed clk fs fc) (rank st)).
  unfold at_step, funnel_completed. rewrite filter_concat, map_imap.
  rewrite (concat_imap_single _ fs i st Hi).
  - fold (at_step (select clk (completion_items fs i st) (completion_where st) fc)
                  (rank st)).
    by rewrite at_step_branch, decide_True, length_map.
  - intros j st' Hj Hne.
    fold (at_step (select clk (completion_items fs j st') (completion_where st') fc)
                  (rank st)).
    rewrite at_step_branch, decide_False; [done|].
    rewrite (Hpos _ _ Hi), (Hpos _ _ Hj). lia.
Qed.

Lemma rows_of_table clk fs fc a s i st :
  ranks_by_position fs → fs !! i = Some st →
  length (rows_of (standard_funnel_table clk fs fc) a s (rank st))
  = length (reached fc a s (rank st)).
Proof.
  intros Hpos Hi.
  by rewrite rows_of_final, length_map, (rows_of_completed clk fs Hpos fc a s _ i st),
    length_map.
Qed.

Lemma length_filter_mono {A} (P Q : A → Prop) `{!∀ x, Decision (P x)}
    `{!∀ x, Decision (Q x)} (l : list A) :
  (∀ x, P x → Q x) → (length (filter P l) ≤ length (filter Q l))%nat.
Proof.
  intros Himp. induction l as [|x l IH]; [done|]. rewrite !filter_cons.
  destruct (decide (P x)) as [HP|HP], (decide (Q x)) as [HQ|HQ]; simpl; try lia.
  by apply Himp in HP.
Qed.

Lemma sql_ge_int_mono v j k : j ≤ k → sql_ge v (VInt k) = true → sql_ge v (VInt j) = true.
Proof. destruct v; simpl; try done. rewrite !Z.leb_le. lia. Qed.

Lemma step_at_rank fs k :
  ranks_by_position fs → 1 ≤ k ≤ Z.of_nat (length fs) →
  ∃ i st, fs !! i = Some st ∧ rank st = k.
Proof.
  intros Hpos Hk.
  destruct (lookup_lt_is_Some_2 fs (Z.to_nat (k - 1))) as [st Hst]; [lia|].
  exists (Z.to_nat (k - 1)), st. split; [done|]. rewrite (Hpos _ _ Hst). lia.
Qed.

(** X11: the funnel never widens.  With the ranks 1..K that the
    availability check leaves, the table holds at a step at least as many
    rows as at any later step - in all, and for each actor and session. *)
Theorem X11_funnel_never_widens clk fs fc a s j k :
  dense_ranks fs →
  1 ≤ j → j ≤ k → k ≤ Z.of_nat (length fs) →
  let tbl := standard_funnel_table clk fs fc in
  (length (at_step tbl k) ≤ length (at_step tbl j))%nat
  ∧ (length (rows_of tbl a s k) ≤ length (rows_of tbl a s j))%nat.
Proof.
  intros Hdense Hj Hjk Hk tbl. apply dense_ranks_lookup in Hdense.
  destruct (step_at_rank fs j Hdense) as (ij & stj & Hij & <-); [lia|].
  destruct (step_at_rank fs k Hdense) as (ik & stk & Hik & <-); [lia|].
  unfold tbl. rewrite !(at_step_table _ _ _ _ _ Hdense Hij),
    !(at_step_table _ _ _ _ _ Hdense Hik),
    !(rows_of_table _ _ _ _ _ _ _ Hdense Hij), !(rows_of_table _ _ _ _ _ _ _ Hdense Hik).
  split.
  - apply length_filter_mono. intros r. by apply sql_ge_int_mono.
  - apply length_filter_mono. intros r (? & ? & Hge). repeat split; try done.
    by eapply sql_ge_int_mono.
Qed.

Lemma X11_funnel_never_widens_witness :
  let tbl := standard_funnel_table noon three_steps skipping_session in
  (length (at_step tbl 3) ≤ length (at_step tbl 1))%nat
  ∧ (length (rows_of tbl (VStr "u1") (VStr "s1") 3)
     ≤ length (rows_of tbl (VStr "u1") (VStr "s1") 1))%nat.
Proof.
  apply (X11_funnel_never_widens noon three_steps skipping_session
           (VStr "u1") (VStr "s1") 1 3); [reflexivity|lia|lia|simpl; lia].
Defined.

(** ** The size of the table *)

Lemma length_select clk items conds tbl :
  length (select clk items conds tbl)
  = length (filter (λ r, holds_all clk [] conds r = true) tbl).
Proof. unfold select. cbv zeta. by rewrite length_map. Qed.

Lemma length_completed clk fc (g : nat → Step → list item) (l : list Step) :
  length (concat (imap (λ i st, select clk (g i st) (completion_where st) fc) l))
  = sum_list (map (λ st, length (beyond fc (rank st))) l).
Proof.
  revert g. induction l as [|st l IH]; intros g; [done|].
  simpl. rewrite length_app, length_select. f_equal; [|exact (IH (g ∘ S))].
  unfold beyond. apply length_filter_ext. intros r.
  by rewrite completion_where_holds.
Qed.

(** Counting the pairs of a relation by rows or by columns. *)
Lemma double_count {A B} (R : A → B → Prop) `{!∀ x y, Decision (R x y)}
    (xs : list A) (ys : list B) :
  sum_list (map (λ x, length (filter (R x) ys)) xs)
  = sum_list (map (λ y, length (filter (λ x, R x y) xs)) ys).
Proof.
  induction xs as [|x xs IH]; simpl.
  - induction ys as [|y ys IHy]; [done|]. simpl. by rewrite <- IHy.
  - rewrite IH. clear IH. induction ys as [|y ys IHy]; [done|].
    simpl. rewrite !filter_cons.
    destruct (decide (R x y)); simpl; lia.
Qed.

Lemma count_ranks_up_to (l : list Step) (off k : Z) :
  (∀ j st, l !! j = Some st → rank st = off + Z.of_nat j + 1) →
  off ≤ k → k ≤ off + Z.of_nat (length l) →
  Z.of_nat (length (filter (λ st, rank st ≤ k) l)) = k - off.
Proof.
  revert off. induction l as [|st l IH]; intros off Hpos Hlo Hhi; simpl in *.
  - lia.
  - rewrite filter_cons. pose proof (Hpos 0%nat st eq_refl) as Hst. simpl in Hst.
    destruct (decide (rank st ≤ k)) as [Hle|Hgt].
    + simpl. rewrite Nat2Z.inj_succ, (IH (off + 1)); [lia| |lia|lia].
      intros j st' Hj. rewrite (Hpos (S j) st' Hj). lia.
    + assert (k = off) as -> by lia.
      rewrite filter_none; [simpl; lia|].
      intros st' Hin. apply list_elem_of_lookup in Hin as [j Hj].
      rewrite (Hpos (S j) st' Hj). lia.
Qed.

Lemma steps_up_to_stage fs r :
  ranks_by_position fs →
  Exists (λ st, get "step_stage" r = VInt (rank st)
                ∧ get "screen_name" r = VStr (screen_name st)) fs →
  Z.of_nat (length (filter (λ st, sql_ge (get "step_stage" r) (VInt (rank st)) = true) fs))
  = stage_of r.
Proof.
  intros Hpos (st0 & Hin & Hstage & _)%Exists_exists.
  apply list_elem_of_lookup in Hin as [i Hi].
  unfold stage_of. rewrite Hstage.
  rewrite (length_filter_ext _ (λ st, rank st ≤ rank st0)).
  2:{ intros st. simpl. by rewrite Z.leb_le. }
  rewrite (count_ranks_up_to fs 0 (rank st0)); [lia| | |].
  - intros j st Hj. rewrite (Hpos _ _ Hj). lia.
  - rewrite (Hpos _ _ Hi). lia.
  - rewrite (Hpos _ _ Hi). apply lookup_lt_Some in Hi. lia.
Qed.

(** X12: the compiled table has as many rows as the steps its canonical
    rows stand at add up to: a canonical row at step [S] accounts for
    exactly [S] rows, one at each of the steps 1..S. *)
Theorem X12_table_size_is_sum_of_stages clk fs fc :
  dense_ranks fs → labelled fs fc →
  Z.of_nat (length (standard_funnel_table clk fs fc)) = foldr Z.add 0 (map stage_of fc).
Proof.
  intros Hdense Hlab. apply dense_ranks_lookup in Hdense.
  unfold standard_funnel_table. rewrite select_final, length_map.
  unfold funnel_completed. rewrite (length_completed clk fc (completion_items fs)).
  unfold beyond.
  rewrite <- (double_count (λ r st, sql_ge (get "step_stage" r) (VInt (rank st)) = true)).
  unfold labelled in Hlab. induction Hlab as [|r fc Hr _ IH]; [done|].
  simpl. rewrite Nat2Z.inj_add, IH. f_equal. by apply steps_up_to_stage.
Qed.

Lemma X12_table_size_witness :
  Z.of_nat (length (standard_funnel_table noon three_steps skipping_session))
  = foldr Z.add 0 (map stage_of skipping_session).
Proof.
  apply (X12_table_size_is_sum_of_stages noon three_steps skipping_session).
  - reflexivity.
  - refine (bool_decide_unpack _ _). vm_compute. exact I.
Defined.

(** ** What the [qualify] of [funnel_clean] keeps *)

Lemma precedes_trans a b c :
  precedes a b = true → precedes b c = true → precedes a c = true.
Proof.
  unfold precedes.
  destruct (get "screen_entry_time" a), (get "screen_entry_time" b),
    (get "screen_entry_time" c); try done.
  rewrite !Z.ltb_lt. lia.
Qed.

Lemma precedes_neg_trans a b c :
  precedes a b = true → precedes c b = false → precedes a c = true.
Proof.
  unfold precedes.
  destruct (get "screen_entry_time" a), (get "screen_entry_time" b),
    (get "screen_entry_time" c); try done.
  rewrite !Z.ltb_lt, Z.ltb_ge. lia.
Qed.

Lemma precedes_asym a b : precedes a b = true → precedes b a = false.
Proof.
  unfold precedes.
  destruct (get "screen_entry_time" a), (get "screen_entry_time" b); try done.
  rewrite Z.ltb_lt, Z.ltb_ge. lia.
Qed.

Lemma precedes_irrefl a : precedes a a = false.
Proof.
  unfold precedes. destruct (get "screen_entry_time" a); try done. apply Z.ltb_irrefl.
Qed.

Lemma is_first_spec before r after :
  is_first before r after = true
  ↔ (∀ z, z ∈ before → dedup_key z = dedup_key r → precedes r z = true)
    ∧ (∀ z, z ∈ after → dedup_key z = dedup_key r → precedes z r = false).
Proof.
  unfold is_first, same_partition.
  rewrite andb_true_iff, !forallb_forall. split.
  - intros [Hb Ha]. split.
    + intros z Hz Hk. apply list_elem_of_In in Hz. specialize (Hb z Hz).
      rewrite bool_decide_eq_true_2 in Hb by done. done.
    + intros z Hz Hk. apply list_elem_of_In in Hz. specialize (Ha z Hz).
      rewrite bool_decide_eq_true_2 in Ha by done. simpl in Ha.
      by apply negb_true_iff.
  - intros [Hb Ha]. split.
    + intros z Hz. apply list_elem_of_In in Hz.
      destruct (decide (dedup_key z = dedup_key r)) as [Hk|Hk].
      * rewrite bool_decide_eq_true_2 by done. by apply Hb.
      * by rewrite bool_decide_eq_false_2.
    + intros z Hz. apply list_elem_of_In in Hz.
      destruct (decide (dedup_key z = dedup_key r)) as [Hk|Hk].
      * rewrite bool_decide_eq_true_2 by done. simpl. apply negb_true_iff. by apply Ha.
      * by rewrite bool_decide_eq_false_2.
Qed.

Lemma qualify_first_intro l1 : ∀ before x l2,
  is_first (before ++ l1) x l2 = true → x ∈ qualify_first before (l1 ++ x :: l2).
Proof.
  induction l1 as [|y l1 IH]; intros before x l2 Hfirst; simpl.
  - rewrite app_nil_r in Hfirst. rewrite Hfirst. left.
  - assert (x ∈ qualify_first (before ++ [y]) (l1 ++ x :: l2)) as Hx.
    { apply IH. by rewrite <- app_assoc. }
    destruct (is_first before y (l1 ++ x :: l2)); [by right|done].
Qed.

(** Each partition that occurs in a table has a row that [row_number()]
    numbers first. *)
Lemma first_of_partition (rows : list row) key :
  (∃ r, r ∈ rows ∧ dedup_key r = key) →
  ∃ l1 x l2, rows = l1 ++ x :: l2 ∧ dedup_key x = key ∧ is_first l1 x l2 = true.
Proof.
  induction rows as [|y rows IH] using rev_ind; [by intros (r & ?%elem_of_nil & _)|].
  intros (r & Hr & Hkey).
  destruct (decide (Exists (λ r', dedup_key r' = key) rows)) as [Hsome|Hnone];
    rewrite Exists_exists in *.
  - destruct (IH Hsome) as (l1 & x & l2 & -> & Hx & Hfirst).
    apply is_first_spec in Hfirst as [Hb Ha].
    destruct (decide (dedup_key y = key ∧ precedes y x = true)) as [[Hy Hyx]|Hno].
    + exists (l1 ++ x :: l2), y, []. split; [done|]. split; [done|].
      apply is_first_spec. split; [|by intros z ?%elem_of_nil].
      intros z Hz Hzk. rewrite Hy, <- Hx in Hzk.
      apply elem_of_app in Hz as [Hz|Hz].
      * eapply precedes_trans; [exact Hyx|]. by apply Hb.
      * apply elem_of_cons in Hz as [->|Hz]; [done|].
        eapply precedes_neg_trans; [exact Hyx|]. by apply Ha.
    + exists l1, x, (l2 ++ [y]). split; [by rewrite <- app_assoc|]. split; [done|].
      apply is_first_spec. split; [done|].
      intros z Hz Hzk. apply elem_of_app in Hz as [Hz|Hz]; [by apply Ha|].
      apply list_elem_of_singleton in Hz as ->.
      destruct (precedes y x) eqn:Hyx; [|done].
      exfalso. apply Hno. split; [congruence|done].
  - assert (dedup_key y = key) as Hy.
    { apply elem_of_app in Hr as [Hr|Hr]; [exfalso; apply Hnone; eauto|].
      by apply list_elem_of_singleton in Hr as ->. }
    exists rows, y, []. split; [done|]. split; [done|].
    apply is_first_spec. split; [|by intros z ?%elem_of_nil].
    intros z Hz Hzk. exfalso. apply Hnone. exists z. split; [done|congruence].
Qed.

Lemma qualify_first_keeps_latest rows r :
  r ∈ rows →
  ∃ x, x ∈ qualify_first [] rows ∧ dedup_key x = dedup_key r ∧ precedes r x = false.
Proof.
  intros Hr.
  destruct (first_of_partition rows (dedup_key r)) as (l1 & x & l2 & -> & Hx & Hfirst);
    [by exists r|].
  exists x. split; [by apply qualify_first_intro|]. split; [done|].
  apply is_first_spec in Hfirst as [Hb Ha].
  apply elem_of_app in Hr as [Hr|Hr].
  - apply precedes_asym. by apply Hb.
  - apply elem_of_cons in Hr as [->|Hr]; [apply precedes_irrefl|].
    by apply Ha.
Qed.

Lemma precedes_base_columns r r' x :
  get "screen_entry_time" r' = get "screen_entry_time" r →
  precedes r' x = precedes r x.
Proof. unfold precedes. by intros ->. Qed.

Lemma dedup_key_base_columns r r' :
  (∀ c, c ∈ base_columns → get c r' = get c r) → dedup_key r' = dedup_key r.
Proof.
  intros Hcols. unfold dedup_key.
  rewrite !Hcols; [done|..]; refine (bool_decide_unpack _ _); vm_compute; exact I.
Qed.

(** X13: [funnel_clean] holds exactly one row for each combination of
    actor, session, screen name and step that occurs among the labelled
    rows of [funnel_base] - none is lost and none is doubled - and the row
    it keeps is one entered last: no row of the combination has a later
    entry time. *)
Theorem X13_funnel_clean_keeps_latest_per_screen base :
  NoDup (map dedup_key (funnel_clean base))
  ∧ ∀ r, r ∈ base → get "step_stage" r ≠ VNull →
      ∃ x, x ∈ funnel_clean base
           ∧ dedup_key x = dedup_key r
           ∧ precedes r x = false.
Proof.
  split; [apply funnel_clean_deduplicated|].
  intros r Hr Hnull. unfold funnel_clean.
  set (kept := imap pair (filter (λ r, get "step_stage" r ≠ VNull) base)).
  assert (∃ i, (i, r) ∈ kept) as [i Hi].
  { assert (r ∈ filter (λ r, get "step_stage" r ≠ VNull) base) as Hf
      by (by apply list_elem_of_filter).
    apply list_elem_of_lookup in Hf as [i Hi]. exists i.
    apply list_elem_of_lookup. exists i. unfold kept.
    by rewrite list_lookup_imap, Hi. }
  destruct (qualify_first_keeps_latest (map (clean_row_of kept) kept)
              (clean_row_of kept (i, r))) as (x & Hx & Hkey & Hlate).
  { apply list_elem_of_fmap. by exists (i, r). }
  exists x. split; [done|]. split.
  - rewrite Hkey. apply dedup_key_base_columns. intros c Hc. by apply get_base_column.
  - rewrite <- Hlate. symmetry. apply precedes_base_columns.
    apply get_base_column. refine (bool_decide_unpack _ _). vm_compute. exact I.
Qed.

(** ** The window columns of [funnel_clean] *)

Lemma earlier_asym a b : earlier a b = true → earlier b a = false.
Proof.
  unfold earlier.
  destruct (get "screen_entry_time" a), (get "screen_entry_time" b); try done.
  rewrite Z.ltb_lt, Z.ltb_ge. lia.
Qed.

Lemma insert_by_time_head x sorted y :
  HdRel in_window_order y sorted → in_window_order y x →
  HdRel in_window_order y (insert_by_time x sorted).
Proof.
  intros Hhd Hyx. destruct sorted as [|z rest]; simpl; [by constructor|].
  apply HdRel_inv in Hhd.
  destruct (earlier z.2 x.2); by constructor.
Qed.

Lemma insert_by_time_sorted x sorted :
  Sorted in_window_order sorted → Sorted in_window_order (insert_by_time x sorted).
Proof.
  induction 1 as [|y rest Hsorted IH Hhd]; simpl; [by repeat constructor|].
  destruct (earlier y.2 x.2) eqn:Hyx.
  - constructor; [done|]. apply insert_by_time_head; [done|].
    by apply earlier_asym.
  - constructor; [by constructor|]. by constructor.
Qed.

Lemma window_order_sorted rows : Sorted in_window_order (window_order rows).
Proof.
  induction rows as [|x rows IH]; simpl; [constructor|].
  by apply insert_by_time_sorted.
Qed.

Lemma elem_of_insert_by_time x sorted y :
  y ∈ insert_by_time x sorted ↔ y = x ∨ y ∈ sorted.
Proof.
  induction sorted as [|z rest IH]; simpl.
  - rewrite list_elem_of_singleton, elem_of_nil. tauto.
  - destruct (earlier z.2 x.2).
    + rewrite !elem_of_cons, IH. tauto.
    + by rewrite !elem_of_cons.
Qed.

Lemma elem_of_window_order rows y : y ∈ window_order rows ↔ y ∈ rows.
Proof.
  induction rows as [|x rows IH]; simpl; [done|].
  by rewrite elem_of_insert_by_time, elem_of_cons, IH.
Qed.

(** The row that [lead] reads is not earlier than the row it is read
    for. *)
Lemma around_next window : ∀ i previous p n,
  Sorted in_window_order window →
  around i previous window = (p, Some n) →
  ∃ x, (i, x) ∈ window ∧ earlier n x = false.
Proof.
  induction window as [|[j x] rest IH]; intros i previous p n Hsorted Hrun;
    simpl in Hrun; [discriminate|].
  apply Sorted_inv in Hsorted as [Hsorted Hhd].
  destruct (Nat.eqb_spec j i) as [->|Hne].
  - destruct rest as [|[j' y] rest']; simpl in Hrun; [discriminate|].
    injection Hrun as _ <-. exists x. split; [left|].
    by apply HdRel_inv in Hhd.
  - destruct (IH _ _ _ _ Hsorted Hrun) as (x' & Hx' & Hearlier).
    exists x'. split; [by right|done].
Qed.

Lemma numbered_unique {A} (l : list A) i x y :
  (i, x) ∈ imap pair l → (i, y) ∈ imap pair l → x = y.
Proof.
  intros [j Hj]%list_elem_of_lookup [k Hk]%list_elem_of_lookup.
  rewrite list_lookup_imap in Hj, Hk.
  destruct (l !! j) eqn:Ej; [|discriminate].
  destruct (l !! k) eqn:Ek; [|discriminate].
  simpl in Hj, Hk. injection Hj as <- <-. injection Hk as <- <-. congruence.
Qed.

(** X14: in [funnel_clean], [is_conversion_session] is 1 exactly when a
    next entry time is there and 0 otherwise; [time_to_convert] is then the
    number of seconds from the row's entry to the next one, and it is never
    negative. *)
Theorem X14_time_to_convert_is_never_negative base x :
  x ∈ funnel_clean base →
  (get "screen_success_time" x = VNull
   ∧ get "is_conversion_session" x = VInt 0
   ∧ get "time_to_convert" x = VNull)
  ∨ (get "screen_success_time" x ≠ VNull
     ∧ get "is_conversion_session" x = VInt 1
     ∧ ∀ a b, get "screen_entry_time" x = VTs a →
              get "screen_success_time" x = VTs b →
              a ≤ b ∧ get "time_to_convert" x = VInt (b - a)).
Proof.
  unfold funnel_clean.
  set (rows := filter (λ r, get "step_stage" r ≠ VNull) base).
  intros Hx. apply qualify_first_subseteq, list_elem_of_fmap in Hx as ([i r] & -> & Hir).
  unfold clean_row_of.
  set (window := window_order (filter (λ jx, same_session r jx.2 = true) (imap pair rows))).
  destruct (around i None window) as [previous next] eqn:Haround.
  destruct next as [n|]; simpl; [|by left].
  destruct (around_next _ _ _ _ _ (window_order_sorted _) Haround)
    as (r' & Hr' & Hearlier).
  assert (r' = r) as ->.
  { apply elem_of_window_order, list_elem_of_filter in Hr' as [_ Hr'].
    by eapply numbered_unique. }
  destruct (decide (get "screen_entry_time" n = VNull)) as [Hnull|Hnull].
  - left. cbn. rewrite Hnull. done.
  - right. cbn. rewrite bool_decide_eq_false_2 by done.
    split; [done|]. split; [done|]. intros a b Ha Hb.
    unfold earlier in Hearlier. rewrite Ha, Hb in Hearlier |- *.
    apply Z.ltb_ge in Hearlier. done.
Qed.

Lemma X14_time_to_convert_witness :
  (get "screen_success_time" first_row = VNull
   ∧ get "is_conversion_session" first_row = VInt 0
   ∧ get "time_to_convert" first_row = VNull)
  ∨ (get "screen_success_time" first_row ≠ VNull
     ∧ get "is_conversion_session" first_row = VInt 1
     ∧ ∀ a b, get "screen_entry_time" first_row = VTs a →
              get "screen_success_time" first_row = VTs b →
              a ≤ b ∧ get "time_to_convert" first_row = VInt (b - a)).
Proof.
  apply (X14_time_to_convert_is_never_negative
           (funnel_base skipping_warehouse (example_config [0%nat; 1%nat; 2%nat] 30)
              "user_id" "session_id" "event" "timestamp" "proj.events.events" "date" 30
              three_steps)).
  refine (bool_decide_unpack _ _). vm_compute. exact I.
Defined.

(** ** Where a row of [funnel_clean] comes from *)

(** The labeling [case]s choose the first step, in list order, that lists
    the event of the row. *)
Lemma funnel_base_first_match clk tbl ev fs r k :
  eval_expr clk tbl (step_stage_expr fs) r = VInt k →
  ∃ i st e, fs !! i = Some st ∧ rank st = k
    ∧ get "event" r = VStr e ∧ e ∈ loaded_events st
    ∧ (∀ j st', fs !! j = Some st' → (j < i)%nat → e ∉ loaded_events st')
    ∧ eval_expr clk tbl (screen_name_expr ev fs) r = VStr (screen_name st).
Proof.
  unfold step_stage_expr, screen_name_expr, eval_expr.
  induction fs as [|st fs IH]; simpl; [discriminate|].
  destruct (get "event" r) as [| |e| | |] eqn:Hev; simpl.
  1,2,4,5,6:
    intros H; destruct (IH H) as (i & st' & e' & _ & _ & He' & _); discriminate.
  destruct (decide (e ∈ loaded_events st)) as [Hin|Hnin].
  - rewrite bool_decide_eq_true_2 by done. intros [= <-].
    exists 0%nat, st, e. repeat split; try done. intros j st' _ Hj. lia.
  - rewrite bool_decide_eq_false_2 by done. intros H.
    destruct (IH H) as (i & st' & e' & Hi & Hk & [= <-] & He' & Hfirst & Hname).
    exists (S i), st', e. repeat split; try done.
    intros [|j] st'' Hj Hlt; simpl in Hj.
    + by injection Hj as <-.
    + apply (Hfirst j st'' Hj). lia.
Qed.

Section base_row.

Context (clk : clock) (tbl : list row) (config : Config) (uid sid ev ts : string)
        (fs : list Step) (r0 : row).

Let r := project clk tbl (funnel_base_items config uid sid ev ts fs) r0.

Lemma funnel_base_row_head :
  get "actor_id" r = get uid r0
  ∧ get "session_id" r = get sid r0
  ∧ get "screen_entry_time" r = get ts r0.
Proof. done. Qed.

Lemma funnel_base_row_labels :
  Forall (λ it, item_name it ≠ "step_stage" ∧ item_name it ≠ "screen_name")
         (seg_items config) →
  get "step_stage" r = eval_expr clk tbl (step_stage_expr fs) r0
  ∧ get "screen_name" r = eval_expr clk tbl (screen_name_expr ev fs) r0.
Proof.
  intros Hseg. unfold r, funnel_base_items. rewrite !app_assoc. split.
  - rewrite get_project_skip; [reflexivity|]. repeat apply Forall_app_2.
    + repeat constructor; simpl; discriminate.
    + eapply Forall_impl; [exact Hseg|]. by intros it [? _].
    + repeat constructor; rewrite extraction_item_name; discriminate.
  - rewrite get_project_skip; [reflexivity|]. repeat apply Forall_app_2.
    + repeat constructor; simpl; discriminate.
    + eapply Forall_impl; [exact Hseg|]. by intros it [_ ?].
    + repeat constructor; rewrite extraction_item_name; discriminate.
Qed.

End base_row.

(** X15: in a run, every row of [funnel_clean] stems from a source row that
    passes the [where] of [funnel_base] - so a row of an event no surviving
    step lists, or from before the lookback window, or without a session,
    never gets in - and it carries that row's user, session and time, and
    the rank and screen name of the first surviving step that lists its
    event. *)
Theorem X15_funnel_clean_rows_stem_from_kept_source_rows
    wh config uid sid ev ts source partition days fs x :
  Forall (λ it, item_name it ≠ "step_stage" ∧ item_name it ≠ "screen_name")
         (seg_items config) →
  x ∈ funnel_clean (funnel_base wh config uid sid ev ts source partition days fs) →
  ∃ r0 i st e,
    r0 ∈ funnel_base_from wh config uid source
    ∧ funnel_base_keeps partition ts sid days fs (wh_clock wh) r0
    ∧ fs !! i = Some st
    ∧ get "event" r0 = VStr e ∧ e ∈ loaded_events st
    ∧ (∀ j st', fs !! j = Some st' → (j < i)%nat → e ∉ loaded_events st')
    ∧ get "step_stage" x = VInt (rank st)
    ∧ get "screen_name" x = VStr (screen_name st)
    ∧ get "actor_id" x = get uid r0
    ∧ get "session_id" x = get sid r0
    ∧ get "screen_entry_time" x = get ts r0.
Proof.
  intros Hseg Hx.
  apply funnel_clean_elem in Hx as (r & Hr & Hnull & Hcols).
  rewrite (Hcols "step_stage"), (Hcols "screen_name"), (Hcols "actor_id"),
    (Hcols "session_id"), (Hcols "screen_entry_time")
    by (refine (bool_decide_unpack _ _); vm_compute; exact I).
  clear x Hcols. unfold funnel_base, select in Hr. cbv zeta in Hr.
  apply list_elem_of_fmap in Hr as (r0 & -> & Hr0).
  apply list_elem_of_filter in Hr0 as [Hwhere Hr0].
  apply funnel_base_where_holds in Hwhere.
  set (tbl := filter _ _) in *. set (clk := wh_clock wh) in *.
  destruct (funnel_base_row_labels clk tbl config uid sid ev ts fs r0 Hseg)
    as [Hstage Hname].
  rewrite Hstage in Hnull. rewrite Hstage, Hname.
  destruct (step_stage_null_or_rank clk tbl fs r0) as [Hk|[k Hk]]; [done|].
  destruct (funnel_base_first_match clk tbl ev fs r0 k Hk)
    as (i & st & e & Hi & <- & He & Hin & Hfirst & Hn).
  exists r0, i, st, e. rewrite Hk, Hn. repeat split; try done.
  - by destruct Hwhere.
  - by destruct Hwhere as (_ & ? & _).
  - by destruct Hwhere as (_ & _ & ? & _).
  - by destruct Hwhere as (_ & _ & _ & ?).
Qed.

Lemma X15_funnel_clean_rows_witness :
  ∃ r0 i st e,
    r0 ∈ funnel_base_from skipping_warehouse (example_config [0%nat; 1%nat; 2%nat] 30)
           "user_id" "proj.events.events"
    ∧ funnel_base_keeps "date" "timestamp" "session_id" 30 three_steps
        (wh_clock skipping_warehouse) r0
    ∧ three_steps !! i = Some st
    ∧ get "event" r0 = VStr e ∧ e ∈ loaded_events st
    ∧ (∀ j st', three_steps !! j = Some st' → (j < i)%nat → e ∉ loaded_events st')
    ∧ get "step_stage" third_row = VInt (rank st)
    ∧ get "screen_name" third_row = VStr (screen_name st)
    ∧ get "actor_id" third_row = get "user_id" r0
    ∧ get "session_id" third_row = get "session_id" r0
    ∧ get "screen_entry_time" third_row = get "timestamp" r0.
Proof.
  apply (X15_funnel_clean_rows_stem_from_kept_source_rows skipping_warehouse
           (example_config [0%nat; 1%nat; 2%nat] 30) "user_id" "session_id" "event"
           "timestamp" "proj.events.events" "date" 30 three_steps third_row).
  - repeat constructor; discriminate.
  - refine (bool_decide_unpack _ _). vm_compute. exact I.
Defined.

(** ** The two statements of a run *)

(** X16: the percentile statement reads the table the funnel statement
    creates: both name [project.destination.STANDARD_FUNNEL], and the
    percentile statement creates [project.destination.percentiles_table_name]. *)
Theorem X16_percentiles_read_the_funnel_table config fs sql psql :
  standard_funnel_sql config fs = Ok sql →
  generate_percentiles_sql config = Ok psql →
  ∃ project destination table,
    project_id config = Some project
    ∧ destination_dataset config = Some destination
    ∧ percentiles_table_name config = Some table
    ∧ contains sql ("create or replace table `" +:+ project +:+ "." +:+ destination
                    +:+ ".STANDARD_FUNNEL` as (")
    ∧ contains psql (lines [ "    FROM";
                             "      `" +:+ project +:+ "." +:+ destination
                             +:+ ".STANDARD_FUNNEL`" ])
    ∧ contains psql ("CREATE OR REPLACE TABLE `" +:+ project +:+ "." +:+ destination
                     +:+ "." +:+ table +:+ "` AS").
Proof.
  intros Hsql Hp.
  apply standard_funnel_sql_inv in Hsql
    as (project & destination & uid & sid & ev & ts & source & partition & days & j
        & H1 & H2 & _ & _ & _ & _ & _ & _ & _ & ->).
  unfold generate_percentiles_sql in Hp. rewrite H1, H2 in Hp. simpl in Hp.
  destruct (percentiles_table_name config) as [table|]; [|discriminate].
  simpl in Hp. injection Hp as <-.
  exists project, destination, table. do 3 (split; [done|]). split; [|split].
  - apply (contains_join_segment nl 3%nat
             [ "create or replace table `" +:+ project +:+ "." +:+ destination
               +:+ ".STANDARD_FUNNEL` as (" ]); [done|reflexivity].
  - apply (contains_join_segment nl 17%nat
             [ "    FROM";
               "      `" +:+ project +:+ "." +:+ destination +:+ ".STANDARD_FUNNEL`" ]);
      [done|reflexivity].
  - apply (contains_join_segment nl 1%nat
             [ "CREATE OR REPLACE TABLE `" +:+ project +:+ "." +:+ destination
               +:+ "." +:+ table +:+ "` AS" ]); [done|reflexivity].
Qed.

Lemma X16_percentiles_read_witness :
  ∃ project destination table,
    project_id FUNNEL_CONFIG = Some project
    ∧ destination_dataset FUNNEL_CONFIG = Some destination
    ∧ percentiles_table_name FUNNEL_CONFIG = Some table
    ∧ contains (standard_funnel_text FUNNEL_CONFIG "common-tech-434709" "sandbox" "user_id"
                  "JSON_EXTRACT_SCALAR(properties, '$.session_id')" "event" "timestamp"
                  "common-tech-434709.events.events" "date" 30 "" checkout_steps)
        ("create or replace table `" +:+ project +:+ "." +:+ destination
         +:+ ".STANDARD_FUNNEL` as (")
    ∧ (∃ psql, generate_percentiles_sql FUNNEL_CONFIG = Ok psql
        ∧ contains psql (lines [ "    FROM";
                                 "      `" +:+ project +:+ "." +:+ destination
                                 +:+ ".STANDARD_FUNNEL`" ])
        ∧ contains psql ("CREATE OR REPLACE TABLE `" +:+ project +:+ "." +:+ destination
                         +:+ "." +:+ table +:+ "` AS")).
Proof.
  destruct (X16_percentiles_read_the_funnel_table FUNNEL_CONFIG checkout_steps _ _
              eq_refl eq_refl)
    as (project & destination & table & H1 & H2 & H3 & H4 & H5 & H6).
  exists project, destination, table. do 4 (split; [done|]).
  eexists. split; [reflexivity|]. split; done.
Defined.

(** ** The two [CASE]s of the percentile statement *)

Lemma case_order clk tbl (steps : list (string * Z)) els r :
  eval_expr clk tbl (Case (map (λ '(name, n), (named name, IntLit n)) steps) els) r
  = match get "screen_name" r with
    | VStr name =>
        match order_of name steps with
        | Some n => VInt n
        | None => eval_scalar clk tbl els r
        end
    | _ => eval_scalar clk tbl els r
    end.
Proof.
  unfold eval_expr. induction steps as [|[known n] steps IH]; simpl.
  - by destruct (get "screen_name" r).
  - destruct (get "screen_name" r) as [| |name| | |]; simpl; try exact IH.
    destruct (String.eqb name known); [done|exact IH].
Qed.

Lemma case_label clk tbl (steps : list (string * Z)) els r :
  eval_expr clk tbl
    (Case (map (λ '(name, n), (named name, StrLit (str_of_int n +:+ " - " +:+ name)))
               steps) els) r
  = match get "screen_name" r with
    | VStr name =>
        match order_of name steps with
        | Some n => VStr (str_of_int n +:+ " - " +:+ name)
        | None => eval_scalar clk tbl els r
        end
    | _ => eval_scalar clk tbl els r
    end.
Proof.
  unfold eval_expr. induction steps as [|[known n] steps IH]; simpl.
  - by destruct (get "screen_name" r).
  - destruct (get "screen_name" r) as [| |name| | |]; simpl; try exact IH.
    destruct (String.eqb_spec name known) as [->|]; [done|exact IH].
Qed.

(** X17: the two [CASE]s of the percentile statement agree on every row: a
    screen name among the six written into the statement gets its number as
    [step_order] and that number, a dash and the name as
    [ordered_screen_name]; any other name gets 999 and is its own label; a
    null name gets 999 and a null label. *)
Theorem X17_percentile_cases_agree clk tbl r :
  match get "screen_name" r with
  | VStr name =>
      match order_of name percentile_steps with
      | Some n =>
          eval_expr clk tbl step_order_expr r = VInt n
          ∧ eval_expr clk tbl ordered_screen_name_expr r
            = VStr (str_of_int n +:+ " - " +:+ name)
          ∧ 1 ≤ n ≤ 6
      | None =>
          eval_expr clk tbl step_order_expr r = VInt 999
          ∧ eval_expr clk tbl ordered_screen_name_expr r = VStr name
      end
  | v =>
      eval_expr clk tbl step_order_expr r = VInt 999
      ∧ eval_expr clk tbl ordered_screen_name_expr r = v
  end.
Proof.
  unfold step_order_expr, ordered_screen_name_expr.
  rewrite case_order, case_label.
  cbn [eval_scalar].
  destruct (get "screen_name" r) as [| |name| | |] eqn:Hname; try done.
  destruct (order_of name percentile_steps) as [n|] eqn:Hn; [|done].
  split; [done|]. split; [done|].
  unfold percentile_steps in Hn. simpl in Hn.
  repeat match type of Hn with
         | (if ?b then _ else _) = _ => destruct b; [injection Hn as <-; lia|]
         end.
  discriminate.
Qed.

(** ** The unified-loans analyzer: availability *)

(** X18: the unified-loans analyzer reads [config['filters']] although
    [validate_config] does not ask for it: on a configuration without that
    key its availability check raises [KeyError] before any query is sent
    and with every step untouched, and [execute_analysis] reports
    failure. *)
Theorem X18_unified_needs_filters eng config σ ls :
  steps config = Some (StepList ls) →
  allocated σ ls →
  filters config = None →
  Loans.check_event_availability eng config σ = (Raise (KeyError "filters"), σ)
  ∧ Loans.generate_standard_funnel_sql eng config σ = (Raise (KeyError "filters"), σ)
  ∧ Loans.execute_analysis eng config σ = (Ok false, σ).
Proof.
  intros Hsteps Hal Hfilters.
  assert (Hcheck : Loans.check_event_availability eng config σ
                   = (Raise (KeyError "filters"), σ)).
  { unfold Loans.check_event_availability, iter_steps, lift.
    rewrite Hsteps. simpl. unfold bind at 1. simpl.
    rewrite (bind_ok _ _ _ _ _ (collect_events_spec ls σ Hal)).
    unfold Loans.filter_conditions. rewrite Hfilters. done. }
  assert (Hgen : Loans.generate_standard_funnel_sql eng config σ
                 = (Raise (KeyError "filters"), σ)).
  { unfold Loans.generate_standard_funnel_sql, bind at 1. by rewrite Hcheck. }
  split; [done|]. split; [done|].
  unfold Loans.execute_analysis, Loans.analysis, bind at 1, lift at 1.
  destruct (validate_config config); [|done].
  unfold bind at 1. by rewrite Hgen.
Qed.

Lemma X18_unified_needs_filters_witness :
  let config := with_filters None (example_config [0%nat; 1%nat; 2%nat] 30) in
  validate_config config = Ok true
  ∧ Loans.check_event_availability silent_engine config three_store
    = (Raise (KeyError "filters"), three_store)
  ∧ Loans.generate_standard_funnel_sql silent_engine config three_store
    = (Raise (KeyError "filters"), three_store)
  ∧ Loans.execute_analysis silent_engine config three_store = (Ok false, three_store).
Proof.
  split; [reflexivity|].
  apply (X18_unified_needs_filters silent_engine
           (with_filters None (example_config [0%nat; 1%nat; 2%nat] 30)) three_store
           [0%nat; 1%nat; 2%nat]); try reflexivity.
  refine (bool_decide_unpack _ _). vm_compute. exact I.
Defined.

(** [{row.event: row.count for row in results}] holds exactly the events of
    the rows. *)
Lemma dict_of_rows_keys rows e :
  is_Some (dict_of_rows rows !! e) ↔ e ∈ rows.*1.
Proof.
  unfold dict_of_rows.
  assert (∀ d : gmap string Z,
            is_Some (foldl (λ d row, <[row.1 := row.2]> d) d rows !! e)
            ↔ e ∈ rows.*1 ∨ is_Some (d !! e)) as Hgen.
  { induction rows as [|[k n] rows IH]; intros d; simpl.
    - rewrite elem_of_nil. tauto.
    - rewrite IH, elem_of_cons. destruct (decide (e = k)) as [->|Hne].
      + rewrite lookup_insert_eq. split; [intros _; by left; left|].
        intros _. right. by eexists.
      + rewrite lookup_insert_ne by done. tauto. }
  rewrite Hgen, lookup_empty. split; [intros [?|[? ?]]; done|by left].
Qed.

Lemma available_in_returned rows evs :
  available_in (dict_of_rows rows) evs = returned_events rows evs.
Proof.
  unfold available_in, returned_events. apply filter_ext_elem.
  intros e _. apply dict_of_rows_keys.
Qed.

Lemma survives_returned rows σ l :
  survives (dict_of_rows rows) σ l = has_returned_event rows σ l.
Proof.
  unfold survives, has_returned_event. destruct (σ !! l) as [st|]; [|done].
  rewrite available_in_returned.
  by destruct (returned_events rows (loaded_events st)).
Qed.

Lemma loans_check_event_availability_spec
    eng config σ ls fl source ts days :
  steps config = Some (StepList ls) →
  filters config = Some fl →
  data_source config = Some source →
  timestamp_column config = Some ts →
  time_period_days config = Some days →
  NoDup ls → allocated σ ls →
  let query := Loans.availability_query source ts days (join " AND " fl)
                 (all_events σ ls) in
  Loans.eng_accepts eng query = true →
  let available_events := dict_of_rows (Loans.eng_counts eng query) in
  let fs := filter (λ l, survives available_events σ l = true) ls in
  ∃ σ', Loans.check_event_availability eng config σ = (Ok fs, σ')
      ∧ (∀ i l st, fs !! i = Some l → σ !! l = Some st →
           σ' !! l = Some (set_rank (Z.of_nat i + 1) (narrowed available_events st)))
      ∧ (∀ l, l ∉ fs → σ' !! l = σ !! l).
Proof.
  intros Hsteps Hfl Hsrc Hts Hdays Hnd Hal query Hacc available_events fs.
  destruct (filter_loop_spec available_events ls σ Hnd Hal) as (σ1 & Hrun1 & Hσ1).
  fold fs in Hrun1.
  assert (Hfs_in : ∀ l, l ∈ fs ↔ l ∈ ls ∧ survives available_events σ l = true).
  { intros l. unfold fs. rewrite list_elem_of_filter. tauto. }
  assert (Hnd' : NoDup fs) by (by apply NoDup_filter).
  assert (Hal' : allocated σ1 fs).
  { apply Forall_forall. intros l Hl. rewrite Hσ1.
    apply Hfs_in in Hl as Hl'. rewrite decide_True by done.
    destruct Hl' as [Hl' _]. unfold allocated in Hal.
    rewrite Forall_forall in Hal. destruct (Hal l Hl') as [st ->]. by eexists. }
  destruct (rerank_loop_spec fs 0%nat σ1 Hnd' Hal') as (σ' & Hrun2 & Hin & Hout).
  exists σ'. split; [|split].
  - unfold Loans.check_event_availability, iter_steps, Loans.filter_conditions, lift.
    rewrite Hsteps, Hfl, Hsrc, Hts, Hdays. simpl.
    unfold bind at 1. simpl.
    rewrite (bind_ok _ _ _ _ _ (collect_events_spec ls σ Hal)).
    unfold bind at 1. simpl. unfold bind at 1. simpl. unfold bind at 1. simpl.
    unfold bind at 1. simpl.
    fold (all_events σ ls). fold query. unfold Loans.run. rewrite Hacc.
    unfold bind at 1. simpl. fold available_events.
    rewrite (bind_ok _ _ _ _ _ Hrun1). rewrite (bind_ok _ _ _ _ _ Hrun2). done.
  - intros i l st Hi Hst. rewrite (Hin _ _ Hi). rewrite Hσ1.
    rewrite decide_True by (apply Hfs_in; by eapply list_elem_of_lookup_2).
    rewrite Hst. simpl. done.
  - intros l Hl. rewrite Hout by done. rewrite Hσ1.
    rewrite decide_False; [done|]. by rewrite <- Hfs_in.
Qed.

(** X19: whatever rows the engine returns for its count query, the
    unified-loans availability check keeps exactly the steps that list an
    event found among those rows, in the order of [config['steps']],
    renumbers them 1, 2, ... by position, narrows each to the events found,
    and leaves every other step as it was. *)
Theorem X19_unified_filter_follows_returned_rows
    eng config σ ls fl source ts days :
  steps config = Some (StepList ls) →
  filters config = Some fl →
  data_source config = Some source →
  timestamp_column config = Some ts →
  time_period_days config = Some days →
  NoDup ls → allocated σ ls →
  let query := Loans.availability_query source ts days (join " AND " fl)
                 (all_events σ ls) in
  Loans.eng_accepts eng query = true →
  let rows := Loans.eng_counts eng query in
  ∃ fs σ', Loans.check_event_availability eng config σ = (Ok fs, σ')
    ∧ fs = filter (λ l, has_returned_event rows σ l = true) ls
    ∧ (∀ i l st, fs !! i = Some l → σ !! l = Some st →
         ∃ st', σ' !! l = Some st'
           ∧ rank st' = Z.of_nat i + 1
           ∧ screen_name st' = screen_name st
           ∧ loaded_events st' = returned_events rows (loaded_events st)
           ∧ original_events st' = Some (loaded_events st))
    ∧ (∀ l, l ∉ fs → σ' !! l = σ !! l).
Proof.
  intros Hsteps Hfl Hsrc Hts Hdays Hnd Hal query Hacc rows.
  destruct (loans_check_event_availability_spec eng config σ ls fl source ts days
              Hsteps Hfl Hsrc Hts Hdays Hnd Hal Hacc) as (σ' & Hrun & Hin & Hout).
  eexists _, σ'. split; [exact Hrun|]. split; [|split; [|exact Hout]].
  - apply filter_ext_elem. intros l _. by rewrite survives_returned.
  - intros i l st Hi Hst. eexists. split; [exact (Hin i l st Hi Hst)|].
    simpl. by rewrite available_in_returned.
Qed.

Lemma X19_unified_filter_witness :
  ∃ fs σ', Loans.check_event_availability partial_engine
             (example_config [0%nat; 1%nat; 2%nat] 30) three_store = (Ok fs, σ')
    ∧ fs = [0%nat; 2%nat]
    ∧ σ' !! 2%nat = Some (mkStep 2 "C" ["e3"] (Some ["e3"]) (Some 7))
    ∧ σ' !! 0%nat = Some (mkStep 1 "A" ["e1"] (Some ["e1"]) (Some 5)).
Proof.
  destruct (X19_unified_filter_follows_returned_rows partial_engine
              (example_config [0%nat; 1%nat; 2%nat] 30) three_store
              [0%nat; 1%nat; 2%nat] [] "proj.events.events" "timestamp" 30
              eq_refl eq_refl eq_refl eq_refl eq_refl
              ltac:(refine (bool_decide_unpack _ _); vm_compute; exact I)
              ltac:(refine (bool_decide_unpack _ _); vm_compute; exact I)
              eq_refl) as (fs & σ' & Hrun & Hfs & _).
  exists fs, σ'. split; [exact Hrun|].
  vm_compute in Hrun. injection Hrun as <- <-. repeat split; reflexivity.
Defined.

(** ** The unified-loans analyzer: the statements *)

Lemma loans_funnel_sql_inv config fs sql :
  Loans.funnel_sql config fs = Ok sql →
  ∃ fl project destination uid ev ts source days,
    filters config = Some fl
    ∧ project_id config = Some project ∧ destination_dataset config = Some destination
    ∧ user_id_column config = Some uid ∧ event_column config = Some ev
    ∧ timestamp_column config = Some ts ∧ data_source config = Some source
    ∧ time_period_days config = Some days
    ∧ sql = Loans.funnel_text project destination uid ev ts source (join " AND " fl)
              days fs.
Proof.
  unfold Loans.funnel_sql, Loans.filter_conditions.
  destruct (event_column config) as [ev|]; simpl.
  2:{ destruct fs; simpl; [|discriminate].
      destruct (filters config); simpl; [|discriminate].
      destruct (project_id config); simpl; [|discriminate].
      destruct (destination_dataset config); simpl; [|discriminate].
      destruct (user_id_column config); simpl; discriminate. }
  assert (match fs with [] => Ok tt | _ :: _ => Ok tt end = Ok tt) as ->
    by (by destruct fs).
  simpl.
  destruct (filters config) as [fl|]; simpl; [|discriminate].
  destruct (project_id config); simpl; [|discriminate].
  destruct (destination_dataset config); simpl; [|discriminate].
  destruct (user_id_column config); simpl; [|discriminate].
  destruct (timestamp_column config); simpl; [|discriminate].
  destruct (data_source config); simpl; [|discriminate].
  destruct (time_period_days config); simpl; [|discriminate].
  intros [= <-]. repeat eexists.
Qed.

(** X20: in the statement of the unified-loans analyzer the [where] of
    [funnel_base] is the configured filters joined by [AND], a lower bound
    on the date of the timestamp column and a non-null user id - no event
    list and no partition column - and the session is the user: both
    [actor_id] and [session_id] are the user-id column, whatever
    [session_id_column] says. *)
Theorem X20_unified_where_is_the_configured_filters config fs sql :
  Loans.funnel_sql config fs = Ok sql →
  ∃ fl uid ts days,
    filters config = Some fl ∧ user_id_column config = Some uid
    ∧ timestamp_column config = Some ts ∧ time_period_days config = Some days
    ∧ contains sql
        (lines [ "    where " +:+ join " AND " fl;
                 "    and date(" +:+ ts +:+ ") >= date_sub(current_date(), interval "
                 +:+ str_of_int days +:+ " day)";
                 "    and e." +:+ uid +:+ " is not null";
                 ")" ])
    ∧ contains sql
        (lines [ "    select ";
                 "        e." +:+ uid +:+ " as actor_id,";
                 "        e." +:+ uid +:+ " as session_id," ]).
Proof.
  intros (fl & project & destination & uid & ev & ts & source & days
          & H1 & _ & _ & H4 & _ & H6 & _ & H8 & ->)%loans_funnel_sql_inv.
  exists fl, uid, ts, days. do 4 (split; [done|]). split.
  - apply (contains_join_segment nl 20%nat
             [ "    where " +:+ join " AND " fl;
               "    and date(" +:+ ts +:+ ") >= date_sub(current_date(), interval "
               +:+ str_of_int days +:+ " day)";
               "    and e." +:+ uid +:+ " is not null";
               ")" ]); [done|reflexivity].
  - apply (contains_join_segment nl 5%nat
             [ "    select ";
               "        e." +:+ uid +:+ " as actor_id,";
               "        e." +:+ uid +:+ " as session_id," ]); [done|reflexivity].
Qed.

Lemma X20_unified_where_witness :
  ∃ sql fl uid ts days,
    Loans.funnel_sql filtering_config three_steps = Ok sql
    ∧ filters filtering_config = Some fl ∧ user_id_column filtering_config = Some uid
    ∧ timestamp_column filtering_config = Some ts
    ∧ time_period_days filtering_config = Some days
    ∧ contains sql
        (lines [ "    where " +:+ join " AND " fl;
                 "    and date(" +:+ ts +:+ ") >= date_sub(current_date(), interval "
                 +:+ str_of_int days +:+ " day)";
                 "    and e." +:+ uid +:+ " is not null";
                 ")" ])
    ∧ contains sql
        (lines [ "    select ";
                 "        e." +:+ uid +:+ " as actor_id,";
                 "        e." +:+ uid +:+ " as session_id," ]).
Proof.
  eexists.
  destruct (X20_unified_where_is_the_configured_filters filtering_config three_steps _
              eq_refl) as (fl & uid & ts & days & H).
  exists fl, uid, ts, days. split; [reflexivity|exact H].
Defined.

(** X22: the percentile statement of the unified-loans analyzer reads the
    table its funnel statement creates,
    [project.destination.EARLY_SALARY_STANDARD_FUNNEL]. *)
Theorem X22_unified_percentiles_read_the_funnel_table config fs sql psql :
  Loans.funnel_sql config fs = Ok sql →
  Loans.generate_percentiles_sql config = Ok psql →
  ∃ project destination table,
    project_id config = Some project
    ∧ destination_dataset config = Some destination
    ∧ percentiles_table_name config = Some table
    ∧ contains sql ("create or replace table `" +:+ project +:+ "." +:+ destination
                    +:+ ".EARLY_SALARY_STANDARD_FUNNEL` as (")
    ∧ contains psql (lines [ "    FROM";
                             "      `" +:+ project +:+ "." +:+ destination
                             +:+ ".EARLY_SALARY_STANDARD_FUNNEL`" ])
    ∧ contains psql ("CREATE OR REPLACE TABLE `" +:+ project +:+ "." +:+ destination
                     +:+ "." +:+ table +:+ "` AS").
Proof.
  intros (fl & project & destination & uid & ev & ts & source & days
          & _ & H1 & H2 & _ & _ & _ & _ & _ & ->)%loans_funnel_sql_inv Hp.
  unfold Loans.generate_percentiles_sql in Hp. rewrite H1, H2 in Hp. simpl in Hp.
  destruct (percentiles_table_name config) as [table|]; [|discriminate].
  simpl in Hp. injection Hp as <-.
  exists project, destination, table. do 3 (split; [done|]). split; [|split].
  - apply (contains_join_segment nl 3%nat
             [ "create or replace table `" +:+ project +:+ "." +:+ destination
               +:+ ".EARLY_SALARY_STANDARD_FUNNEL` as (" ]); [done|reflexivity].
  - apply (contains_join_segment nl 17%nat
             [ "    FROM";
               "      `" +:+ project +:+ "." +:+ destination
               +:+ ".EARLY_SALARY_STANDARD_FUNNEL`" ]); [done|reflexivity].
  - apply (contains_join_segment nl 1%nat
             [ "CREATE OR REPLACE TABLE `" +:+ project +:+ "." +:+ destination
               +:+ "." +:+ table +:+ "` AS" ]); [done|reflexivity].
Qed.

Lemma X22_unified_percentiles_witness :
  ∃ sql psql project destination table,
    Loans.funnel_sql filtering_config three_steps = Ok sql
    ∧ Loans.generate_percentiles_sql filtering_config = Ok psql
    ∧ project_id filtering_config = Some project
    ∧ destination_dataset filtering_config = Some destination
    ∧ percentiles_table_name filtering_config = Some table
    ∧ contains sql ("create or replace table `" +:+ project +:+ "." +:+ destination
                    +:+ ".EARLY_SALARY_STANDARD_FUNNEL` as (")
    ∧ contains psql (lines [ "    FROM";
                             "      `" +:+ project +:+ "." +:+ destination
                             +:+ ".EARLY_SALARY_STANDARD_FUNNEL`" ])
    ∧ contains psql ("CREATE OR REPLACE TABLE `" +:+ project +:+ "." +:+ destination
                     +:+ "." +:+ table +:+ "` AS").
Proof.
  eexists _, _.
  destruct (X22_unified_percentiles_read_the_funnel_table filtering_config three_steps
              _ _ eq_refl eq_refl) as (project & destination & table & H).
  exists project, destination, table. split; [reflexivity|]. split; [reflexivity|exact H].
Defined.

(** X23: the two [CASE]s of the unified-loans percentile statement agree on
    every row: a screen name among the eighteen written into the statement
    gets its number as [step_order] and that number, a dash and the name as
    [ordered_screen_name]; any other name gets 999 and is its own label; a
    null name gets 999 and a null label. *)
Theorem X23_unified_percentile_cases_agree clk tbl r :
  match get "screen_name" r with
  | VStr name =>
      match order_of name Loans.percentile_steps with
      | Some n =>
          eval_expr clk tbl Loans.step_order_expr r = VInt n
          ∧ eval_expr clk tbl Loans.ordered_screen_name_expr r
            = VStr (str_of_int n +:+ " - " +:+ name)
          ∧ 1 ≤ n ≤ 18
      | None =>
          eval_expr clk tbl Loans.step_order_expr r = VInt 999
          ∧ eval_expr clk tbl Loans.ordered_screen_name_expr r = VStr name
      end
  | v =>
      eval_expr clk tbl Loans.step_order_expr r = VInt 999
      ∧ eval_expr clk tbl Loans.ordered_screen_name_expr r = v
  end.
Proof.
  unfold Loans.step_order_expr, Loans.ordered_screen_name_expr.
  rewrite case_order, case_label. cbn [eval_scalar].
  destruct (get "screen_name" r) as [| |name| | |] eqn:Hname; try done.
  destruct (order_of name Loans.percentile_steps) as [n|] eqn:Hn; [|done].
  split; [done|]. split; [done|].
  unfold Loans.percentile_steps in Hn. simpl in Hn.
  repeat match type of Hn with
         | (if ?b then _ else _) = _ => destruct b; [injection Hn as <-; lia|]
         end.
  discriminate.
Qed.

(** The branch of [funnel_completed] as the unified-loans analyzer writes
    it is the printed form of its syntax tree. *)
Lemma loans_completion_case_rendered fs i st :
  Loans.funnel_completion_case fs i st
  = nl +:+ "        -- Step " +:+ str_of_int (rank st) +:+ ": " +:+ screen_name st +:+ nl
    +:+ render_select Lower "                " "        " "            "
          (Loans.completion_items fs i st) "funnel_clean" (completion_where st).
Proof.
  unfold Loans.funnel_completion_case, Loans.completion_items, completion_where,
    Unified.nulled.
  text_eq.
Qed.

Section loans_statement.

Context (project destination uid ev ts source conditions : string) (days : Z)
        (fs : list Step).

Let sql := Loans.funnel_text project destination uid ev ts source conditions days fs.

Lemma loans_statement_has_completion : contains sql (Loans.funnel_completion_sql fs).
Proof.
  apply (contains_join_segment nl 47%nat [Loans.funnel_completion_sql fs]);
    [done|reflexivity].
Qed.

Lemma loans_statement_has_final_select :
  contains sql (render_items Lower "    " "    " Unified.final_items).
Proof.
  apply (contains_join_segment nl 50%nat
           [ "    actor_id,";
             "    null as current_tier,";
             "    null as affluence_v11_flag,";
             "    null as gender,";
             "    null as income_range,";
             "    session_id,";
             "    null as app_version,";
             "    null as operating_system,";
             "    null as entry_point,";
             "    screen_name,";
             "    screen_entry_time,";
             "    cast(step_stage as string) as step,";
             "    step_stage,";
             "    previous_screen_name,";
             "    screen_success_time,";
             "    is_conversion_session,";
             "    time_to_convert,";
             "    current_timestamp() as table_created_at,";
             "    -- Add aggregated fields for Tableau";
             "    COUNT(*) OVER (PARTITION BY step_stage) as total_users,";
             "    COUNT(*) OVER (PARTITION BY 1) as total_users_first_step" ]);
    [done|reflexivity].
Qed.

End loans_statement.

(** ** The unified-loans analyzer: the table *)

Lemma loans_table_rows clk fs fc :
  Loans.funnel_table clk fs fc
  = map (project clk (Loans.funnel_completed clk fs fc) Unified.final_items)
        (Loans.funnel_completed clk fs fc).
Proof.
  unfold Loans.funnel_table, select. cbv zeta.
  by rewrite (filter_all (λ r, holds_all clk [] [] r = true)).
Qed.

Lemma loans_completed_elem clk fs fc r :
  r ∈ Loans.funnel_completed clk fs fc →
  ∃ i st r1, fs !! i = Some st ∧ r1 ∈ fc
    ∧ sql_ge (get "step_stage" r1) (VInt (rank st)) = true
    ∧ r = project clk [] (Loans.completion_items fs i st) r1.
Proof.
  unfold Loans.funnel_completed. intros (i & st & Hi & Hr)%elem_of_concat_imap.
  unfold select in Hr. cbv zeta in Hr.
  apply list_elem_of_fmap in Hr as (r1 & -> & Hr1).
  apply list_elem_of_filter in Hr1 as [Hge Hr1].
  rewrite completion_where_holds in Hge. exists i, st, r1. done.
Qed.

(** X21: in the table of the unified-loans analyzer every row has the actor
    as its session and null segmentation and extraction columns;
    [total_users] is the number of rows of the table at the row's step, and
    [total_users_first_step] is the number of rows of the whole table - the
    same on every row, whatever the first step holds. *)
Theorem X21_unified_totals_count_rows clk fs fc o :
  o ∈ Loans.funnel_table clk fs fc →
  get "session_id" o = get "actor_id" o
  ∧ Forall (λ c, get c o = VNull)
      [ "current_tier"; "affluence_v11_flag"; "gender"; "income_range"; "app_version";
        "operating_system"; "entry_point" ]
  ∧ get "total_users" o
    = VInt (Z.of_nat (length (filter (λ o', get "step_stage" o' = get "step_stage" o)
                                (Loans.funnel_table clk fs fc))))
  ∧ get "total_users_first_step" o
    = VInt (Z.of_nat (length (Loans.funnel_table clk fs fc))).
Proof.
  rewrite loans_table_rows. intros (r & -> & Hr)%list_elem_of_fmap.
  split; [|split; [|split]].
  - apply loans_completed_elem in Hr as (i & st & r1 & _ & _ & _ & ->). reflexivity.
  - repeat constructor.
  - rewrite length_filter_map. reflexivity.
  - rewrite length_map. cbn. do 2 f_equal.
    by rewrite (filter_all (λ r', VInt 1 = VInt 1)).
Qed.

Lemma X21_unified_totals_witness :
  let tbl := Loans.funnel_table noon three_steps loans_rows in
  let o := project noon (Loans.funnel_completed noon three_steps loans_rows)
             Unified.final_items
             (project noon [] (Loans.completion_items three_steps 0 (new_step 1 "A" ["e1"]))
                (clean_row "u1" "u1" "C" 7776600 3 (VStr "A") VNull (VInt 0) VNull)) in
  length tbl = 4%nat
  ∧ get "step_stage" o = VInt 1
  ∧ get "total_users" o = VInt 2
  ∧ get "total_users_first_step" o = VInt 4
  ∧ get "session_id" o = get "actor_id" o.
Proof.
  intros tbl o.
  destruct (X21_unified_totals_count_rows noon three_steps loans_rows o)
    as (Hs & _ & Hu & Hf).
  { refine (bool_decide_unpack _ _). vm_compute. exact I. }
  split; [reflexivity|]. split; [reflexivity|]. split; [|split; [|exact Hs]].
  - rewrite Hu. vm_compute. reflexivity.
  - rewrite Hf. vm_compute. reflexivity.
Defined.

(** ** The script *)

Lemma report_after_success wh config σ σ' :
  execute_analysis wh config σ = (Ok true, σ') → Script.report config = Ok tt.
Proof.
  intros (Hv & sql & _ & _ & Hp)%execute_analysis_true.
  apply validate_config_inv in Hv
    as (project & destination & uid & sid & ev & ts & source & partition & days & l & ls
        & H1 & H2 & _).
  unfold Script.report. rewrite H1, H2. simpl.
  destruct (create_percentiles_table config) as [[|]|]; try done.
  destruct (Hp eq_refl) as (psql & Hpsql & _).
  by destruct (generate_percentiles_sql_name _ _ Hpsql) as [table ->].
Qed.

(** X24: [main] exits with status 0 exactly when the client could be built,
    the embedded configuration validates, the funnel statement was
    generated and accepted and - when asked for - the percentile statement
    too; in every other case it exits with status 1.  The report it prints
    after a successful run cannot fail. *)
Theorem X24_main_exit_status client config σ :
  (∀ σ', Script.main client config σ = (Ok 0, σ')
     ↔ ∃ wh sql, client = Ok wh
         ∧ validate_config config = Ok true
         ∧ generate_standard_funnel_sql wh config σ = (Ok sql, σ')
         ∧ wh_accepts wh sql = true
         ∧ (create_percentiles_table config = Some true →
            ∃ psql, generate_percentiles_sql config = Ok psql
                    ∧ wh_accepts wh psql = true))
  ∧ ((Script.main client config σ).1 = Ok 0 ∨ (Script.main client config σ).1 = Ok 1).
Proof.
  unfold Script.main. destruct client as [wh|e].
  - unfold bind.
    destruct (execute_analysis wh config σ) as [[[|]|e] σ1] eqn:Hrun.
    + rewrite (report_after_success _ _ _ _ Hrun). split; [|by left].
      intros σ'. split.
      * intros [= <-]. apply execute_analysis_true in Hrun as (Hv & sql & H).
        by exists wh, sql.
      * intros (wh' & sql & [= <-] & Hv & H).
        assert (execute_analysis wh config σ = (Ok true, σ')) as Hrun'.
        { apply execute_analysis_true. split; [done|]. by exists sql. }
        rewrite Hrun in Hrun'. by injection Hrun' as <-.
    + split; [|by right]. intros σ'. split; [discriminate|].
      intros (wh' & sql & [= <-] & Hv & H).
      assert (execute_analysis wh config σ = (Ok true, σ')) as Hrun'.
      { apply execute_analysis_true. split; [done|]. by exists sql. }
      rewrite Hrun in Hrun'. discriminate.
    + exfalso. unfold execute_analysis in Hrun.
      by destruct (analysis wh config σ) as [[?|?] ?].
  - split; [|by right]. intros σ'. split; [discriminate|].
    by intros (wh & sql & ? & _).
Qed.

(** X25: [__init__] leaves every other environment variable alone; after
    it, the credentials variable holds the given path when one was given
    and is absent otherwise; and of two analyzers built one after the
    other, the second decides - the variable belongs to the process, not to
    the analyzer. *)
Theorem X25_init_environ_last_wins credentials_path earlier_path env :
  (∀ name, name ≠ Script.credentials_variable →
     Script.init_environ credentials_path env !! name = env !! name)
  ∧ Script.init_environ credentials_path env !! Script.credentials_variable
    = truthy_str credentials_path
  ∧ Script.init_environ credentials_path (Script.init_environ earlier_path env)
    = Script.init_environ credentials_path env.
Proof.
  unfold Script.init_environ, Script.environ in *. split; [|split].
  - intros name Hne. destruct (truthy_str credentials_path).
    + by rewrite lookup_insert_ne.
    + by rewrite lookup_delete_ne.
  - destruct (truthy_str credentials_path).
    + by rewrite lookup_insert_eq.
    + by rewrite lookup_delete_eq.
  - destruct (truthy_str credentials_path), (truthy_str earlier_path).
    + by rewrite insert_insert_eq.
    + by rewrite insert_delete_eq.
    + by rewrite delete_insert_eq.
    + by rewrite delete_delete_eq.
Qed.

(** ** Generating the funnel statement again *)

Lemma same_step_cases fs fs' :
  Forall2 same_in_statement fs fs' → map step_case_line fs = map step_case_line fs'.
Proof.
  induction 1 as [|st st' l l' (Hr & _ & He) _ IH]; [done|].
  simpl. rewrite IH. unfold step_case_line. by rewrite Hr, He.
Qed.

Lemma same_screen_name_cases fs fs' :
  Forall2 same_in_statement fs fs' →
  map screen_name_case_line fs = map screen_name_case_line fs'.
Proof.
  induction 1 as [|st st' l l' (_ & Hn & He) _ IH]; [done|].
  simpl. rewrite IH. unfold screen_name_case_line. by rewrite Hn, He.
Qed.

Lemma same_filter_clause fs fs' :
  Forall2 same_in_statement fs fs' → filter_clause fs = filter_clause fs'.
Proof.
  intros Hsame. unfold filter_clause. do 3 f_equal.
  induction Hsame as [|st st' l l' (_ & _ & He) _ IH]; [done|].
  simpl. by rewrite IH, He.
Qed.

Lemma same_previous_label fs fs' i :
  Forall2 same_in_statement fs fs' → previous_label fs i = previous_label fs' i.
Proof.
  intros Hsame. destruct i as [|j]; [done|]. simpl.
  destruct (fs !! j) as [st|] eqn:Hj.
  - destruct (Forall2_lookup_l _ _ _ _ _ Hsame Hj) as (st' & -> & (_ & Hn & _)).
    simpl. done.
  - apply lookup_ge_None in Hj. rewrite (Forall2_length _ _ _ Hsame) in Hj.
    apply lookup_ge_None in Hj. by rewrite Hj.
Qed.

Lemma same_completion fs fs' :
  Forall2 same_in_statement fs fs' → funnel_completion_sql fs = funnel_completion_sql fs'.
Proof.
  intros Hsame. unfold funnel_completion_sql. f_equal. apply list_eq. intros i.
  rewrite !list_lookup_imap.
  destruct (fs !! i) as [st|] eqn:Hi.
  - destruct (Forall2_lookup_l _ _ _ _ _ Hsame Hi) as (st' & -> & (Hr & Hn & _)).
    simpl. f_equal. unfold funnel_completion_case.
    by rewrite (Forall2_length _ _ _ Hsame), (same_previous_label fs fs' i Hsame), Hr, Hn.
  - apply lookup_ge_None in Hi. rewrite (Forall2_length _ _ _ Hsame) in Hi.
    apply lookup_ge_None in Hi. by rewrite Hi.
Qed.

Lemma same_statement fs fs' config project destination uid sid ev ts source partition
    days j :
  Forall2 same_in_statement fs fs' →
  standard_funnel_text config project destination uid sid ev ts source partition days j fs
  = standard_funnel_text config project destination uid sid ev ts source partition days j
      fs'.
Proof.
  intros Hsame. unfold standard_funnel_text.
  by rewrite (same_step_cases fs fs'), (same_screen_name_cases fs fs'),
    (same_filter_clause fs fs'), (same_completion fs fs').
Qed.

(** X26: generating the funnel statement a second time on the same
    configuration and data returns the same text: what the first run wrote
    into the caller's steps does not change the statement. *)
Theorem X26_generating_again_gives_the_same_statement
    wh config σ ls source partition days sql σ' :
  steps config = Some (StepList ls) →
  data_source config = Some source →
  partition_column config = Some partition →
  time_period_days config = Some days →
  NoDup ls → allocated σ ls →
  wh_accepts wh (availability_query source partition days (all_events σ ls)) = true →
  generate_standard_funnel_sql wh config σ = (Ok sql, σ') →
  wh_accepts wh (availability_query source partition days (all_events σ' ls)) = true →
  ∃ σ'', generate_standard_funnel_sql wh config σ' = (Ok sql, σ'').
Proof.
  intros Hsteps Hsrc Hpart Hdays Hnd Hal Hacc Hgen Hacc'.
  pose proof Hgen as Hinv.
  apply generate_standard_funnel_sql_inv in Hinv as (locs & fs & Hcheck & Hfs & Hsql).
  destruct (second_check_same_steps wh config σ ls source partition days locs σ'
              Hsteps Hsrc Hpart Hdays Hnd Hal Hacc Hcheck Hacc')
    as (σ'' & Hcheck' & _ & Hin).
  exists σ''.
  set (fs' := map (λ st, set_original_events (loaded_events st) st) fs).
  assert (Hfs' : Forall2 (λ l st, σ'' !! l = Some st) locs fs').
  { unfold fs'. apply Forall2_fmap_r.
    apply Forall2_same_length_lookup. split; [by eapply Forall2_length|].
    intros i l st Hl Hst.
    pose proof (Forall2_lookup_lr _ _ _ _ _ _ Hfs Hl Hst) as Hlst.
    apply Hin; [by eapply list_elem_of_lookup_2|done]. }
  assert (Hsame : Forall2 same_in_statement fs fs').
  { unfold fs'. apply Forall2_fmap_r, Forall_Forall2_diag, Forall_forall.
    by intros st _. }
  unfold generate_standard_funnel_sql in Hgen |- *. unfold bind at 1 in Hgen.
  unfold bind at 1. rewrite Hcheck in Hgen. rewrite Hcheck'.
  destruct locs as [|l locs]; [discriminate|].
  rewrite (bind_ok _ _ _ _ _ (for_each_read_ok _ _ _ Hfs')).
  unfold lift. f_equal.
  apply standard_funnel_sql_inv in Hsql as Hparts.
  destruct Hparts as (project & destination & uid & sid & ev & ts & source' & partition'
                      & days' & j & H1 & H2 & H3 & H4 & H5 & H6 & H7 & H8 & H9 & ->).
  rewrite <- Hsql. unfold standard_funnel_sql.
  destruct (user_join config); [|done]. simpl.
  rewrite H1, H2, H3, H4, H5, H6, H7, H8, H9. simpl. f_equal.
  symmetry. by apply same_statement.
Qed.

Lemma X26_generating_again_witness :
  ∃ sql σ' σ'',
    generate_standard_funnel_sql example_warehouse
      (example_config [0%nat; 1%nat; 2%nat] 30) gappy_store = (Ok sql, σ')
    ∧ generate_standard_funnel_sql example_warehouse
        (example_config [0%nat; 1%nat; 2%nat] 30) σ' = (Ok sql, σ'').
Proof.
  eexists _, _.
  assert (Hrun : generate_standard_funnel_sql example_warehouse
                   (example_config [0%nat; 1%nat; 2%nat] 30) gappy_store
                 = (Ok _, _)) by (vm_compute; reflexivity).
  destruct (X26_generating_again_gives_the_same_statement example_warehouse
              (example_config [0%nat; 1%nat; 2%nat] 30) gappy_store
              [0%nat; 1%nat; 2%nat] "proj.events.events" "date" 30 _ _
              eq_refl eq_refl eq_refl eq_refl
              ltac:(refine (bool_decide_unpack _ _); vm_compute; exact I)
              ltac:(refine (bool_decide_unpack _ _); vm_compute; exact I)
              eq_refl Hrun eq_refl) as (σ'' & H).
  exists σ''. split; [exact Hrun|exact H].
Defined.
